(** * qik: configuration resolution and prompt assembly

    A shallow embedding of the decision logic of the [qik] command line
    tool (Go): [initConfig] (cmd/root.go), the [fix] and [answer]
    commands (cmd/fix.go, cmd/answer.go) and [ProcessText]
    (internal/ai/gemini.go), together with the functions of Go's
    [strings] package these call.

    Go strings are byte sequences; they are [string] here (a list of
    8-bit [ascii]).  A Go [map[string]V] is a [gmap string V].  Terminal
    output, the editor, the model client and the clipboard are events of
    a trace; what the outside world answers is read from a [World]. *)

From Stdlib Require Import Ascii String NArith List Bool.
From stdpp Require Import base option gmap strings sorting.

Local Open Scope string_scope.
Local Open Scope list_scope.

(** ** Characters *)

Definition nl : string := String "010"%char EmptyString.
Definition dq : string := String "034"%char EmptyString.

(** ** Go's [strings] package *)

Module GoStrings.

(** [c >= utf8.RuneSelf]: the byte starts or continues a multi-byte
    UTF-8 sequence. *)
Definition geRuneSelf (c : ascii) : bool :=
  match c with Ascii _ _ _ _ _ _ _ b7 => b7 end.

Definition byte (c : ascii) : N := N_of_ascii c.

Definition isUpperASCII (c : ascii) : bool :=
  ((65 <=? byte c) && (byte c <=? 90))%N.

(** [c + 'a' - 'A'] for an upper-case ASCII letter. *)
Definition lowerASCII (c : ascii) : ascii :=
  if isUpperASCII c then ascii_of_N (byte c + 32) else c.

(** The table [asciiSpace]: tab, line feed, vertical tab, form feed,
    carriage return, space. *)
Definition asciiSpace (c : ascii) : bool :=
  (((9 <=? byte c) && (byte c <=? 13)) || (byte c =? 32))%N.

(** The parts of the library that consult the Unicode tables.  The
    ASCII fast paths below are the library's own; only what happens
    once a byte [>= utf8.RuneSelf] is met is left to these four
    functions, about which nothing is assumed. *)
Class Unicode := {
  (** [strings.Map(unicode.ToLower, s)] *)
  mapToLower : string -> string;
  (** the [hasUnicode] loop of [EqualFold] on the two remainders *)
  equalFoldRunes : string -> string -> bool;
  (** [strings.TrimFunc(s, unicode.IsSpace)] *)
  trimFuncIsSpace : string -> string;
  (** [strings.TrimRightFunc(s, unicode.IsSpace)] *)
  trimRightFuncIsSpace : string -> string
}.

Fixpoint HasPrefix (s prefix : string) : bool :=
  match prefix with
  | EmptyString => true
  | String p prefix' =>
      match s with
      | EmptyString => false
      | String c s' => Ascii.eqb c p && HasPrefix s' prefix'
      end
  end.

(** [Contains(s, substr)]: [substr] starts at some byte offset of [s]. *)
Fixpoint Contains (s substr : string) : bool :=
  HasPrefix s substr ||
  match s with
  | EmptyString => false
  | String _ s' => Contains s' substr
  end.

(** [s[n:]] for [n <= len(s)]. *)
Fixpoint sliceFrom (n : nat) (s : string) : string :=
  match n, s with
  | S n', String _ s' => sliceFrom n' s'
  | _, _ => s
  end.

(** The scan of [Replace(s, old, new, -1)] for a non-empty [old]: at
    the leftmost occurrence of [old] write [new] and continue after the
    occurrence, otherwise copy one byte.  [fuel] bounds the number of
    steps; [String.length s] steps are enough since each consumes at
    least one byte. *)
Fixpoint replaceScan (fuel : nat) (s old new : string) : string :=
  match fuel with
  | O => s
  | S fuel' =>
      if HasPrefix s old
      then new +:+ replaceScan fuel' (sliceFrom (String.length old) s) old new
      else match s with
           | EmptyString => EmptyString
           | String c s' => String c (replaceScan fuel' s' old new)
           end
  end.

(** [ReplaceAll(s, old, new)]: every non-overlapping occurrence of
    [old], scanning from the left, is replaced by [new]; the bytes of
    [new] are not scanned again.  [old == new] returns [s].  For an
    empty [old] Go inserts [new] around every UTF-8 sequence: every call
    in the program passes a non-empty literal, and this model is only
    meant for those (it returns [s]). *)
Definition ReplaceAll (s old new : string) : string :=
  if String.eqb old new then s
  else match old with
       | EmptyString => s
       | String _ _ => replaceScan (String.length s) s old new
       end.

Fixpoint allASCII (s : string) : bool :=
  match s with
  | EmptyString => true
  | String c s' => negb (geRuneSelf c) && allASCII s'
  end.

Fixpoint mapBytes (f : ascii -> ascii) (s : string) : string :=
  match s with
  | EmptyString => EmptyString
  | String c s' => String (f c) (mapBytes f s')
  end.

Fixpoint reverse (acc s : string) : string :=
  match s with
  | EmptyString => acc
  | String c s' => reverse (String c acc) s'
  end.

Section WithUnicode.
Context `{Unicode}.

(** [ToLower]: an all-ASCII string is lowered byte by byte, any
    other goes through [Map(unicode.ToLower, s)]. *)
Definition ToLower (s : string) : string :=
  if allASCII s then mapBytes lowerASCII s else mapToLower s.

(** [EqualFold]: the loop over byte pairs; it leaves for the rune
    loop at the first pair with a byte [>= utf8.RuneSelf], and when
    one string is exhausted compares the lengths. *)
Fixpoint EqualFold (s t : string) : bool :=
  match s, t with
  | String sr s', String tr t' =>
      if geRuneSelf sr || geRuneSelf tr then equalFoldRunes s t
      else if Ascii.eqb tr sr then EqualFold s' t'
      else
        let lo := if (byte tr <? byte sr)%N then tr else sr in
        let hi := if (byte tr <? byte sr)%N then sr else tr in
        if isUpperASCII lo && (byte hi =? byte lo + 32)%N
        then EqualFold s' t'
        else false
  | EmptyString, EmptyString => true
  | _, _ => false
  end.

(** Second loop of [TrimSpace], run over the reversed remainder
    [r] of [s[start:]]: drop trailing ASCII spaces; a byte
    [>= utf8.RuneSelf] hands [s[start:stop]] to [TrimRightFunc]. *)
Fixpoint trimRightScan (r : string) : string :=
  match r with
  | EmptyString => EmptyString
  | String c r' =>
      if geRuneSelf c then trimRightFuncIsSpace (reverse EmptyString r)
      else if asciiSpace c then trimRightScan r'
      else reverse EmptyString r
  end.

(** [TrimSpace]: first loop drops leading ASCII spaces; a byte
    [>= utf8.RuneSelf] hands [s[start:]] to [TrimFunc]. *)
Fixpoint TrimSpace (s : string) : string :=
  match s with
  | EmptyString => EmptyString
  | String c s' =>
      if geRuneSelf c then trimFuncIsSpace s
      else if asciiSpace c then TrimSpace s'
      else trimRightScan (reverse EmptyString s)
  end.
End WithUnicode.

End GoStrings.
Export GoStrings.

(** ** internal/config: the configuration structures *)

Module config.

Record MoodInstruction := {
  Description : string;
  Instruction : string
}.

(** The struct [Prompts]; the name is free for the field of [Config]. *)
Record PromptsT := {
  Default : string;
  EnglishFixOnly : string;
  ExplainText : string;
  AnswerQuestion : string
}.

Record Config := {
  DefaultLanguage : string;
  Editor : string;
  GeminiAPIKey : string;
  GeminiModel : string;
  DefaultMood : string;
  Moods : gmap string MoodInstruction;
  Prompts : PromptsT
}.

End config.
Import config.

(** ** Effects: traces, results and exits *)

Module Effects.

(** A Go [(T, error)] pair; an error is kept as its message. *)
Inductive Result (A : Type) : Type :=
| Ok (a : A)
| Err (msg : string).
Arguments Ok {A} a.
Arguments Err {A} msg.

(** What the process does to the outside, in order.  [Stdout] and
    [Stderr] carry the text of one print call.  [LogFatal] is the
    message of [log.Fatal]/[log.Fatalf] (the logger adds a time stamp),
    and is always followed by exit status 1. *)
Inductive Event : Type :=
| Stdout (text : string)
| Stderr (text : string)
| LogPrint (text : string)
| LogFatal (text : string)
| MkdirAll (dir : string)
| WriteFile (path data : string)
| RunCommand (name : string) (args : list string)
| RunEditor (editorCmd : string)
| NewClient (apiKey : string)
| GenerateContent (modelName prompt : string)
| WriteClipboard (text : string).

Inductive ExitCode : Type := ExitSuccess | ExitFailure.

(** A step either goes on with a value or ends the command. *)
Inductive Outcome (A : Type) : Type :=
| Next (a : A)
| Exit (code : ExitCode).
Arguments Next {A} a.
Arguments Exit {A} code.

Definition Proc (A : Type) : Type := (list Event * Outcome A)%type.

Definition ret {A} (a : A) : Proc A := ([], Next a).

Definition bind {A B} (c : Proc A) (k : A -> Proc B) : Proc B :=
  match c with
  | (t, Next a) => let (t', r) := k a in (t ++ t', r)
  | (t, Exit code) => (t, Exit code)
  end.

Definition emit (e : Event) : Proc unit := ([e], Next tt).

(** [fmt.Println(text)] *)
Definition Println (text : string) : Proc unit := emit (Stdout (text +:+ nl)).

(** [log.Fatal(text)] *)
Definition logFatal {A} (text : string) : Proc A :=
  ([LogFatal text], Exit ExitFailure).

(** [return] from a command's [Run]: the process then ends with
    status 0. *)
Definition returnFromRun {A} : Proc A := ([], Exit ExitSuccess).

Definition trace {A} (c : Proc A) : list Event := fst c.

(** The exit status of a whole command. *)
Definition status (c : Proc unit) : ExitCode :=
  match snd c with
  | Next _ => ExitSuccess
  | Exit code => code
  end.

End Effects.
Import Effects.

Notation "'do' x <- c ; k" := (bind c (fun x => k))
  (at level 10, x name, c at level 100, k at level 200, only parsing).

(** [s == EmptyString] *)
Definition isEmpty (s : string) : bool :=
  match s with EmptyString => true | String _ _ => false end.

(** ** The built-in prompt templates and moods (cmd/root.go) *)

Module builtin.

Definition builtinDefault : string :=
"You are an expert proofreader and linguistic assistant.
Your primary task is to meticulously review the following text.
Correct all spelling and grammatical errors.
Improve the flow and clarity of the text, rephrasing sentences or restructuring paragraphs if necessary to make it sound natural and well-written.
The final output should be in {LANGUAGE}.
{MOOD_INSTRUCTION}
Do NOT include any preambles, apologies, or explanations in your response. Only return the corrected and refined text.

Original text to process:
---
{TEXT}
---".

Definition builtinEnglishFixOnly : string :=
"You are an expert English proofreader.
Your primary task is to meticulously review the following English text.
Correct all spelling and grammatical errors.
Improve the flow and clarity of the text, rephrasing sentences or restructuring paragraphs if necessary to make it sound natural and well-written.
The text is already in English, so no translation is needed.
{MOOD_INSTRUCTION}
Do NOT include any preambles, apologies, or explanations in your response. Only return the corrected and refined text.

Original text to process:
---
{TEXT}
---".

Definition builtinExplainText : string :=
"You are an expert at simplifying complex topics.
The user will provide a piece of text. Your task is to explain the main concepts or what the person is talking about in that text.
The explanation should be:
1. Simple and easy to understand, even for someone not familiar with the topic.
2. Concise and to the point. Aim for a short summary.
3. If a specific output language is requested via the {LANGUAGE} placeholder, use that language. Otherwise, attempt to provide the explanation in the SAME language as the input text ({TEXT}).
Do NOT include any preambles, apologies, or phrases like " +:+ dq +:+
"This text is about..." +:+ dq +:+
". Just provide the explanation directly.

Text to explain:
---
{TEXT}
---".

Definition builtinAnswerQuestion : string :=
"You are an intelligent and helpful assistant.
The user will provide a question. Your task is to provide a clear, concise, and accurate answer to that question.
Consider the following when formulating your response:
1. Directly address the question asked.
2. Provide the answer in the {LANGUAGE} language.
3. Adjust the tone of your answer according to the specified mood: {MOOD_INSTRUCTION}
   If no specific mood instruction is given for " +:+ dq +:+
"neutral" +:+ dq +:+
", answer in a helpful and informative default tone.
Do NOT include any preambles like " +:+ dq +:+
"Here is the answer to your question:" +:+ dq +:+
" or " +:+ dq +:+
"The answer is:" +:+ dq +:+
". Just provide the answer directly.

Question to answer:
---
{TEXT}
---".

End builtin.

(** ** internal/ai: the model client (gemini.go) *)

Module ai.

(** The response of [GenerateContent], as far as [ProcessText] reads
    it.  Values of the SDK that are only printed are kept as the text
    they print as. *)
Inductive Part : Type :=
| Text (text : string)
| OtherPart (typeName shown : string).

Record SafetyRating := {
  Category : string;
  Probability : string;
  Blocked : bool
}.

(** [BlockReason]: [None] is [BlockReasonUnspecified], [Some r] any
    other reason, [r] being [BlockReason.String()]. *)
Record PromptFeedbackT := {
  BlockReason : option string;
  SafetyRatings : list SafetyRating
}.

(** [Content]: [None] is a nil [Content], [Some parts] its [Parts]. *)
Record Candidate := {
  Content : option (list Part)
}.

Record GenerateContentResponse := {
  PromptFeedback : option PromptFeedbackT;
  Candidates : list Candidate;
  shownResponse : string
}.

Record GeminiClient := { model : string }.

Section Client.
(** [genai.NewClient]: its error, if any. *)
Variable genaiNewClient : string -> option string.
(** [model.GenerateContent] for a model name and a prompt: an error,
    a nil response, or a response. *)
Variable genaiGenerateContent :
  string -> string -> Result (option GenerateContentResponse).

Definition NewGeminiClient (apiKey modelName : string)
  : list Event * Result GeminiClient :=
  match genaiNewClient apiKey with
  | Some err =>
      ([NewClient apiKey], Err ("failed to create genai client: " +:+ err))
  | None =>
      if isEmpty modelName
      then ([NewClient apiKey;
             LogPrint "Warning: Gemini model name was empty in NewGeminiClient, defaulting to 'gemini-1.5-flash-latest'."],
            Ok {| model := "gemini-1.5-flash-latest" |})
      else ([NewClient apiKey], Ok {| model := modelName |})
  end.

(** The two substitutions at the head of [ProcessText]. *)
Definition finalPrompt (textToProcess promptTemplate targetLanguage : string)
  : string :=
  let promptWithText := ReplaceAll promptTemplate "{TEXT}" textToProcess in
  ReplaceAll promptWithText "{LANGUAGE}" targetLanguage.

Definition firstBlocked (ratings : list SafetyRating) : option SafetyRating :=
  List.find Blocked ratings.

(** What [ProcessText] makes of a non-nil response. *)
Definition readResponse (resp : GenerateContentResponse)
  : list Event * Result string :=
  let blocked :=
    match PromptFeedback resp with
    | None => None
    | Some fb =>
        match BlockReason fb with
        | Some reason =>
            Some ("content generation blocked by Gemini. Reason: " +:+ reason
                  +:+ ". Review input or adjust safety settings if appropriate.")
        | None =>
            match firstBlocked (SafetyRatings fb) with
            | Some rating =>
                Some ("content generation blocked by Gemini due to safety rating. Category: "
                      +:+ Category rating +:+ ", Probability: " +:+ Probability rating
                      +:+ ". Review input or adjust safety settings.")
            | None => None
            end
        end
    end in
  match blocked with
  | Some msg => ([], Err msg)
  | None =>
      match Candidates resp with
      | {| Content := Some (part :: _) |} :: _ =>
          match part with
          | Text textPart => ([], Ok textPart)
          | OtherPart typeName shown =>
              ([], Err ("unexpected content part type from AI: " +:+ typeName
                        +:+ ". Expected genai.Text. Content: " +:+ shown))
          end
      | _ =>
          ([LogPrint ("Warning: Gemini API returned no candidates or content parts. This might indicate an issue with the prompt, model configuration, or an unexpected safety filter. Full response: "
                      +:+ shownResponse resp)],
           Err "AI returned no processable content. Please try rephrasing your input or check the model's status.")
      end
  end.

Definition ProcessText (c : GeminiClient)
    (textToProcess promptTemplate targetLanguage : string)
  : list Event * Result string :=
  let prompt := finalPrompt textToProcess promptTemplate targetLanguage in
  match genaiGenerateContent (model c) prompt with
  | Err err =>
      ([GenerateContent (model c) prompt],
       Err ("Gemini API call failed to generate content: " +:+ err))
  | Ok None =>
      ([GenerateContent (model c) prompt],
       Err "Gemini API returned a nil response, which is unexpected")
  | Ok (Some resp) =>
      let (t, r) := readResponse resp in
      (GenerateContent (model c) prompt :: t, r)
  end.
End Client.

End ai.

(** Functions that return [(T, error)] and print on the way. *)
Definition Fallible (A : Type) : Type := (list Event * Result A)%type.

Definition bindF {A B} (c : Fallible A) (k : A -> Fallible B) : Fallible B :=
  match c with
  | (t, Ok a) => let (t', r) := k a in (t ++ t', r)
  | (t, Err e) => (t, Err e)
  end.

(** [if err != nil { log.Fatalf(prefix + "%v", err) }] *)
Definition orFatal {A} (prefix : string) (c : Fallible A) : Proc A :=
  match c with
  | (t, Ok a) => (t, Next a)
  | (t, Err e) => (t ++ [LogFatal (prefix +:+ e)], Exit ExitFailure)
  end.

(** ** The outside world *)

Record World := {
  (** [os.Getenv(name)] *)
  Getenv : string -> string;
  (** [exec.LookPath(file)] finds the program *)
  LookPath : string -> bool;
  (** [exec.Command(name, args...).Output()] *)
  commandOutput : string -> list string -> Result string;
  (** [editor.GetTextFromEditor(editorCmd)] *)
  GetTextFromEditor : string -> Result string;
  genaiNewClient : string -> option string;
  genaiGenerateContent :
    string -> string -> Result (option ai.GenerateContentResponse);
  (** [clipboard.CopyToClipboard(text)]: its error, if any. *)
  CopyToClipboard : string -> option string
}.

(** ** internal/utils: the API key (apikey.go) *)

Module utils.

Definition PassEntryName : string := "gemini_api_key".
Definition EnvVarName : string := "GEMINI_API_KEY".

(** [strings.SplitN(key, "\n", 2)[0]]: what stands before the first
    line feed. *)
Fixpoint firstLine (key : string) : string :=
  match key with
  | EmptyString => EmptyString
  | String c key' =>
      if Ascii.eqb c "010" then EmptyString else String c (firstLine key')
  end.

Section Key.
Context `{Unicode}.
Variable w : World.

(** The local [printV], given the formatted text; no format ends in a
    newline. *)
Definition printV (verbose : bool) (text : string) : list Event :=
  if verbose then [Stdout (text +:+ nl)] else [].

(** The second source, [pass]: what is printed and run, and the key
    if there is one. *)
Definition keyFromPass (verbose : bool) : list Event * option string :=
  if LookPath w "pass" then
    match commandOutput w "pass" [PassEntryName] with
    | Ok output =>
        let key := TrimSpace output in
        if negb (isEmpty key)
        then (RunCommand "pass" [PassEntryName]
                :: printV verbose ("Using Gemini API key from 'pass "
                                   +:+ PassEntryName +:+ "'."),
              Some (firstLine key))
        else ([RunCommand "pass" [PassEntryName]], None)
    | Err _ => ([RunCommand "pass" [PassEntryName]], None)
    end
  else
    (printV verbose "'pass' command not found in PATH. Skipping 'pass' lookup for API key.",
     None).

Definition GetGeminiAPIKey (configKey : string) (verbose : bool) : Fallible string :=
  let apiKey := Getenv w EnvVarName in
  if negb (isEmpty apiKey)
  then (printV verbose ("Using Gemini API key from environment variable "
                        +:+ EnvVarName +:+ "."),
        Ok apiKey)
  else
    match keyFromPass verbose with
    | (t, Some key) => (t, Ok key)
    | (t, None) =>
        if negb (isEmpty configKey)
        then (t ++ printV verbose "Warning: Using Gemini API key from the application configuration file. For better security, prefer using environment variables or a password manager like 'pass'.",
              Ok configKey)
        else (t, Err ("Gemini API key not found. Please set the " +:+ EnvVarName
                      +:+ " environment variable, store it in 'pass' as '"
                      +:+ PassEntryName
                      +:+ "', or add 'geminiApiKey' to your qik configuration file."))
    end.
End Key.

End utils.

(** Reading the configuration: what the file system and [viper] answer
    during [initConfig]. *)
Inductive ReadOutcome : Type :=
| ReadOk
| ConfigFileNotFoundError (err : string)
| ReadError (err : string).

Record ConfigSource := {
  UserHomeDir : Result string;
  (** [filepath.Join] and [filepath.Dir] *)
  pathJoin : list string -> string;
  pathDir : string -> string;
  (** the first [viper.ReadInConfig()] and [viper.ConfigFileUsed()] *)
  ReadInConfig : ReadOutcome;
  ConfigFileUsed : string;
  (** [os.Stat(dir)] reports that [dir] does not exist *)
  statIsNotExist : string -> bool;
  osMkdirAll : string -> option string;
  yamlMarshal : Config -> Result string;
  osWriteFile : string -> string -> option string;
  (** the second [viper.ReadInConfig()], after the default file is written *)
  ReadInConfigAgain : option string;
  (** [viper.Unmarshal(&AppConfig)]: the value left in [AppConfig] (from
      the file read, if any, and the [QIK_] environment variables) and
      the decoding error, if any *)
  Unmarshal : Config * option string
}.

(** ** Package cmd *)

Module cmd.

(** *** root.go *)

Definition defaultPromptsConfig : PromptsT := {|
  Default := builtin.builtinDefault;
  EnglishFixOnly := builtin.builtinEnglishFixOnly;
  ExplainText := builtin.builtinExplainText;
  AnswerQuestion := builtin.builtinAnswerQuestion
|}.

Definition getDefaultMoods : gmap string MoodInstruction :=
  list_to_map [
    ("neutral",
     {| Description := "Standard correction without specific tone alteration. Relies on base prompt's natural styling.";
        Instruction := EmptyString |});
    ("professional",
     {| Description := "Refine text to be formal, objective, and suitable for business or academic contexts.";
        Instruction := "Additionally, adjust the tone of the text to be highly professional, formal, and objective. Avoid colloquialisms and ensure a polished, business-like feel." |});
    ("casual",
     {| Description := "Make the text sound more relaxed, friendly, and conversational.";
        Instruction := "Additionally, adjust the tone of the text to be more casual, friendly, and conversational. Use simpler language and a more relaxed style where appropriate." |});
    ("funny",
     {| Description := "Inject humor, wit, or lightheartedness into the text (use with care).";
        Instruction := "Additionally, try to inject appropriate and subtle humor or a lighthearted tone into the text. Make it engaging and amusing without undermining the core message, if applicable." |});
    ("persuasive",
     {| Description := "Make the text more convincing, confident, and impactful.";
        Instruction := "Additionally, refine the text to be more persuasive and impactful. Strengthen arguments, use confident language, and aim to convince the reader." |});
    ("empathetic",
     {| Description := "Adjust the text to convey understanding, support, and compassion.";
        Instruction := "Additionally, adjust the tone to be empathetic and supportive. Use language that conveys understanding and compassion, suitable for sensitive topics." |});
    ("concise",
     {| Description := "Make the text as brief and to-the-point as possible, removing fluff.";
        Instruction := "Additionally, ensure the text is extremely concise and to-the-point. Remove any redundant words or phrases and focus on conveying the core message with maximum brevity." |})
  ].

(** The configuration [createDefaultConfig] writes out. *)
Definition defaultCfg : Config := {|
  DefaultLanguage := "Norwegian";
  Editor := "nvim";
  GeminiAPIKey := EmptyString;
  GeminiModel := "gemini-1.5-flash-latest";
  DefaultMood := "neutral";
  Moods := getDefaultMoods;
  Prompts := defaultPromptsConfig
|}.

Section Root.
(** The [--config] and [--verbose] flags. *)
Variable cfgFile : string.
Variable verbose : bool.

(** [printVerbose(format, a...)], given the formatted text.  No
    format in the program ends in a newline, so one is always
    added. *)
Definition printVerbose (text : string) : list Event :=
  if verbose then [Stdout (text +:+ nl)] else [].

Variable src : ConfigSource.

Definition getDefaultConfigPath : Result string :=
  match UserHomeDir src with
  | Err err => Err ("could not get user home directory: " +:+ err)
  | Ok home =>
      let configDir := pathJoin src [home; ".config"; "qik"] in
      Ok (pathJoin src [configDir; "config.yaml"])
  end.

Definition createDefaultConfig (configPath : string) : Fallible unit :=
  let configDir := pathDir src configPath in
  bindF
    (if statIsNotExist src configDir
     then match osMkdirAll src configDir with
          | Some err =>
              ([MkdirAll configDir],
               Err ("could not create config directory " +:+ configDir +:+ ": " +:+ err))
          | None =>
              (MkdirAll configDir
                 :: printVerbose ("Created config directory: " +:+ configDir),
               Ok tt)
          end
     else ([], Ok tt))
    (fun _ =>
       match yamlMarshal src defaultCfg with
       | Err err => ([], Err ("could not marshal default config to YAML: " +:+ err))
       | Ok yamlData =>
           match osWriteFile src configPath yamlData with
           | Some err =>
               ([WriteFile configPath yamlData],
                Err ("could not write default config file " +:+ configPath +:+ ": " +:+ err))
           | None =>
               ([WriteFile configPath yamlData;
                 Stdout ("Created default config file: " +:+ configPath +:+ nl)]
                ++ printVerbose "You might want to review it. Key settings include 'defaultLanguage', 'editor', 'geminiModel', 'defaultMood'."
                ++ printVerbose "Run 'qik list-models' and 'qik list-moods' for available options."
                ++ printVerbose "For API key, use GEMINI_API_KEY env var or 'pass gemini_api_key'.",
                Ok tt)
           end
       end).

(** [initConfig] up to and including [viper.Unmarshal]: what is
    printed while the configuration file is looked for, created and
    read (lines 201-258). *)
Definition loadConfig : list Event * Config :=
  let searchWarning :=
    if isEmpty cfgFile
    then match UserHomeDir src with
         | Err err =>
             [Stderr ("Warning: Could not get user home directory: " +:+ err
                      +:+ ". Will only check current directory for config." +:+ nl)]
         | Ok _ => []
         end
    else [] in
  let reading :=
    match ReadInConfig src with
    | ConfigFileNotFoundError _ =>
        Stderr ("Config file not found." +:+ nl) ::
        match getDefaultConfigPath with
        | Ok defaultPath =>
            match createDefaultConfig defaultPath with
            | (t, Err createErr) =>
                t ++ [Stderr ("Warning: Could not create default config: "
                              +:+ createErr +:+ nl)]
            | (t, Ok _) =>
                t ++ match ReadInConfigAgain src with
                     | Some errReadAgain =>
                         [Stderr ("Warning: Could not read newly created config: "
                                  +:+ errReadAgain +:+ nl)]
                     | None => printVerbose "Successfully read newly created config."
                     end
            end
        | Err pathErr =>
            [Stderr ("Warning: Could not determine default config path: "
                     +:+ pathErr +:+ nl)]
        end
    | ReadError err => [Stderr ("Error reading config file: " +:+ err +:+ nl)]
    | ReadOk => printVerbose ("Successfully read config file: " +:+ ConfigFileUsed src)
    end in
  let decoding :=
    match snd (Unmarshal src) with
    | Some err =>
        [Stderr ("Unable to decode config into struct: " +:+ err
                 +:+ ". Please check your configuration file format." +:+ nl)]
    | None => []
    end in
  (searchWarning ++ reading ++ decoding, fst (Unmarshal src)).

(** A template is kept when it is non-empty and, for the two fix
    templates, mentions the mood placeholder. *)
Definition staleFixPrompt (template : string) : bool :=
  isEmpty template || negb (Contains template "{MOOD_INSTRUCTION}").

(** The programmatic defaults of [initConfig] (lines 260-301),
    applied to the value [AppConfig] holds after [viper.Unmarshal].
    The assignments touch distinct fields, so the result is built
    in one go; the diagnostics are in source order. *)
Definition applyDefaults (loaded : Config) : list Event * Config :=
  let p := Prompts loaded in
  let noMoods := bool_decide (size (Moods loaded) = 0) in
  ((if isEmpty (DefaultLanguage loaded)
    then printVerbose "DefaultLanguage not set in config, using program default: Norwegian"
    else [])
   ++ (if isEmpty (Editor loaded)
       then printVerbose "Editor not set in config, using program default: nvim"
       else [])
   ++ (if isEmpty (GeminiModel loaded)
       then printVerbose "GeminiModel not set in config, using program default: gemini-1.5-flash-latest"
       else [])
   ++ (if isEmpty (DefaultMood loaded)
       then printVerbose "DefaultMood not set in config, using program default: neutral"
       else [])
   ++ (if staleFixPrompt (Default p)
       then printVerbose "Default prompt missing or outdated, setting to program default."
       else [])
   ++ (if staleFixPrompt (EnglishFixOnly p)
       then printVerbose "EnglishFixOnly prompt missing or outdated, setting to program default."
       else [])
   ++ (if isEmpty (ExplainText p)
       then printVerbose "ExplainText prompt missing, setting to program default."
       else [])
   ++ (if isEmpty (AnswerQuestion p)
       then printVerbose "AnswerQuestion prompt missing, setting to program default."
       else [])
   ++ (if noMoods
       then printVerbose "Moods not set in config, using program defaults."
       else []),
   {| DefaultLanguage :=
        if isEmpty (DefaultLanguage loaded) then "Norwegian"
        else DefaultLanguage loaded;
      Editor := if isEmpty (Editor loaded) then "nvim" else Editor loaded;
      GeminiAPIKey := GeminiAPIKey loaded;
      GeminiModel :=
        if isEmpty (GeminiModel loaded) then "gemini-1.5-flash-latest"
        else GeminiModel loaded;
      DefaultMood :=
        if isEmpty (DefaultMood loaded) then "neutral" else DefaultMood loaded;
      Moods := if noMoods then getDefaultMoods else Moods loaded;
      Prompts := {|
        Default :=
          if staleFixPrompt (Default p) then Default defaultPromptsConfig
          else Default p;
        EnglishFixOnly :=
          if staleFixPrompt (EnglishFixOnly p)
          then EnglishFixOnly defaultPromptsConfig
          else EnglishFixOnly p;
        ExplainText :=
          if isEmpty (ExplainText p) then ExplainText defaultPromptsConfig
          else ExplainText p;
        AnswerQuestion :=
          if isEmpty (AnswerQuestion p) then AnswerQuestion defaultPromptsConfig
          else AnswerQuestion p
      |}
   |}).

(** [initConfig]: the trace and the final [AppConfig]. *)
Definition initConfig : list Event * Config :=
  let (t, loaded) := loadConfig in
  let (t', resolved) := applyDefaults loaded in
  (t ++ t', resolved).
End Root.

(** *** fix.go and answer.go *)

(** The package-level variables the flags of [fix] are bound to. *)
Record FixVars := {
  language : string;
  promptKey : string;
  englishShorthand : bool;
  moodKey : string
}.

(** The package-level variables the flags of [answer] are bound to. *)
Record AnswerVars := {
  answerLanguage : string;
  answerMoodKey : string;
  answerCopyToClipboard : bool
}.

Section Commands.
Context `{Unicode}.
Variable w : World.
Variable verbose : bool.
(** The configuration left by [initConfig]. *)
Variable AppConfig : Config.
(** [cmd.Flags().Changed(name)]: the flag was given on the command
    line. *)
Variable Changed : string -> bool.

Definition printV (text : string) : Proc unit :=
  (printVerbose verbose text, Next tt).

(** Lines 36-45 of fix.go, 36-43 of answer.go.  [viper.GetString]
    of [geminiApiKey] is the field of the decoded configuration. *)
Definition requireAPIKey : Proc string :=
  do apiKey <-
    orFatal "Error getting API key: "
      (utils.GetGeminiAPIKey w (GeminiAPIKey AppConfig) verbose) ;
  if isEmpty apiKey
  then logFatal "Gemini API key not found. Set GEMINI_API_KEY, use 'pass gemini_api_key', or set 'geminiApiKey' in config."
  else ret apiKey.

(** [fixCmd.PersistentPreRunE]: the new values of the variables,
    or the error. *)
Definition fixPersistentPreRunE (v : FixVars) : Result FixVars :=
  if englishShorthand v then
    if negb (isEmpty (language v)) && negb (EqualFold (language v) "English")
    then Err "--english flag is incompatible with --language specifying a different language than English"
    else Ok {| language := "English";
               promptKey := if negb (Changed "prompt") then "english_fix_only"
                            else promptKey v;
               englishShorthand := englishShorthand v;
               moodKey := moodKey v |}
  else Ok v.

(** What the assembling part of a command hands on: the template
    with the mood filled in, the language and the mood key. *)
Record Assembled := {
  promptWithMood : string;
  targetLanguage : string;
  selectedMoodKey : string
}.

(** Lines 47-74 of fix.go: the target language and the template.
    Returns [(chosenPromptTemplate, targetLanguage)]. *)
Definition fixChooseTemplate (v : FixVars) : Proc (string * string) :=
  let targetLanguage :=
    if negb (isEmpty (language v)) then language v
    else DefaultLanguage AppConfig in
  if negb (isEmpty (promptKey v)) then
    let key := ToLower (promptKey v) in
    if String.eqb key "default"
    then ret (Default (Prompts AppConfig), targetLanguage)
    else if String.eqb key "english_fix_only"
    then ret (EnglishFixOnly (Prompts AppConfig), "English")
    else
      do _ <- emit (Stdout ("Warning: Unknown prompt key '" +:+ promptKey v
                            +:+ "'. Using default prompt for language "
                            +:+ targetLanguage +:+ "." +:+ nl)) ;
      ret (Default (Prompts AppConfig), targetLanguage)
  else
    if EqualFold targetLanguage "English"
       && negb (isEmpty (EnglishFixOnly (Prompts AppConfig)))
    then ret (EnglishFixOnly (Prompts AppConfig), targetLanguage)
    else ret (Default (Prompts AppConfig), targetLanguage).

(** Lines 75-77 of fix.go. *)
Definition requireTemplate (chosenPromptTemplate : string) : Proc unit :=
  if isEmpty chosenPromptTemplate
  then logFatal "Error: No suitable prompt template could be determined. Check configuration."
  else ret tt.

(** Lines 79-100 of fix.go: the mood.  Returns
    [(selectedMoodKey, moodInstructionText)]. *)
Definition fixResolveMood (v : FixVars) : Proc (string * string) :=
  let selectedMoodKey :=
    if Changed "mood" then moodKey v else DefaultMood AppConfig in
  match Moods AppConfig !! selectedMoodKey with
  | Some mood => ret (selectedMoodKey, Instruction mood)
  | None =>
      do _ <- (if negb (isEmpty selectedMoodKey)
                  && negb (String.eqb selectedMoodKey (DefaultMood AppConfig))
               then emit (Stdout ("Warning: Mood key '" +:+ selectedMoodKey
                                  +:+ "' not found. Using default ('"
                                  +:+ DefaultMood AppConfig
                                  +:+ "') or applying no specific mood styling if default is also misconfigured."
                                  +:+ nl))
               else ret tt) ;
      match Moods AppConfig !! DefaultMood AppConfig with
      | Some defaultMood => ret (selectedMoodKey, Instruction defaultMood)
      | None =>
          do _ <- emit (Stdout ("Warning: Default mood '" +:+ DefaultMood AppConfig
                                +:+ "' also not found or has no instruction. No specific mood styling applied."
                                +:+ nl)) ;
          ret (selectedMoodKey, EmptyString)
      end
  end.

(** Lines 47-104 of fix.go: everything between the API key and the
    editor. *)
Definition fixAssemble (v : FixVars) : Proc Assembled :=
  do sel <- fixChooseTemplate v ;
  let chosenPromptTemplate := fst sel in
  do _ <- requireTemplate chosenPromptTemplate ;
  do md <- fixResolveMood v ;
  let moodInstructionText := snd md in
  ret {| promptWithMood :=
           ReplaceAll chosenPromptTemplate "{MOOD_INSTRUCTION}" moodInstructionText;
         targetLanguage := snd sel;
         selectedMoodKey := fst md |}.

(** [editor.GetTextFromEditor(AppConfig.Editor)] and its check. *)
Definition captureText : Proc string :=
  orFatal "Error getting text from editor: "
    ([RunEditor (Editor AppConfig)], GetTextFromEditor w (Editor AppConfig)).

Definition newClient (apiKey : string) : Proc ai.GeminiClient :=
  orFatal "Error creating AI client: "
    (ai.NewGeminiClient (genaiNewClient w) apiKey (GeminiModel AppConfig)).

(** [fixCmd.Run] *)
Definition fixRun (v : FixVars) : Proc unit :=
  do apiKey <- requireAPIKey ;
  do a <- fixAssemble v ;
  do _ <- Println "Opening editor for input..." ;
  do inputText <- captureText ;
  if isEmpty (TrimSpace inputText)
  then do _ <- Println "No input provided. Exiting." ; returnFromRun
  else
    do _ <- Println "Processing text..." ;
    do _ <- printV ("INFO: Using Language: " +:+ targetLanguage a +:+ ", Mood: "
                    +:+ selectedMoodKey a +:+ ", PromptKey: " +:+ promptKey v) ;
    do aiClient <- newClient apiKey ;
    do processedText <-
      orFatal "Error processing text with AI: "
        (ai.ProcessText (genaiGenerateContent w) aiClient
           inputText (promptWithMood a) (targetLanguage a)) ;
    do _ <- emit (WriteClipboard processedText) ;
    match CopyToClipboard w processedText with
    | Some err =>
        do _ <- emit (Stderr ("Error copying to clipboard: " +:+ err +:+ "." +:+ nl)) ;
        do _ <- Println (nl +:+ "--- Corrected Text (Clipboard Failed) ---") ;
        do _ <- Println processedText ;
        do _ <- Println "-----------------------------------------" ;
        logFatal "Failed to copy to clipboard."
    | None => Println "Corrected text copied to clipboard!"
    end.

(** The [fix] command as cobra runs it: [PersistentPreRunE], then
    [Run]; an error of the former comes back from
    [rootCmd.Execute()], and [Execute] prints it and exits with
    status 1. *)
Definition fixCommand (v : FixVars) : Proc unit :=
  match fixPersistentPreRunE v with
  | Err err => ([Stderr (err +:+ nl)], Exit ExitFailure)
  | Ok v' => fixRun v'
  end.

(** Lines 51-73 of answer.go: the mood.  Returns
    [(selectedMoodKey, moodInstructionText)]. *)
Definition answerResolveMood (v : AnswerVars) : Proc (string * string) :=
  let selectedMoodKey :=
    if Changed "mood" then answerMoodKey v else DefaultMood AppConfig in
  match Moods AppConfig !! selectedMoodKey with
  | Some mood => ret (selectedMoodKey, Instruction mood)
  | None =>
      do _ <- (if negb (isEmpty selectedMoodKey)
                  && negb (String.eqb selectedMoodKey (DefaultMood AppConfig))
               then emit (Stdout ("Warning: Mood key '" +:+ selectedMoodKey
                                  +:+ "' not found in configuration. Using default mood ('"
                                  +:+ DefaultMood AppConfig +:+ "')." +:+ nl))
               else ret tt) ;
      match Moods AppConfig !! DefaultMood AppConfig with
      | Some defaultMood => ret (DefaultMood AppConfig, Instruction defaultMood)
      | None =>
          do _ <- emit (Stdout ("Warning: Default mood '" +:+ DefaultMood AppConfig
                                +:+ "' not found or has no instruction. Applying no specific mood styling."
                                +:+ nl)) ;
          ret (selectedMoodKey, EmptyString)
      end
  end.

Definition neutralFallback : string :=
  "Answer in a standard, helpful, and informative tone.".

(** Lines 75-79 of answer.go. *)
Definition answerNeutralDefault (selectedMoodKey moodInstructionText : string)
  : string :=
  if isEmpty moodInstructionText && String.eqb selectedMoodKey "neutral"
  then neutralFallback
  else moodInstructionText.

(** Lines 81-85 of answer.go. *)
Definition requireAnswerTemplate : Proc string :=
  let answerPromptTemplate := AnswerQuestion (Prompts AppConfig) in
  if isEmpty answerPromptTemplate
  then logFatal "Error: 'answer_question' prompt not defined in configuration. Check your config file."
  else ret answerPromptTemplate.

(** Lines 45-89 of answer.go: everything between the API key and
    the editor. *)
Definition answerAssemble (v : AnswerVars) : Proc Assembled :=
  let targetLanguage :=
    if Changed "language" then answerLanguage v else DefaultLanguage AppConfig in
  do md <- answerResolveMood v ;
  let moodInstructionText := answerNeutralDefault (fst md) (snd md) in
  do answerPromptTemplate <- requireAnswerTemplate ;
  ret {| promptWithMood :=
           ReplaceAll answerPromptTemplate "{MOOD_INSTRUCTION}" moodInstructionText;
         targetLanguage := targetLanguage;
         selectedMoodKey := fst md |}.

(** [answerCmd.Run] *)
Definition answerRun (v : AnswerVars) : Proc unit :=
  do apiKey <- requireAPIKey ;
  do a <- answerAssemble v ;
  do _ <- Println "Opening editor for your question..." ;
  do inputText <- captureText ;
  if isEmpty (TrimSpace inputText)
  then do _ <- Println "No question provided. Exiting." ; returnFromRun
  else
    do _ <- Println "Generating answer..." ;
    do _ <- printV ("INFO: Answering with Language: " +:+ targetLanguage a
                    +:+ ", Mood: " +:+ selectedMoodKey a) ;
    do aiClient <- newClient apiKey ;
    do answer <-
      orFatal "Error generating answer with AI: "
        (ai.ProcessText (genaiGenerateContent w) aiClient
           inputText (promptWithMood a) (targetLanguage a)) ;
    do _ <- Println (nl +:+ "--- Answer ---") ;
    do _ <- Println (TrimSpace answer) ;
    do _ <- Println "--------------" ;
    if answerCopyToClipboard v then
      do _ <- emit (WriteClipboard answer) ;
      match CopyToClipboard w answer with
      | Some err =>
          emit (Stderr (nl +:+ "Warning: Error copying answer to clipboard: "
                        +:+ err +:+ "." +:+ nl))
      | None => Println (nl +:+ "Answer also copied to clipboard!")
      end
    else ret tt.
End Commands.

(** The whole process for [qik fix] and [qik answer]: cobra runs
    [initConfig] (registered with [cobra.OnInitialize]) and then the
    command. *)
Definition qikFix `{Unicode} (cfgFile : string) (verbose : bool)
    (src : ConfigSource) (w : World) (Changed : string -> bool) (v : FixVars)
  : list Event * ExitCode :=
  let (t, AppConfig) := initConfig cfgFile verbose src in
  let c := fixCommand w verbose AppConfig Changed v in
  (t ++ trace c, status c).

Definition qikAnswer `{Unicode} (cfgFile : string) (verbose : bool)
    (src : ConfigSource) (w : World) (Changed : string -> bool) (v : AnswerVars)
  : list Event * ExitCode :=
  let (t, AppConfig) := initConfig cfgFile verbose src in
  let c := answerRun w verbose AppConfig Changed v in
  (t ++ trace c, status c).

(** *** explain.go *)

(** The package-level variables the flags of [explain] are bound to. *)
Record ExplainVars := {
  explainLanguage : string;
  explainCopyToClipboard : bool
}.

Section Explain.
Context `{Unicode}.
Variable w : World.
Variable verbose : bool.
Variable AppConfig : Config.
Variable Changed : string -> bool.

(** Lines 56-60 of explain.go. *)
Definition requireExplainTemplate : Proc string :=
  let explainPromptTemplate := ExplainText (Prompts AppConfig) in
  if isEmpty explainPromptTemplate
  then logFatal "Error: 'explain_text' prompt not defined in configuration. Check your config file."
  else ret explainPromptTemplate.

(** [explainCmd.Run] *)
Definition explainRun (v : ExplainVars) : Proc unit :=
  do apiKey <- requireAPIKey w verbose AppConfig ;
  let targetLanguageForPrompt :=
    if Changed "language" then explainLanguage v else DefaultLanguage AppConfig in
  do _ <- (if Changed "language"
           then printV verbose ("INFO: Explanation language explicitly set to: "
                                +:+ targetLanguageForPrompt)
           else printV verbose ("INFO: Explanation language not specified. AI will attempt to match input or use default ("
                                +:+ targetLanguageForPrompt +:+ ").")) ;
  do explainPromptTemplate <- requireExplainTemplate ;
  do _ <- Println "Opening editor for text to explain..." ;
  do inputText <- captureText w AppConfig ;
  if isEmpty (TrimSpace inputText)
  then do _ <- Println "No input provided. Exiting." ; returnFromRun
  else
    do _ <- Println "Generating explanation..." ;
    do aiClient <- newClient w AppConfig apiKey ;
    do explanation <-
      orFatal "Error generating explanation with AI: "
        (ai.ProcessText (genaiGenerateContent w) aiClient
           inputText explainPromptTemplate targetLanguageForPrompt) ;
    do _ <- Println (nl +:+ "--- Explanation ---") ;
    do _ <- Println (TrimSpace explanation) ;
    do _ <- Println "-------------------" ;
    if explainCopyToClipboard v then
      do _ <- emit (WriteClipboard explanation) ;
      match CopyToClipboard w explanation with
      | Some err =>
          emit (Stderr (nl +:+ "Warning: Error copying explanation to clipboard: "
                        +:+ err +:+ "." +:+ nl))
      | None => Println (nl +:+ "Explanation also copied to clipboard!")
      end
    else ret tt.
End Explain.

(** *** listmoods.go *)

Section ListMoods.
Variable AppConfig : Config.

(** The keys of the mood table after [sort.Strings]: ascending in
    byte order. *)
Definition sortedMoodKeys : list string :=
  merge_sort String.le (map fst (map_to_list (Moods AppConfig))).

(** The two lines printed for a key; [AppConfig.Moods[key]] of a key
    that is not there is the zero value. *)
Definition moodEntry (key : string) : list Event :=
  let mood :=
    match Moods AppConfig !! key with
    | Some mood => mood
    | None => {| Description := EmptyString; Instruction := EmptyString |}
    end in
  [Stdout (nl +:+ "Mood Key:    " +:+ key +:+ nl);
   Stdout ("  Description: " +:+ Description mood +:+ nl)].

(** [listMoodsCmd.Run] *)
Definition listMoodsRun : Proc unit :=
  if bool_decide (size (Moods AppConfig) = 0) then
    do _ <- Println "No moods are currently defined in your configuration." ;
    do _ <- Println "You can define moods in the 'moods' section of your qik config file" ;
    do _ <- Println "(e.g., ~/.config/qik/config.yaml) to customize text tones." ;
    returnFromRun
  else
    ([Stdout ("Available text moods/tones (from your configuration):" +:+ nl);
      Stdout ("----------------------------------------------------" +:+ nl)]
     ++ concat (map moodEntry sortedMoodKeys)
     ++ [Stdout (nl +:+ "----------------------------------------------------" +:+ nl);
         Stdout ("To use a mood, specify its 'Mood Key' with the --mood flag" +:+ nl);
         Stdout ("(e.g., qik fix --mood professional, or qik answer -m casual)." +:+ nl);
         Stdout ("The current default mood (used if --mood is not specified) is: '"
                 +:+ DefaultMood AppConfig +:+ "'." +:+ nl);
         Stdout ("You can change the default mood in your qik configuration file." +:+ nl)],
     Next tt).
End ListMoods.

End cmd.
Import cmd.

(** ** internal/editor and internal/clipboard *)

Module editor.

(** What [GetTextFromEditor] does to the file system and the editor. *)
Inductive Op : Type :=
| TempFile (dir pattern : string)
| Close (path : string)
| Remove (path : string)
| Run (editorCmd path : string)
| ReadFile (path : string).

(** What these answer: the name of the temporary file or the error
    of [ioutil.TempFile], and the errors, if any, of [tempFile.Close],
    [cmd.Run] and [ioutil.ReadFile] (or the content read). *)
Record Files := {
  ioutilTempFile : Result string;
  tempFileClose : option string;
  cmdRun : string -> string -> option string;
  ioutilReadFile : string -> Result string
}.

Definition GetTextFromEditor (fs : Files) (editorCmd : string)
  : list Op * Result string :=
  match ioutilTempFile fs with
  | Err err =>
      ([TempFile EmptyString "qik-*.txt"],
       Err ("failed to create temporary file for editor input: " +:+ err))
  | Ok tempFilePath =>
      match tempFileClose fs with
      | Some err =>
          ([TempFile EmptyString "qik-*.txt"; Close tempFilePath; Remove tempFilePath],
           Err ("failed to close temporary file handle (" +:+ tempFilePath
                +:+ ") before editing: " +:+ err))
      | None =>
          (** from here on [defer os.Remove(tempFilePath)] runs last *)
          match cmdRun fs editorCmd tempFilePath with
          | Some err =>
              ([TempFile EmptyString "qik-*.txt"; Close tempFilePath;
                Run editorCmd tempFilePath; Remove tempFilePath],
               Err ("error running editor command '" +:+ editorCmd +:+ "' on file '"
                    +:+ tempFilePath +:+ "': " +:+ err
                    +:+ ". Ensure the editor is in your PATH and configured to block until closed (e.g., 'code --wait' for VS Code)."))
          | None =>
              match ioutilReadFile fs tempFilePath with
              | Err err =>
                  ([TempFile EmptyString "qik-*.txt"; Close tempFilePath;
                    Run editorCmd tempFilePath; ReadFile tempFilePath;
                    Remove tempFilePath],
                   Err ("failed to read content from temporary file '" +:+ tempFilePath
                        +:+ "' after editing: " +:+ err))
              | Ok content =>
                  ([TempFile EmptyString "qik-*.txt"; Close tempFilePath;
                    Run editorCmd tempFilePath; ReadFile tempFilePath;
                    Remove tempFilePath],
                   Ok content)
              end
          end
      end
  end.

End editor.

Module clipboard.

(** [CopyToClipboard(text)], given the error, if any, of
    [clipboard.WriteAll(text)]. *)
Definition CopyToClipboard (writeAll : string -> option string) (text : string)
  : option string :=
  match writeAll text with
  | Some err => Some ("failed to write to system clipboard: " +:+ err)
  | None => None
  end.

End clipboard.

(** ** Vocabulary of the properties *)

(** [lacks c s]: the byte [c] does not occur in [s]. *)
Fixpoint lacks (c : ascii) (s : string) : bool :=
  match s with
  | EmptyString => true
  | String x s' => negb (Ascii.eqb x c) && lacks c s'
  end.

(** [apart new w]: at no offset of [w] is [new] a prefix of the rest
    of [w], or the rest of [w] a prefix of [new]. *)
Fixpoint apart (new w : string) : bool :=
  match w with
  | EmptyString => true
  | String _ w' => negb (HasPrefix w new) && negb (HasPrefix new w) && apart new w'
  end.

(** The four task keys of the prompt table. *)
Inductive TaskKey : Type :=
| default_
| english_fix_only
| explain_text
| answer_question.

Definition templateFor (task : TaskKey) (p : PromptsT) : string :=
  match task with
  | default_ => Default p
  | english_fix_only => EnglishFixOnly p
  | explain_text => ExplainText p
  | answer_question => AnswerQuestion p
  end.

(** [initConfig] puts the built-in template in the place of the loaded
    one. *)
Definition replacedByBuiltin (task : TaskKey) (loaded : PromptsT) : bool :=
  match task with
  | default_ | english_fix_only => staleFixPrompt (templateFor task loaded)
  | explain_text | answer_question => isEmpty (templateFor task loaded)
  end.

(** The editor, the model client and the clipboard. *)
Definition externalCall (e : Event) : bool :=
  match e with
  | RunEditor _ | NewClient _ | GenerateContent _ _ | WriteClipboard _ => true
  | _ => false
  end.

(** The model client and the clipboard. *)
Definition deliveryCall (e : Event) : bool :=
  match e with
  | NewClient _ | GenerateContent _ _ | WriteClipboard _ => true
  | _ => false
  end.

(** The pieces with [sep] between them, as [strings.Join(pieces, sep)]
    gives them: how a text is cut at the occurrences of a token. *)
Fixpoint joinWith (sep : string) (pieces : list string) : string :=
  match pieces with
  | [] => EmptyString
  | piece :: rest =>
      match rest with
      | [] => piece
      | _ :: _ => piece +:+ sep +:+ joinWith sep rest
      end
  end.

(** ** Sample inputs *)

Module Samples.

(** Unicode tables that leave every string alone and fold nothing:
    enough for inputs that are ASCII throughout. *)
Definition plainTables : Unicode := {|
  mapToLower := fun s => s;
  equalFoldRunes := fun _ _ => false;
  trimFuncIsSpace := fun s => s;
  trimRightFuncIsSpace := fun s => s
|}.

(** A readable configuration file that decodes to [loaded]. *)
Definition sourceOf (loaded : Config) : ConfigSource := {|
  UserHomeDir := Ok "/home/user";
  pathJoin := String.concat "/";
  pathDir := fun _ => "/home/user/.config/qik";
  ReadInConfig := ReadOk;
  ConfigFileUsed := "/home/user/.config/qik/config.yaml";
  statIsNotExist := fun _ => false;
  osMkdirAll := fun _ => None;
  yamlMarshal := fun _ => Ok EmptyString;
  osWriteFile := fun _ _ => None;
  ReadInConfigAgain := None;
  Unmarshal := (loaded, None)
|}.

Definition zeroPrompts : PromptsT := {|
  Default := EmptyString;
  EnglishFixOnly := EmptyString;
  ExplainText := EmptyString;
  AnswerQuestion := EmptyString
|}.

(** The zero value of [Config]. *)
Definition zeroConfig : Config := {|
  DefaultLanguage := EmptyString;
  Editor := EmptyString;
  GeminiAPIKey := EmptyString;
  GeminiModel := EmptyString;
  DefaultMood := EmptyString;
  Moods := ∅;
  Prompts := zeroPrompts
|}.

(** A configuration file whose only entry is a [default] prompt of
    the user's own, with the mood placeholder and nothing else. *)
Definition ownDefaultPrompt : Config := {|
  DefaultLanguage := EmptyString;
  Editor := EmptyString;
  GeminiAPIKey := EmptyString;
  GeminiModel := EmptyString;
  DefaultMood := EmptyString;
  Moods := ∅;
  Prompts := {|
    Default := "Proofread what follows. {MOOD_INSTRUCTION}";
    EnglishFixOnly := EmptyString;
    ExplainText := EmptyString;
    AnswerQuestion := EmptyString
  |}
|}.

(** A configuration file whose only entry is an [english_fix_only]
    prompt of the user's own, with the mood placeholder and nothing
    else. *)
Definition ownEnglishPrompt : Config := {|
  DefaultLanguage := EmptyString;
  Editor := EmptyString;
  GeminiAPIKey := EmptyString;
  GeminiModel := EmptyString;
  DefaultMood := EmptyString;
  Moods := ∅;
  Prompts := {|
    Default := EmptyString;
    EnglishFixOnly := "Polish this. {MOOD_INSTRUCTION}";
    ExplainText := EmptyString;
    AnswerQuestion := EmptyString
  |}
|}.

(** A world with the API key in the environment, an editor session
    that ends with [text], and a model that answers [reply]. *)
Definition worldTyping (text reply : string) : World := {|
  Getenv := fun name =>
    if String.eqb name "GEMINI_API_KEY" then "secret" else EmptyString;
  LookPath := fun _ => false;
  commandOutput := fun _ _ => Err "exit status 1";
  GetTextFromEditor := fun _ => Ok text;
  genaiNewClient := fun _ => None;
  genaiGenerateContent := fun _ _ =>
    Ok (Some {| ai.PromptFeedback := None;
                ai.Candidates := [ {| ai.Content := Some [ai.Text reply] |} ];
                ai.shownResponse := reply |});
  CopyToClipboard := fun _ => None
|}.

(** Which flags were given on the command line. *)
Definition given (names : list string) : string -> bool :=
  fun name => existsb (String.eqb name) names.

Definition noFixFlags : FixVars := {|
  language := EmptyString;
  promptKey := EmptyString;
  englishShorthand := false;
  moodKey := EmptyString
|}.

Definition noAnswerFlags : AnswerVars := {|
  answerLanguage := EmptyString;
  answerMoodKey := EmptyString;
  answerCopyToClipboard := false
|}.

(** [qik fix --mood KEY] and [qik answer --mood KEY] *)
Definition fixMood (key : string) : FixVars := {|
  language := EmptyString;
  promptKey := EmptyString;
  englishShorthand := false;
  moodKey := key
|}.

Definition answerMood (key : string) : AnswerVars := {|
  answerLanguage := EmptyString;
  answerMoodKey := key;
  answerCopyToClipboard := false
|}.

(** No configuration file anywhere, and a home directory in which
    the default one can be made. *)
Definition sourceMissing : ConfigSource := {|
  UserHomeDir := Ok "/home/user";
  pathJoin := String.concat "/";
  pathDir := fun _ => "/home/user/.config/qik";
  ReadInConfig := ConfigFileNotFoundError "Config File Not Found";
  ConfigFileUsed := EmptyString;
  statIsNotExist := fun _ => true;
  osMkdirAll := fun _ => None;
  yamlMarshal := fun _ => Ok "defaultLanguage: Norwegian";
  osWriteFile := fun _ _ => None;
  ReadInConfigAgain := None;
  Unmarshal := (zeroConfig, None)
|}.

(** A world without the key in the environment, in which [pass]
    prints [output]. *)
Definition worldPass (output : string) : World := {|
  Getenv := fun _ => EmptyString;
  LookPath := fun _ => true;
  commandOutput := fun _ _ => Ok output;
  GetTextFromEditor := fun _ => Ok "helo wrold";
  genaiNewClient := fun _ => None;
  genaiGenerateContent := fun _ _ => Err "unavailable";
  CopyToClipboard := fun _ => None
|}.



(** A file system on which the editor runs and leaves [content]. *)
Definition filesLeaving (content : string) : editor.Files := {|
  editor.ioutilTempFile := Ok "/tmp/qik-1.txt";
  editor.tempFileClose := None;
  editor.cmdRun := fun _ _ => None;
  editor.ioutilReadFile := fun _ => Ok content
|}.

Definition noExplainFlags : ExplainVars := {|
  explainLanguage := EmptyString;
  explainCopyToClipboard := false
|}.



End Samples.

(** ** Vocabulary of the further properties *)

(** The invariant of a resolved configuration, as [initConfig] tests
    it: the scalars and templates are not empty, the two fix templates
    mention the mood placeholder, and there is a mood. *)
Definition wellFormed (cfg : Config) : bool :=
  negb (isEmpty (DefaultLanguage cfg))
  && negb (isEmpty (Editor cfg))
  && negb (isEmpty (GeminiModel cfg))
  && negb (isEmpty (DefaultMood cfg))
  && negb (staleFixPrompt (Default (Prompts cfg)))
  && negb (staleFixPrompt (EnglishFixOnly (Prompts cfg)))
  && negb (isEmpty (ExplainText (Prompts cfg)))
  && negb (isEmpty (AnswerQuestion (Prompts cfg)))
  && negb (bool_decide (size (Moods cfg) = 0)).

(** Creating a directory or writing a file. *)
Definition fileOp (e : Event) : bool :=
  match e with
  | MkdirAll _ | WriteFile _ _ => true
  | _ => false
  end.

(** An empty text, or one without braces that is no fragment of
    [body]. *)
Definition plainFor (body text : string) : bool :=
  isEmpty text
  || (lacks "{" text && lacks "}" text && negb (Contains body text)).

(** The message of [log.Fatal]/[log.Fatalf]. *)
Definition isFatal (e : Event) : bool :=
  match e with
  | LogFatal _ => true
  | _ => false
  end.

(** A step that ends with status 1 has logged one fatal message, as
    the last thing it did; any other step has logged none. *)
Definition fatalLast {A : Type} (c : Proc A) : Prop :=
  match snd c with
  | Exit ExitFailure =>
      exists t msg,
        fst c = t ++ [LogFatal msg] /\ Forall (fun e => isFatal e = false) t
  | _ => Forall (fun e => isFatal e = false) (fst c)
  end.

(** The calls to the outside are a beginning of: the editor, the
    model client, the model, the clipboard. *)
Definition callsInOrder (editorCmd : string) (calls : list Event) : Prop :=
  exists apiKey modelName prompt text rest,
    [RunEditor editorCmd; NewClient apiKey; GenerateContent modelName prompt;
     WriteClipboard text]
    = calls ++ rest.

(** No command is run, and a model client is made with [apiKey]
    only. *)
Definition keyUse (apiKey : string) (e : Event) : bool :=
  match e with
  | RunCommand _ _ => false
  | NewClient key => String.eqb key apiKey
  | _ => true
  end.

(** The response carries a block reason or a blocked safety
    rating. *)
Definition blockedResponse (resp : ai.GenerateContentResponse) : bool :=
  match ai.PromptFeedback resp with
  | None => false
  | Some fb =>
      match ai.BlockReason fb with
      | Some _ => true
      | None => existsb ai.Blocked (ai.SafetyRatings fb)
      end
  end.

(** * Properties *)

(** ** Facts about the string functions *)

Section StringFacts.

Lemma isEmpty_true (s : string) : isEmpty s = true <-> s = EmptyString.
Proof. destruct s; simpl; split; congruence. Qed.

Lemma isEmpty_false (s : string) : isEmpty s = false <-> s <> EmptyString.
Proof. destruct s; simpl; split; congruence. Qed.

Lemma append_nil (b : string) : EmptyString +:+ b = b.
Proof. reflexivity. Qed.

Lemma append_cons (x : ascii) (a b : string) :
  String x a +:+ b = String x (a +:+ b).
Proof. reflexivity. Qed.

Lemma append_assoc (a b c : string) : (a +:+ b) +:+ c = a +:+ (b +:+ c).
Proof.
  induction a as [|x a IH]; [reflexivity|].
  rewrite !append_cons. now f_equal.
Qed.

Lemma append_empty_r (a : string) : a +:+ EmptyString = a.
Proof.
  induction a as [|x a IH]; [reflexivity|].
  rewrite append_cons. now f_equal.
Qed.

Lemma length_append (a b : string) :
  String.length (a +:+ b) = String.length a + String.length b.
Proof.
  induction a as [|x a IH]; [reflexivity|].
  rewrite append_cons. simpl. now f_equal.
Qed.

Lemma HasPrefix_empty (s : string) : HasPrefix s EmptyString = true.
Proof. now destruct s. Qed.

Lemma HasPrefix_append (p s : string) : HasPrefix (p +:+ s) p = true.
Proof.
  induction p as [|x p IH].
  - apply HasPrefix_empty.
  - rewrite append_cons. simpl. now rewrite Ascii.eqb_refl, IH.
Qed.

(** A string with prefix [p] is [p] followed by [s[len(p):]]. *)
Lemma HasPrefix_split (s p : string) :
  HasPrefix s p = true -> s = p +:+ sliceFrom (String.length p) s.
Proof.
  revert s; induction p as [|x p IH]; intros s Hp.
  - now destruct s.
  - destruct s as [|c s]; simpl in Hp; [discriminate|].
    apply andb_true_iff in Hp as [Hc Hp].
    apply Ascii.eqb_eq in Hc; subst c.
    rewrite append_cons. simpl. now rewrite <- (IH s Hp).
Qed.

Lemma HasPrefix_weaken (s p t : string) :
  HasPrefix s p = true -> HasPrefix (s +:+ t) p = true.
Proof.
  revert s; induction p as [|x p IH]; intros s Hp.
  - apply HasPrefix_empty.
  - destruct s as [|c s]; simpl in Hp; [discriminate|].
    apply andb_true_iff in Hp as [Hc Hp].
    rewrite append_cons. simpl. now rewrite Hc, IH.
Qed.

Lemma sliceFrom_length (n : nat) (s : string) :
  String.length (sliceFrom n s) = String.length s - n.
Proof.
  revert s; induction n as [|n IH]; intros [|c s]; simpl; auto with arith.
Qed.

Lemma sliceFrom_append (p s : string) : sliceFrom (String.length p) (p +:+ s) = s.
Proof.
  induction p as [|x p IH]; [now destruct s|].
  rewrite append_cons. exact IH.
Qed.

Lemma Contains_unfold (c : ascii) (s t : string) :
  Contains (String c s) t = HasPrefix (String c s) t || Contains s t.
Proof. reflexivity. Qed.

Lemma Contains_here (s t : string) : HasPrefix s t = true -> Contains s t = true.
Proof. intros Hp; destruct s; simpl in *; now rewrite Hp. Qed.

Lemma Contains_later (c : ascii) (s t : string) :
  Contains s t = true -> Contains (String c s) t = true.
Proof. intros Hs; rewrite Contains_unfold, Hs; apply orb_true_r. Qed.

Lemma Contains_append_r (a b t : string) :
  Contains b t = true -> Contains (a +:+ b) t = true.
Proof.
  induction a as [|x a IH]; intros Hb; [exact Hb|].
  rewrite append_cons. apply Contains_later, IH, Hb.
Qed.

Lemma Contains_append_l (a b t : string) :
  Contains a t = true -> Contains (a +:+ b) t = true.
Proof.
  induction a as [|x a IH]; intros Ha.
  - simpl in Ha; rewrite orb_false_r in Ha.
    destruct t; [|discriminate]. apply Contains_here, HasPrefix_empty.
  - rewrite Contains_unfold in Ha.
    apply orb_true_iff in Ha as [Hp|Hc].
    + apply Contains_here. now apply (HasPrefix_weaken (String x a)).
    + rewrite append_cons. apply Contains_later, IH, Hc.
Qed.

(** [Contains] is the substring relation. *)
Lemma Contains_split (s t : string) :
  Contains s t = true -> exists a b, s = a +:+ t +:+ b.
Proof.
  induction s as [|c s IH]; intros Hc.
  - simpl in Hc; rewrite orb_false_r in Hc. destruct t; [|discriminate].
    now exists EmptyString, EmptyString.
  - rewrite Contains_unfold in Hc.
    apply orb_true_iff in Hc as [Hp|Hc].
    + exists EmptyString, (sliceFrom (String.length t) (String c s)).
      now apply HasPrefix_split.
    + destruct (IH Hc) as (a & b & ->). now exists (String c a), b.
Qed.

Lemma Contains_middle (a t b : string) : Contains (a +:+ t +:+ b) t = true.
Proof. apply Contains_append_r, Contains_here, HasPrefix_append. Qed.

Lemma Contains_trans (s t u : string) :
  Contains s t = true -> Contains t u = true -> Contains s u = true.
Proof.
  intros Hst Htu. destruct (Contains_split _ _ Hst) as (a & b & ->).
  now apply Contains_append_r, Contains_append_l.
Qed.

End StringFacts.

(** ** [ReplaceAll]: its equations *)

Section ReplaceFacts.
Variables old new : string.

Lemma HasPrefix_nonempty (s : string) :
  old <> EmptyString -> HasPrefix s old = true -> 0 < String.length s.
Proof.
  destruct old; [congruence|]. destruct s; simpl; [discriminate|]. auto with arith.
Qed.

Lemma replaceScan_S (n : nat) (s : string) :
  replaceScan (S n) s old new =
  if HasPrefix s old
  then new +:+ replaceScan n (sliceFrom (String.length old) s) old new
  else match s with
       | EmptyString => EmptyString
       | String c s' => String c (replaceScan n s' old new)
       end.
Proof. reflexivity. Qed.

(** Any fuel that covers the string gives the same scan. *)
Lemma replaceScan_fuel (n m : nat) (s : string) :
  old <> EmptyString ->
  String.length s <= n -> String.length s <= m ->
  replaceScan n s old new = replaceScan m s old new.
Proof.
  intros Hold. revert m s.
  induction n as [|n IH]; intros m s Hn Hm.
  - destruct s; [|simpl in Hn; lia].
    destruct m; simpl; [reflexivity|].
    destruct old; [congruence | reflexivity].
  - destruct m as [|m].
    + destruct s; [|simpl in Hm; lia].
      simpl. destruct old; [congruence | reflexivity].
    + rewrite !replaceScan_S. destruct (HasPrefix s old) eqn:Hp.
      * f_equal. pose proof (HasPrefix_nonempty s Hold Hp) as Hpos.
        assert (0 < String.length old) by (destruct old; simpl; [congruence|lia]).
        apply IH; rewrite sliceFrom_length; lia.
      * destruct s as [|c s]; [reflexivity|].
        f_equal. apply IH; simpl in *; lia.
Qed.

Lemma ReplaceAll_scan (s : string) :
  old <> EmptyString -> old <> new ->
  ReplaceAll s old new = replaceScan (String.length s) s old new.
Proof.
  intros Hold Hne. unfold ReplaceAll.
  destruct (String.eqb_spec old new); [congruence|].
  destruct old; [congruence | reflexivity].
Qed.

Lemma ReplaceAll_same (s : string) : old = new -> ReplaceAll s old new = s.
Proof. intros ->. unfold ReplaceAll. now rewrite String.eqb_refl. Qed.

Lemma ReplaceAll_empty : ReplaceAll EmptyString old new = EmptyString.
Proof.
  unfold ReplaceAll. destruct (String.eqb old new); [reflexivity|].
  now destruct old.
Qed.

(** At an occurrence of [old]: write [new], go on after it. *)
Lemma ReplaceAll_match (s : string) :
  old <> EmptyString ->
  ReplaceAll (old +:+ s) old new = new +:+ ReplaceAll s old new.
Proof.
  intros Hold.
  destruct (String.eqb_spec old new) as [Heq|Hne].
  - rewrite !ReplaceAll_same by exact Heq. now rewrite Heq.
  - rewrite !ReplaceAll_scan by assumption.
    assert (Hlen : exists k, String.length (old +:+ s) = S k /\ String.length s <= k).
    { rewrite length_append. destruct old; [congruence|].
      simpl. eexists; split; [reflexivity | lia]. }
    destruct Hlen as (k & -> & Hk).
    rewrite replaceScan_S, HasPrefix_append, sliceFrom_append.
    f_equal. apply replaceScan_fuel; [exact Hold | lia | lia].
Qed.

(** Elsewhere: copy one byte. *)
Lemma ReplaceAll_skip (c : ascii) (s : string) :
  HasPrefix (String c s) old = false ->
  ReplaceAll (String c s) old new = String c (ReplaceAll s old new).
Proof.
  intros Hp.
  destruct (String.eqb_spec old new) as [Heq|Hne].
  - now rewrite !ReplaceAll_same by exact Heq.
  - assert (Hold : old <> EmptyString) by (intros ->; discriminate).
    rewrite !ReplaceAll_scan by assumption.
    change (String.length (String c s)) with (S (String.length s)).
    now rewrite replaceScan_S, Hp.
Qed.

(** Without an occurrence nothing changes. *)
Lemma ReplaceAll_absent (s : string) :
  Contains s old = false -> ReplaceAll s old new = s.
Proof.
  induction s as [|c s IH]; intros Hc; [apply ReplaceAll_empty|].
  rewrite Contains_unfold in Hc. apply orb_false_iff in Hc as [Hp Hc].
  rewrite (ReplaceAll_skip _ _ Hp). now rewrite IH.
Qed.

(** Induction along the scan. *)
Lemma replace_ind (P : string -> Prop) :
  old <> EmptyString ->
  P EmptyString ->
  (forall s, P s -> P (old +:+ s)) ->
  (forall c s, HasPrefix (String c s) old = false -> P s -> P (String c s)) ->
  forall s, P s.
Proof.
  intros Hold Hnil Hmatch Hskip s.
  remember (String.length s) as n eqn:Hn.
  revert s Hn. induction n as [n IH] using lt_wf_ind. intros s Hn.
  destruct s as [|c s]; [exact Hnil|].
  destruct (HasPrefix (String c s) old) eqn:Hp.
  - rewrite (HasPrefix_split _ _ Hp). apply Hmatch.
    apply (IH (String.length (sliceFrom (String.length old) (String c s)))); [|reflexivity].
    rewrite sliceFrom_length. subst n.
    assert (0 < String.length old) by (destruct old; simpl; [congruence|lia]).
    simpl; lia.
  - apply Hskip; [exact Hp|]. apply (IH (String.length s)); [|reflexivity].
    subst n; simpl; lia.
Qed.

End ReplaceFacts.

(** ** Tokens in braces *)

Section TokenFacts.

Lemma HasPrefix_cons (c : ascii) (s : string) (x : ascii) (w : string) :
  HasPrefix (String c s) (String x w) = Ascii.eqb c x && HasPrefix s w.
Proof. reflexivity. Qed.

Lemma lacks_cons (c x : ascii) (s : string) :
  lacks c (String x s) = true -> x <> c /\ lacks c s = true.
Proof.
  simpl. intros Hl. apply andb_true_iff in Hl as [Hx Hs].
  split; [|exact Hs]. intros ->. now rewrite Ascii.eqb_refl in Hx.
Qed.

(** Past a prefix without the first byte of the token nothing is found
    that is not found after it. *)
Lemma Contains_past_plain (o : ascii) (w a y : string) :
  lacks o a = true ->
  Contains (a +:+ y) (String o w) = Contains y (String o w).
Proof.
  induction a as [|x a IH]; intros Hl; [reflexivity|].
  apply lacks_cons in Hl as [Hx Hl].
  rewrite append_cons, Contains_unfold, (IH Hl).
  simpl HasPrefix. apply Ascii.eqb_neq in Hx. now rewrite Hx.
Qed.

(** [w] does not reach past a byte it lacks. *)
Lemma HasPrefix_before_marker (o : ascii) (w a y : string) :
  lacks o w = true ->
  HasPrefix (a +:+ String o y) w = true -> HasPrefix a w = true.
Proof.
  revert a; induction w as [|x w IH]; intros a Hl Hp; [apply HasPrefix_empty|].
  apply lacks_cons in Hl as [Hx Hl].
  destruct a as [|d a].
  - rewrite append_nil in Hp. simpl in Hp.
    apply andb_true_iff in Hp as [Hc _]. apply Ascii.eqb_eq in Hc. congruence.
  - rewrite append_cons in Hp. simpl in Hp |- *.
    apply andb_true_iff in Hp as [Hc Hp]. rewrite Hc. simpl. now apply IH.
Qed.

(** Two prefixes of one string are comparable. *)
Lemma HasPrefix_comparable (a y w : string) :
  HasPrefix (a +:+ y) w = true ->
  HasPrefix w a = true \/ HasPrefix a w = true.
Proof.
  revert w; induction a as [|c a IH]; intros w Hp.
  - left. apply HasPrefix_empty.
  - destruct w as [|x w]; [right; reflexivity|].
    rewrite append_cons in Hp. simpl in Hp.
    apply andb_true_iff in Hp as [Hc Hp]. apply Ascii.eqb_eq in Hc. subst x.
    simpl. rewrite Ascii.eqb_refl. simpl. now apply IH.
Qed.

Lemma HasPrefix_closing_l (e : ascii) (u new : string) :
  lacks e new = true ->
  HasPrefix (u +:+ String e EmptyString) new = true -> HasPrefix u new = true.
Proof.
  revert new; induction u as [|x u IH]; intros new Hl Hp.
  - destruct new as [|c new]; [reflexivity|].
    apply lacks_cons in Hl as [Hc _].
    rewrite append_nil in Hp. simpl in Hp.
    apply andb_true_iff in Hp as [Hx _]. apply Ascii.eqb_eq in Hx. congruence.
  - destruct new as [|c new]; [reflexivity|].
    apply lacks_cons in Hl as [_ Hl].
    rewrite append_cons in Hp. simpl in Hp |- *.
    apply andb_true_iff in Hp as [Hx Hp]. rewrite Hx. simpl. now apply IH.
Qed.

Lemma HasPrefix_closing_r (e : ascii) (u new : string) :
  HasPrefix new (u +:+ String e EmptyString) = true -> lacks e new = false.
Proof.
  revert new; induction u as [|x u IH]; intros new Hp.
  - rewrite append_nil in Hp. destruct new as [|c new]; [discriminate|].
    simpl in Hp |- *. apply andb_true_iff in Hp as [Hx _]. now rewrite Hx.
  - rewrite append_cons in Hp. destruct new as [|c new]; [discriminate|].
    simpl in Hp |- *. apply andb_true_iff in Hp as [_ Hp].
    rewrite (IH _ Hp). apply andb_false_r.
Qed.

Lemma apart_cons (new : string) (x : ascii) (w : string) :
  apart new (String x w) =
  negb (HasPrefix (String x w) new) && negb (HasPrefix new (String x w))
  && apart new w.
Proof. reflexivity. Qed.

(** A replacement without the closing byte that is no fragment of
    the body is apart from the body and its closing byte. *)
Lemma apart_body (e : ascii) (u new : string) :
  lacks e new = true -> Contains u new = false ->
  apart new (u +:+ String e EmptyString) = true.
Proof.
  intros Hl. induction u as [|x u IH]; intros Hc.
  - assert (Hnew : new <> EmptyString) by (intros ->; discriminate).
    rewrite append_nil, apart_cons. simpl apart.
    rewrite !andb_true_r. apply andb_true_iff; split; apply negb_true_iff.
    + destruct new as [|c new]; [congruence|].
      apply lacks_cons in Hl as [Hx _]. simpl.
      destruct (Ascii.eqb_spec e c); [congruence | reflexivity].
    + destruct (HasPrefix new (String e EmptyString)) eqn:Hp; [|reflexivity].
      apply (HasPrefix_closing_r e EmptyString) in Hp. congruence.
  - rewrite Contains_unfold in Hc. apply orb_false_iff in Hc as [Hp Hc].
    rewrite append_cons, apart_cons, (IH Hc), andb_true_r.
    apply andb_true_iff; split; apply negb_true_iff.
    + destruct (HasPrefix (String x (u +:+ String e EmptyString)) new) eqn:Hq;
        [|reflexivity].
      apply (HasPrefix_closing_l e (String x u)) in Hq; congruence.
    + destruct (HasPrefix new (String x (u +:+ String e EmptyString))) eqn:Hq;
        [|reflexivity].
      apply (HasPrefix_closing_r e (String x u)) in Hq. congruence.
Qed.

Section Scan.
Variables old new : string.
Hypothesis Hold : old <> EmptyString.

Lemma replace_cases (s : string) :
  s = EmptyString \/ (exists s', s = old +:+ s') \/
  (exists c s', s = String c s' /\ HasPrefix s old = false).
Proof.
  destruct s as [|c s]; [now left|]. right.
  destruct (HasPrefix (String c s) old) eqn:Hp.
  - left. eexists. now apply HasPrefix_split.
  - right. now exists c, s.
Qed.

(** What the result starts with, the input started with, as long
    as the replacement is apart from it. *)
Lemma HasPrefix_reflect (w : string) :
  apart new w = true ->
  forall s, HasPrefix (ReplaceAll s old new) w = true -> HasPrefix s w = true.
Proof.
  induction w as [|x w IH]; intros Ha s Hp; [apply HasPrefix_empty|].
  rewrite apart_cons in Ha. apply andb_true_iff in Ha as [Ha Hw].
  apply andb_true_iff in Ha as [Ha1 Ha2].
  apply negb_true_iff in Ha1, Ha2.
  destruct (replace_cases s) as [->|[(s' & ->)|(c & s' & -> & Hs)]].
  - now rewrite ReplaceAll_empty in Hp.
  - rewrite ReplaceAll_match in Hp by exact Hold.
    apply HasPrefix_comparable in Hp as [Hp|Hp]; congruence.
  - rewrite ReplaceAll_skip in Hp by exact Hs.
    simpl in Hp |- *. apply andb_true_iff in Hp as [Hc Hp].
    rewrite Hc. simpl. now apply IH.
Qed.
End Scan.

(** After replacing a token in braces by a text without the braces
    that is no fragment of the token's body, no token is left. *)
Lemma ReplaceAll_clears (o e : ascii) (body new s : string) :
  lacks o new = true -> lacks e new = true -> Contains body new = false ->
  let old := String o (body +:+ String e EmptyString) in
  Contains (ReplaceAll s old new) old = false.
Proof.
  intros Ho He Hb. cbv zeta.
  assert (Hold : String o (body +:+ String e EmptyString) <> EmptyString)
    by discriminate.
  pattern s. apply (replace_ind _ _ Hold); clear s.
  - now rewrite ReplaceAll_empty.
  - intros s IH.
    rewrite ReplaceAll_match by exact Hold.
    rewrite Contains_past_plain by exact Ho. exact IH.
  - intros c s Hs IH.
    rewrite ReplaceAll_skip by exact Hs.
    rewrite Contains_unfold, IH, orb_false_r.
    rewrite HasPrefix_cons in Hs |- *.
    destruct (Ascii.eqb c o); [|reflexivity]. simpl in Hs |- *.
    destruct (HasPrefix (ReplaceAll s _ new) _) eqn:Hp; [|reflexivity].
    apply HasPrefix_reflect in Hp; [|exact Hold | now apply apart_body].
    congruence.
Qed.

(** The leftmost occurrence of a token whose first byte occurs in it
    only once. *)
Lemma ReplaceAll_leftmost (o : ascii) (w new a b : string) :
  lacks o w = true ->
  let old := String o w in
  Contains a old = false ->
  ReplaceAll (a +:+ old +:+ b) old new = a +:+ new +:+ ReplaceAll b old new.
Proof.
  intros Hl. cbv zeta.
  assert (Hold : String o w <> EmptyString) by discriminate.
  induction a as [|c a IH]; intros Hc.
  - rewrite !append_nil. now apply ReplaceAll_match.
  - rewrite Contains_unfold in Hc. apply orb_false_iff in Hc as [Hp Hc].
    rewrite !(append_cons c a). rewrite ReplaceAll_skip; [now rewrite IH|].
    rewrite HasPrefix_cons in Hp |- *.
    destruct (Ascii.eqb c o); [|reflexivity]. simpl in Hp |- *.
    destruct (HasPrefix (a +:+ _) w) eqn:Hq; [|reflexivity].
    rewrite append_cons in Hq.
    apply HasPrefix_before_marker in Hq; [|exact Hl]. congruence.
Qed.

(** Another token survives when neither token can begin inside the
    other. *)
Lemma ReplaceAll_keeps (old tok new : string) :
  old <> EmptyString ->
  (forall s, Contains (old +:+ s) tok = true -> Contains s tok = true) ->
  (forall s, ReplaceAll (tok +:+ s) old new = tok +:+ ReplaceAll s old new) ->
  forall s, Contains s tok = true -> Contains (ReplaceAll s old new) tok = true.
Proof.
  intros Hold Hin Hcopy s.
  pattern s. apply (replace_ind old); [exact Hold | | |]; clear s.
  - now rewrite ReplaceAll_empty.
  - intros s IH Hc.
    rewrite ReplaceAll_match by exact Hold. apply Contains_append_r, IH, Hin, Hc.
  - intros c s Hs IH Hc. rewrite Contains_unfold in Hc. apply orb_true_iff in Hc as [Hp|Hc].
    + rewrite (HasPrefix_split _ _ Hp), Hcopy.
      apply Contains_here, HasPrefix_append.
    + rewrite ReplaceAll_skip by exact Hs. apply Contains_later, IH, Hc.
Qed.

Lemma joinWith_cons (sep piece next : string) (rest : list string) :
  joinWith sep (piece :: next :: rest)
  = piece +:+ sep +:+ joinWith sep (next :: rest).
Proof. reflexivity. Qed.

(** Replacing a token puts the new text between the pieces the
    token stood between, and leaves the pieces as they are. *)
Lemma ReplaceAll_joinWith (o : ascii) (w new : string) (pieces : list string) :
  lacks o w = true ->
  Forall (fun piece => Contains piece (String o w) = false) pieces ->
  ReplaceAll (joinWith (String o w) pieces) (String o w) new = joinWith new pieces.
Proof.
  intros Hl. induction pieces as [|piece [|next rest] IH]; intros Hfree.
  - apply ReplaceAll_empty.
  - apply Forall_cons_1 in Hfree as [Hp _]. now apply ReplaceAll_absent.
  - apply Forall_cons_1 in Hfree as [Hp Hfree].
    rewrite !joinWith_cons.
    rewrite (ReplaceAll_leftmost o w new piece _ Hl Hp). now rewrite (IH Hfree).
Qed.

(** Every text is cut by a token into pieces without the token. *)
Lemma joinWith_pieces (old s : string) :
  old <> EmptyString ->
  exists piece rest,
    Forall (fun piece => Contains piece old = false) (piece :: rest) /\
    s = joinWith old (piece :: rest).
Proof.
  intros Hold.
  assert (Hnil : Contains EmptyString old = false) by (destruct old; [congruence|reflexivity]).
  pattern s. apply (replace_ind old); [exact Hold | | |]; clear s.
  - exists EmptyString, []. split; [|reflexivity]. now repeat constructor.
  - intros s (piece & rest & Hfree & ->).
    exists EmptyString, (piece :: rest). split; [|reflexivity].
    now apply Forall_cons_2.
  - intros c s Hs (piece & rest & Hfree & Heq).
    apply Forall_cons_1 in Hfree as [Hp Hfree].
    exists (String c piece), rest. split.
    + apply Forall_cons_2; [|exact Hfree].
      rewrite Contains_unfold, Hp, orb_false_r.
      destruct (HasPrefix (String c piece) old) eqn:Hq; [|reflexivity].
      rewrite Heq in Hs.
      destruct rest as [|next rest];
        [change (joinWith old [piece]) with piece in Hs; congruence|].
      rewrite joinWith_cons, <- append_cons in Hs.
      now rewrite (HasPrefix_weaken _ _ _ Hq) in Hs.
    + rewrite Heq. now destruct rest.
Qed.

End TokenFacts.

(** ** Configuration resolution *)

Section Resolution.
Variables (cfgFile : string) (verbose : bool) (src : ConfigSource).

(** The resolved configuration depends on the decoded value only. *)
Lemma initConfig_resolved :
  snd (initConfig cfgFile verbose src)
  = snd (applyDefaults verbose (fst (Unmarshal src))).
Proof.
  unfold initConfig, loadConfig.
  now destruct (applyDefaults verbose (fst (Unmarshal src))).
Qed.

Lemma orDefault_nonempty (s d : string) :
  d <> EmptyString -> (if isEmpty s then d else s) <> EmptyString.
Proof. destruct s; simpl; [auto | discriminate]. Qed.

Lemma staleFixPrompt_nonempty (s d : string) :
  d <> EmptyString -> (if staleFixPrompt s then d else s) <> EmptyString.
Proof.
  intros Hd. destruct s as [|c s]; [exact Hd|].
  destruct (staleFixPrompt (String c s)); [exact Hd | discriminate].
Qed.

Lemma staleFixPrompt_mood (s d : string) :
  Contains d "{MOOD_INSTRUCTION}" = true ->
  Contains (if staleFixPrompt s then d else s) "{MOOD_INSTRUCTION}" = true.
Proof.
  intros Hd. unfold staleFixPrompt.
  destruct (isEmpty s); [exact Hd|]. simpl.
  destruct (Contains s "{MOOD_INSTRUCTION}") eqn:Hs; [exact Hs | exact Hd].
Qed.

Lemma builtin_nonempty (task : TaskKey) :
  templateFor task defaultPromptsConfig <> EmptyString.
Proof. destruct task; intros Hnil; vm_compute in Hnil; discriminate. Qed.

Lemma builtin_text (task : TaskKey) :
  Contains (templateFor task defaultPromptsConfig) "{TEXT}" = true.
Proof. destruct task; vm_compute; reflexivity. Qed.

Lemma builtin_mood :
  Contains (Default defaultPromptsConfig) "{MOOD_INSTRUCTION}" = true /\
  Contains (EnglishFixOnly defaultPromptsConfig) "{MOOD_INSTRUCTION}" = true.
Proof. split; vm_compute; reflexivity. Qed.

Lemma getDefaultMoods_size : size getDefaultMoods = 7.
Proof. vm_compute. reflexivity. Qed.

Lemma moods_nonempty (m : gmap string MoodInstruction) :
  (if bool_decide (size m = 0) then getDefaultMoods else m) <> ∅.
Proof.
  case_bool_decide as Hm.
  - intros Hnil. pose proof getDefaultMoods_size as Hs.
    rewrite Hnil, map_size_empty in Hs. discriminate.
  - intros ->. apply Hm, map_size_empty.
Qed.

(** C1. Whatever the configuration file holds (it may be missing,
    empty or unreadable) and whatever the environment adds, the
    configuration [initConfig] leaves behind has a non-empty default
    language, editor, model name and default mood, four non-empty
    prompt templates and a non-empty mood table. *)
Theorem initConfig_populated :
  let AppConfig := snd (initConfig cfgFile verbose src) in
  DefaultLanguage AppConfig <> EmptyString /\
  Editor AppConfig <> EmptyString /\
  GeminiModel AppConfig <> EmptyString /\
  DefaultMood AppConfig <> EmptyString /\
  Default (Prompts AppConfig) <> EmptyString /\
  EnglishFixOnly (Prompts AppConfig) <> EmptyString /\
  ExplainText (Prompts AppConfig) <> EmptyString /\
  AnswerQuestion (Prompts AppConfig) <> EmptyString /\
  Moods AppConfig <> ∅.
Proof.
  cbv zeta. rewrite initConfig_resolved.
  unfold applyDefaults; cbn [snd DefaultLanguage Editor GeminiModel DefaultMood
    Prompts Default EnglishFixOnly ExplainText AnswerQuestion Moods].
  repeat split;
    try (apply orDefault_nonempty; first [discriminate | apply (builtin_nonempty explain_text) | apply (builtin_nonempty answer_question)]).
  - apply staleFixPrompt_nonempty, (builtin_nonempty default_).
  - apply staleFixPrompt_nonempty, (builtin_nonempty english_fix_only).
  - apply moods_nonempty.
Qed.

(** C3, as the code has it.  The default and english_fix_only
    templates of the resolved configuration contain
    [{MOOD_INSTRUCTION}].  [{TEXT}] is not checked for: the template of
    a task contains it exactly when the loaded template did or was
    replaced by the built-in one. *)
Theorem resolved_template_placeholders (task : TaskKey) :
  let loaded := Prompts (fst (Unmarshal src)) in
  let resolved := Prompts (snd (initConfig cfgFile verbose src)) in
  Contains (Default resolved) "{MOOD_INSTRUCTION}" = true /\
  Contains (EnglishFixOnly resolved) "{MOOD_INSTRUCTION}" = true /\
  Contains (templateFor task resolved) "{TEXT}"
  = Contains (templateFor task loaded) "{TEXT}" || replacedByBuiltin task loaded.
Proof.
  cbv zeta. rewrite initConfig_resolved.
  unfold applyDefaults; cbn [snd Prompts Default EnglishFixOnly].
  split; [apply staleFixPrompt_mood, builtin_mood|].
  split; [apply staleFixPrompt_mood, builtin_mood|].
  destruct task; unfold replacedByBuiltin;
    cbn [templateFor Default EnglishFixOnly ExplainText AnswerQuestion].
  - destruct (staleFixPrompt _);
      [rewrite orb_true_r; apply (builtin_text default_) | now rewrite orb_false_r].
  - destruct (staleFixPrompt _);
      [rewrite orb_true_r; apply (builtin_text english_fix_only) | now rewrite orb_false_r].
  - destruct (isEmpty _);
      [rewrite orb_true_r; apply (builtin_text explain_text) | now rewrite orb_false_r].
  - destruct (isEmpty _);
      [rewrite orb_true_r; apply (builtin_text answer_question) | now rewrite orb_false_r].
Qed.

End Resolution.

(** C3 as stated fails: a configuration file with a [default] prompt
    of the user's own that has the mood placeholder but no [{TEXT}] is
    kept as it is. *)
Lemma own_default_prompt_lacks_text :
  let resolved :=
    Prompts (snd (initConfig EmptyString false (Samples.sourceOf Samples.ownDefaultPrompt))) in
  Default resolved = "Proofread what follows. {MOOD_INSTRUCTION}" /\
  Contains (templateFor default_ resolved) "{TEXT}" = false.
Proof. vm_compute. split; reflexivity. Qed.

(** ** Steps of a command *)

Section ProcFacts.
Context {A B : Type}.

Lemma bind_Next (c : Proc A) (k : A -> Proc B) (t : list Event) (a : A) :
  c = (t, Next a) -> bind c k = (t ++ fst (k a), snd (k a)).
Proof. intros ->. simpl. now destruct (k a). Qed.

Lemma bind_Exit (c : Proc A) (k : A -> Proc B) (t : list Event) (code : ExitCode) :
  c = (t, Exit code) -> bind c k = (t, Exit code).
Proof. now intros ->. Qed.

Lemma bind_ret (a : A) (k : A -> Proc B) : bind (ret a) k = k a.
Proof. unfold ret. simpl. now destruct (k a). Qed.

Lemma bind_emit (e : Event) (k : unit -> Proc B) :
  bind (emit e) k = (e :: fst (k tt), snd (k tt)).
Proof. unfold emit. simpl. now destruct (k tt). Qed.
End ProcFacts.

(** ** Mood resolution *)

Section Moods.
Variables (AppConfig : Config) (Changed : string -> bool).

Lemma fixResolveMood_found (v : FixVars) (mood : MoodInstruction) :
  let key := if Changed "mood" then moodKey v else DefaultMood AppConfig in
  Moods AppConfig !! key = Some mood ->
  fixResolveMood AppConfig Changed v = ([], Next (key, Instruction mood)).
Proof. cbv zeta. unfold fixResolveMood. now intros ->. Qed.

Lemma answerResolveMood_found (v : AnswerVars) (mood : MoodInstruction) :
  let key := if Changed "mood" then answerMoodKey v else DefaultMood AppConfig in
  Moods AppConfig !! key = Some mood ->
  answerResolveMood AppConfig Changed v = ([], Next (key, Instruction mood)).
Proof. cbv zeta. unfold answerResolveMood. now intros ->. Qed.

(** The guard of the first warning. *)
Lemma specific_key (key : string) :
  key <> EmptyString -> Moods AppConfig !! key = None ->
  is_Some (Moods AppConfig !! DefaultMood AppConfig) ->
  negb (isEmpty key) && negb (String.eqb key (DefaultMood AppConfig)) = true.
Proof.
  intros Hkey Hnone [m Hm].
  apply isEmpty_false in Hkey. rewrite Hkey. simpl.
  destruct (String.eqb_spec key (DefaultMood AppConfig)) as [->|]; [congruence|reflexivity].
Qed.

(** C4, as the code has it.  A mood key given with [--mood] that is
    not empty and not in the mood table, with a default mood that is in
    the table: both commands print one warning and use the default
    mood's instruction, the very text that asking for the default mood
    by name gives without a warning.  When the selected key and the
    default mood are both missing from the table, the last thing printed
    is a warning and the instruction is empty. *)
Theorem unknown_mood_falls_back (k : string) (vf : FixVars) (va : AnswerVars) :
  Moods AppConfig !! k = None ->
  (if Changed "mood" then moodKey vf else DefaultMood AppConfig) = k ->
  (if Changed "mood" then answerMoodKey va else DefaultMood AppConfig) = k ->
  (forall m : MoodInstruction,
      k <> EmptyString ->
      Moods AppConfig !! DefaultMood AppConfig = Some m ->
      (exists warning,
          HasPrefix warning "Warning: Mood key '" = true /\
          fixResolveMood AppConfig Changed vf
          = ([Stdout warning], Next (k, Instruction m))) /\
      (exists warning,
          HasPrefix warning "Warning: Mood key '" = true /\
          answerResolveMood AppConfig Changed va
          = ([Stdout warning], Next (DefaultMood AppConfig, Instruction m))) /\
      (forall vf' : FixVars,
          moodKey vf' = DefaultMood AppConfig ->
          fixResolveMood AppConfig Changed vf'
          = ([], Next (DefaultMood AppConfig, Instruction m))) /\
      (forall va' : AnswerVars,
          answerMoodKey va' = DefaultMood AppConfig ->
          answerResolveMood AppConfig Changed va'
          = ([], Next (DefaultMood AppConfig, Instruction m)))) /\
  (Moods AppConfig !! DefaultMood AppConfig = None ->
   (exists t warning,
       HasPrefix warning "Warning: Default mood '" = true /\
       fixResolveMood AppConfig Changed vf
       = (t ++ [Stdout warning], Next (k, EmptyString))) /\
   (exists t warning,
       HasPrefix warning "Warning: Default mood '" = true /\
       answerResolveMood AppConfig Changed va
       = (t ++ [Stdout warning], Next (k, EmptyString)))).
Proof.
  intros Hk Hf Ha. split.
  - intros m Hne Hm.
    assert (Hguard := specific_key k Hne Hk (ex_intro _ m Hm)).
    repeat split.
    + eexists. split; [|unfold fixResolveMood; rewrite Hf, Hk, Hguard, Hm; reflexivity].
      apply HasPrefix_append.
    + eexists. split; [|unfold answerResolveMood; rewrite Ha, Hk, Hguard, Hm; reflexivity].
      apply HasPrefix_append.
    + intros vf' Hvf'.
      rewrite (fixResolveMood_found vf' m); rewrite Hvf'; destruct (Changed "mood");
        first [reflexivity | exact Hm].
    + intros va' Hva'.
      rewrite (answerResolveMood_found va' m); rewrite Hva'; destruct (Changed "mood");
        first [reflexivity | exact Hm].
  - intros Hd. split.
    + unfold fixResolveMood. rewrite Hf, Hk, Hd.
      destruct (negb (isEmpty k) && negb (String.eqb k (DefaultMood AppConfig))).
      * eexists [_], _. split; [|reflexivity]. apply HasPrefix_append.
      * eexists [], _. split; [|reflexivity]. apply HasPrefix_append.
    + unfold answerResolveMood. rewrite Ha, Hk, Hd.
      destruct (negb (isEmpty k) && negb (String.eqb k (DefaultMood AppConfig))).
      * eexists [_], _. split; [|reflexivity]. apply HasPrefix_append.
      * eexists [], _. split; [|reflexivity]. apply HasPrefix_append.
Qed.

(** C9. A mood key given with [--mood] that is not in the mood
    table, with a default mood that is: [answer] goes on with the
    default mood's key, [fix] with the key that was asked for.  So with
    the default mood [neutral] and an empty instruction [answer] still
    puts the fallback sentence into its prompt, and [fix] the empty
    string unless the key asked for exists. *)
Theorem fallback_mood_key (k : string) (vf : FixVars) (va : AnswerVars)
    (m : MoodInstruction) :
  Changed "mood" = true -> moodKey vf = k -> answerMoodKey va = k ->
  Moods AppConfig !! k = None ->
  Moods AppConfig !! DefaultMood AppConfig = Some m ->
  snd (answerResolveMood AppConfig Changed va)
  = Next (DefaultMood AppConfig, Instruction m) /\
  snd (fixResolveMood AppConfig Changed vf) = Next (k, Instruction m) /\
  (DefaultMood AppConfig = "neutral" -> Instruction m = EmptyString ->
   AnswerQuestion (Prompts AppConfig) <> EmptyString ->
   exists t a,
     answerAssemble AppConfig Changed va = (t, Next a) /\
     selectedMoodKey a = "neutral" /\
     promptWithMood a
     = ReplaceAll (AnswerQuestion (Prompts AppConfig)) "{MOOD_INSTRUCTION}"
         neutralFallback).
Proof.
  intros Hc Hf Ha Hk Hm.
  assert (Hans : exists t, answerResolveMood AppConfig Changed va
                           = (t, Next (DefaultMood AppConfig, Instruction m))).
  { unfold answerResolveMood. rewrite Hc, Ha, Hk, Hm.
    destruct (negb (isEmpty k) && negb (String.eqb k (DefaultMood AppConfig)));
      eexists; reflexivity. }
  assert (Hfix : exists t, fixResolveMood AppConfig Changed vf
                           = (t, Next (k, Instruction m))).
  { unfold fixResolveMood. rewrite Hc, Hf, Hk, Hm.
    destruct (negb (isEmpty k) && negb (String.eqb k (DefaultMood AppConfig)));
      eexists; reflexivity. }
  destruct Hans as [ta Hans], Hfix as [tf Hfix].
  split; [now rewrite Hans|]. split; [now rewrite Hfix|].
  intros Hd Hi Htpl.
  unfold answerAssemble. rewrite (bind_Next _ _ _ _ Hans).
  cbn [fst snd]. unfold requireAnswerTemplate.
  apply isEmpty_false in Htpl. rewrite Htpl, bind_ret.
  eexists _, _. split; [reflexivity|]. cbn [selectedMoodKey promptWithMood fst snd].
  split; [exact Hd|]. unfold answerNeutralDefault. now rewrite Hi, Hd.
Qed.

End Moods.

(** ** Template selection and the [--english] flag *)

Section Templates.
Context `{Unicode}.
Variables (AppConfig : Config) (Changed : string -> bool).

(** C5. Template selection of [fix].  With a [--prompt] key, the
    keys [default] and [english_fix_only] (in any case) select their
    template; any other key selects the default template, with a
    warning, and the language stays as resolved.  Without a key the
    english_fix_only template is selected exactly when the resolved
    language folds to [English] and that template is not empty, and the
    default template otherwise. *)
Theorem fix_template_selection (v : FixVars) :
  let targetLanguage :=
    if negb (isEmpty (language v)) then language v else DefaultLanguage AppConfig in
  (promptKey v <> EmptyString ->
   (ToLower (promptKey v) = "default" ->
    fixChooseTemplate AppConfig v
    = ([], Next (Default (Prompts AppConfig), targetLanguage))) /\
   (ToLower (promptKey v) = "english_fix_only" ->
    fixChooseTemplate AppConfig v
    = ([], Next (EnglishFixOnly (Prompts AppConfig), "English"))) /\
   (ToLower (promptKey v) <> "default" ->
    ToLower (promptKey v) <> "english_fix_only" ->
    exists warning,
      HasPrefix warning "Warning: Unknown prompt key '" = true /\
      fixChooseTemplate AppConfig v
      = ([Stdout warning], Next (Default (Prompts AppConfig), targetLanguage)))) /\
  (promptKey v = EmptyString ->
   fixChooseTemplate AppConfig v
   = ([], Next (if EqualFold targetLanguage "English"
                   && negb (isEmpty (EnglishFixOnly (Prompts AppConfig)))
                then EnglishFixOnly (Prompts AppConfig)
                else Default (Prompts AppConfig),
                targetLanguage))).
Proof.
  cbv zeta. split.
  - intros Hkey. apply isEmpty_false in Hkey.
    unfold fixChooseTemplate. rewrite Hkey. cbn [negb].
    repeat split.
    + now intros ->.
    + now intros ->.
    + intros Hd He.
      apply String.eqb_neq in Hd, He. rewrite Hd, He.
      eexists. split; [|reflexivity]. apply HasPrefix_append.
  - intros Hkey. unfold fixChooseTemplate. rewrite Hkey. cbn [isEmpty negb].
    now destruct (EqualFold _ "English" && _).
Qed.

(** [--english] with no [--language], or one that folds to
    [English]. *)
Lemma english_flag_accepted (v : FixVars) :
  englishShorthand v = true ->
  language v = EmptyString \/ EqualFold (language v) "English" = true ->
  fixPersistentPreRunE Changed v
  = Ok {| language := "English";
          promptKey := if negb (Changed "prompt") then "english_fix_only"
                       else promptKey v;
          englishShorthand := englishShorthand v;
          moodKey := moodKey v |}.
Proof.
  intros He Hl. unfold fixPersistentPreRunE. rewrite He.
  destruct Hl as [->| ->]; [reflexivity|]. now rewrite andb_false_r.
Qed.

Lemma english_flag_rejected (v : FixVars) :
  englishShorthand v = true -> language v <> EmptyString ->
  EqualFold (language v) "English" = false ->
  fixPersistentPreRunE Changed v
  = Err "--english flag is incompatible with --language specifying a different language than English".
Proof.
  intros He Hl Hf. unfold fixPersistentPreRunE.
  apply isEmpty_false in Hl. now rewrite He, Hl, Hf.
Qed.

Lemma German_is_not_English : EqualFold "German" "English" = false.
Proof. reflexivity. Qed.

Lemma english_fix_only_key : ToLower "english_fix_only" = "english_fix_only".
Proof. reflexivity. Qed.

End Templates.

Section Initialisation.
Variables (cfgFile : string) (verbose : bool) (src : ConfigSource).

Lemma printVerbose_internal (text : string) :
  Forall (fun e => externalCall e = false) (printVerbose verbose text).
Proof. unfold printVerbose. destruct verbose; repeat constructor. Qed.

Ltac internal :=
  repeat first
    [ apply Forall_nil_2
    | apply Forall_cons_2; [reflexivity|]
    | apply Forall_app_2
    | apply printVerbose_internal
    | match goal with
      | |- Forall _ (if ?b then _ else _) => destruct b
      end ].

Lemma createDefaultConfig_internal (configPath : string) :
  Forall (fun e => externalCall e = false)
         (fst (createDefaultConfig verbose src configPath)).
Proof.
  unfold createDefaultConfig, bindF.
  destruct (statIsNotExist src _); [destruct (osMkdirAll src _)|];
    destruct (yamlMarshal src defaultCfg) as [yamlData|];
    try destruct (osWriteFile src configPath yamlData);
    cbn [fst]; internal.
Qed.

(** [initConfig] prints and may write the default file; it neither
    opens the editor nor reaches for the model or the clipboard. *)
Lemma initConfig_internal :
  Forall (fun e => externalCall e = false) (fst (initConfig cfgFile verbose src)).
Proof.
  unfold initConfig, loadConfig, applyDefaults. cbn [fst].
  repeat apply Forall_app_2; try solve [internal].
  - destruct (isEmpty cfgFile); [destruct (UserHomeDir src)|]; internal.
  - destruct (ReadInConfig src); [internal | | internal].
    apply Forall_cons_2; [reflexivity|].
    destruct (getDefaultConfigPath src) as [defaultPath|]; [|internal].
    pose proof (createDefaultConfig_internal defaultPath) as Hc.
    destruct (createDefaultConfig verbose src defaultPath) as [t [u|e]];
      cbn [fst] in Hc; apply Forall_app_2; try exact Hc; [|internal].
    destruct (ReadInConfigAgain src); internal.
  - destruct (snd (Unmarshal src)); internal.
Qed.
End Initialisation.

(** ** The commands *)

Section TraceFacts.
Context {A B : Type}.
Variable P : Event -> Prop.

Lemma bind_Forall (c : Proc A) (k : A -> Proc B) :
  Forall P (fst c) -> (forall a, Forall P (fst (k a))) -> Forall P (fst (bind c k)).
Proof.
  intros Hc Hk. destruct c as [t [a|code]]; simpl in *; [|exact Hc].
  specialize (Hk a). destruct (k a) as [t' r]. now apply Forall_app_2.
Qed.

Lemma bind_In_r (c : Proc A) (k : A -> Proc B) (t : list Event) (a : A) (e : Event) :
  c = (t, Next a) -> In e (fst (k a)) -> In e (fst (bind c k)).
Proof.
  intros -> He. simpl. destruct (k a) as [t' r]. apply in_or_app. now right.
Qed.

Lemma bind_In_l (c : Proc A) (k : A -> Proc B) (e : Event) :
  In e (fst c) -> In e (fst (bind c k)).
Proof.
  intros He. destruct c as [t [a|code]]; simpl in *; [|exact He].
  destruct (k a) as [t' r]. apply in_or_app. now left.
Qed.
End TraceFacts.

Lemma internal_not_external (t : list Event) (e : Event) :
  Forall (fun e => externalCall e = false) t -> In e t -> externalCall e = false.
Proof. intros Ht He. rewrite Forall_forall in Ht. apply Ht. now apply list_elem_of_In. Qed.

Lemma internal_no_delivery (t : list Event) :
  Forall (fun e => externalCall e = false) t ->
  Forall (fun e => deliveryCall e = false) t.
Proof.
  intros Ht. eapply Forall_impl; [exact Ht|].
  intros [] He; simpl in *; congruence.
Qed.

Section Runs.
Context `{Unicode}.
Variables (w : World) (verbose : bool) (AppConfig : Config) (Changed : string -> bool).

Lemma utils_printV_internal (text : string) :
  Forall (fun e => externalCall e = false) (utils.printV verbose text).
Proof. unfold utils.printV. destruct verbose; repeat constructor. Qed.

Lemma GetGeminiAPIKey_internal (configKey : string) :
  Forall (fun e => externalCall e = false)
         (fst (utils.GetGeminiAPIKey w configKey verbose)).
Proof.
  unfold utils.GetGeminiAPIKey, utils.keyFromPass.
  destruct (negb (isEmpty (Getenv w _))); [apply utils_printV_internal|].
  destruct (LookPath w _);
    [destruct (commandOutput w _ _) as [output|]; [destruct (negb (isEmpty _))|]|];
    destruct (negb (isEmpty configKey)); cbn [fst];
    repeat first [ apply Forall_nil_2
                 | apply Forall_cons_2; [reflexivity|]
                 | apply Forall_app_2
                 | apply utils_printV_internal ].
Qed.

Lemma requireAPIKey_internal :
  Forall (fun e => externalCall e = false) (fst (requireAPIKey w verbose AppConfig)).
Proof.
  unfold requireAPIKey.
  pose proof (GetGeminiAPIKey_internal (GeminiAPIKey AppConfig)) as Hk.
  destruct (utils.GetGeminiAPIKey w _ _) as [t [apiKey|err]]; cbn [fst] in Hk.
  - cbn [orFatal]. rewrite (bind_Next _ _ _ _ eq_refl).
    destruct (isEmpty apiKey); cbn [fst]; apply Forall_app_2; try exact Hk;
      repeat constructor.
  - cbn. apply Forall_app_2; [exact Hk|]. repeat constructor.
Qed.

(** With the key in the environment nothing else is looked at. *)
Lemma requireAPIKey_env (apiKey : string) :
  Getenv w "GEMINI_API_KEY" = apiKey -> apiKey <> EmptyString ->
  requireAPIKey w verbose AppConfig
  = (utils.printV verbose
       ("Using Gemini API key from environment variable GEMINI_API_KEY."),
     Next apiKey).
Proof.
  intros Henv Hne. apply isEmpty_false in Hne.
  unfold requireAPIKey, utils.GetGeminiAPIKey.
  change utils.EnvVarName with "GEMINI_API_KEY". rewrite Henv, Hne.
  cbn [negb orFatal]. rewrite (bind_Next _ _ _ _ eq_refl), Hne.
  cbn [fst snd ret]. now rewrite app_nil_r.
Qed.

Lemma fixChooseTemplate_internal (v : FixVars) :
  Forall (fun e => externalCall e = false) (fst (fixChooseTemplate AppConfig v)).
Proof.
  unfold fixChooseTemplate.
  repeat match goal with
         | |- Forall _ (fst (if ?b then _ else _)) => destruct b
         end; repeat constructor.
Qed.

Lemma fixResolveMood_internal (v : FixVars) :
  Forall (fun e => externalCall e = false) (fst (fixResolveMood AppConfig Changed v)).
Proof.
  unfold fixResolveMood.
  destruct (Moods AppConfig !! _); [repeat constructor|].
  destruct (negb _ && negb _); destruct (Moods AppConfig !! _); repeat constructor.
Qed.

Lemma answerResolveMood_internal (v : AnswerVars) :
  Forall (fun e => externalCall e = false) (fst (answerResolveMood AppConfig Changed v)).
Proof.
  unfold answerResolveMood.
  destruct (Moods AppConfig !! _); [repeat constructor|].
  destruct (negb _ && negb _); destruct (Moods AppConfig !! _); repeat constructor.
Qed.

Lemma fixAssemble_internal (v : FixVars) :
  Forall (fun e => externalCall e = false) (fst (fixAssemble AppConfig Changed v)).
Proof.
  unfold fixAssemble.
  apply bind_Forall; [apply fixChooseTemplate_internal | intros sel].
  apply bind_Forall; [unfold requireTemplate; destruct (isEmpty _); repeat constructor|].
  intros _. apply bind_Forall; [apply fixResolveMood_internal|].
  intros md. constructor.
Qed.

Lemma answerAssemble_internal (v : AnswerVars) :
  Forall (fun e => externalCall e = false) (fst (answerAssemble AppConfig Changed v)).
Proof.
  unfold answerAssemble.
  apply bind_Forall; [apply answerResolveMood_internal | intros md].
  apply bind_Forall;
    [unfold requireAnswerTemplate; destruct (isEmpty _); repeat constructor|].
  intros tpl. constructor.
Qed.

(** The assembled prompt of [fix] is the chosen template with the
    mood filled in. *)
Lemma fixAssemble_done (v : FixVars) (t0 t1 : list Event)
    (chosenPromptTemplate language selectedMoodKey moodInstructionText : string) :
  fixChooseTemplate AppConfig v = (t0, Next (chosenPromptTemplate, language)) ->
  chosenPromptTemplate <> EmptyString ->
  fixResolveMood AppConfig Changed v
  = (t1, Next (selectedMoodKey, moodInstructionText)) ->
  fixAssemble AppConfig Changed v
  = (t0 ++ t1,
     Next {| promptWithMood :=
               ReplaceAll chosenPromptTemplate "{MOOD_INSTRUCTION}" moodInstructionText;
             targetLanguage := language;
             selectedMoodKey := selectedMoodKey |}).
Proof.
  intros Hsel Htpl Hmood. unfold fixAssemble.
  rewrite (bind_Next _ _ _ _ Hsel). cbn [fst snd].
  unfold requireTemplate. apply isEmpty_false in Htpl. rewrite Htpl, bind_ret.
  rewrite (bind_Next _ _ _ _ Hmood). cbn [fst snd ret]. now rewrite app_nil_r.
Qed.

(** The assembled prompt of [answer] is its template with the mood,
    or the fallback sentence, filled in. *)
Lemma answerAssemble_done (v : AnswerVars) (t : list Event)
    (selectedMoodKey moodInstructionText : string) :
  answerResolveMood AppConfig Changed v
  = (t, Next (selectedMoodKey, moodInstructionText)) ->
  AnswerQuestion (Prompts AppConfig) <> EmptyString ->
  answerAssemble AppConfig Changed v
  = (t,
     Next {| promptWithMood :=
               ReplaceAll (AnswerQuestion (Prompts AppConfig)) "{MOOD_INSTRUCTION}"
                 (answerNeutralDefault selectedMoodKey moodInstructionText);
             targetLanguage :=
               if Changed "language" then answerLanguage v
               else DefaultLanguage AppConfig;
             selectedMoodKey := selectedMoodKey |}).
Proof.
  intros Hmood Htpl. unfold answerAssemble.
  rewrite (bind_Next _ _ _ _ Hmood). cbn [fst snd].
  unfold requireAnswerTemplate. apply isEmpty_false in Htpl. rewrite Htpl, bind_ret.
  cbn [fst snd ret]. now rewrite app_nil_r.
Qed.

(** C2. With the resolved mood key [neutral] and an empty
    instruction, [answer] puts the fixed fallback sentence in the place
    of [{MOOD_INSTRUCTION}] and [fix] the empty string: cut at the
    occurrences of the placeholder, the template falls into pieces
    without it, and the assembled prompt of [answer] is these pieces
    with the sentence between them, that of [fix] the pieces with
    nothing between them. *)
Theorem neutral_asymmetry (vf : FixVars) (va : AnswerVars)
    (t0 tf ta : list Event) (chosenPromptTemplate language : string) :
  fixChooseTemplate AppConfig vf = (t0, Next (chosenPromptTemplate, language)) ->
  chosenPromptTemplate <> EmptyString ->
  AnswerQuestion (Prompts AppConfig) <> EmptyString ->
  fixResolveMood AppConfig Changed vf = (tf, Next ("neutral", EmptyString)) ->
  answerResolveMood AppConfig Changed va = (ta, Next ("neutral", EmptyString)) ->
  (exists a pieces,
      answerAssemble AppConfig Changed va = (ta, Next a) /\
      promptWithMood a
      = ReplaceAll (AnswerQuestion (Prompts AppConfig)) "{MOOD_INSTRUCTION}"
          "Answer in a standard, helpful, and informative tone." /\
      Forall (fun piece => Contains piece "{MOOD_INSTRUCTION}" = false) pieces /\
      AnswerQuestion (Prompts AppConfig) = joinWith "{MOOD_INSTRUCTION}" pieces /\
      promptWithMood a
      = joinWith "Answer in a standard, helpful, and informative tone." pieces) /\
  (exists a pieces,
      fixAssemble AppConfig Changed vf = (t0 ++ tf, Next a) /\
      promptWithMood a
      = ReplaceAll chosenPromptTemplate "{MOOD_INSTRUCTION}" EmptyString /\
      Forall (fun piece => Contains piece "{MOOD_INSTRUCTION}" = false) pieces /\
      chosenPromptTemplate = joinWith "{MOOD_INSTRUCTION}" pieces /\
      promptWithMood a = joinWith EmptyString pieces).
Proof.
  intros Hsel Htpl Hans Hf Ha.
  assert (Htoken : "{MOOD_INSTRUCTION}" <> EmptyString) by discriminate.
  split.
  - destruct (joinWith_pieces "{MOOD_INSTRUCTION}" (AnswerQuestion (Prompts AppConfig))
                Htoken) as (piece & rest & Hfree & Hcut).
    eexists _, (piece :: rest).
    split; [apply answerAssemble_done; [exact Ha | exact Hans]|].
    split; [reflexivity|]. split; [exact Hfree|]. split; [exact Hcut|].
    cbn [promptWithMood]. rewrite Hcut at 1.
    exact (ReplaceAll_joinWith "{" "MOOD_INSTRUCTION}" _ _ eq_refl Hfree).
  - destruct (joinWith_pieces "{MOOD_INSTRUCTION}" chosenPromptTemplate Htoken)
      as (piece & rest & Hfree & Hcut).
    eexists _, (piece :: rest).
    split; [exact (fixAssemble_done vf t0 tf _ _ _ _ Hsel Htpl Hf)|].
    split; [reflexivity|]. split; [exact Hfree|]. split; [exact Hcut|].
    cbn [promptWithMood]. rewrite Hcut at 1.
    exact (ReplaceAll_joinWith "{" "MOOD_INSTRUCTION}" _ _ eq_refl Hfree).
Qed.

(** C6. [--english] together with a [--language] that does not fold
    to [English] (such as [German]): the command ends with the error
    and status 1, and the whole process has neither opened the editor
    nor called the model or the clipboard.  [--english] without such a
    [--language]: the language becomes [English], the prompt key
    [english_fix_only] unless [--prompt] was given, and the command
    runs; without [--prompt] it selects the english_fix_only
    template. *)
Theorem english_flag (cfgFile : string) (src : ConfigSource) (v : FixVars) :
  englishShorthand v = true ->
  (language v <> EmptyString -> EqualFold (language v) "English" = false ->
   fixCommand w verbose AppConfig Changed v
   = ([Stderr ("--english flag is incompatible with --language specifying a different language than English" +:+ nl)],
      Exit ExitFailure) /\
   snd (qikFix cfgFile verbose src w Changed v) = ExitFailure /\
   Forall (fun e => externalCall e = false)
          (fst (qikFix cfgFile verbose src w Changed v))) /\
  EqualFold "German" "English" = false /\
  (language v = EmptyString \/ EqualFold (language v) "English" = true ->
   exists v',
     fixPersistentPreRunE Changed v = Ok v' /\
     language v' = "English" /\
     promptKey v' = (if Changed "prompt" then promptKey v else "english_fix_only") /\
     moodKey v' = moodKey v /\
     fixCommand w verbose AppConfig Changed v = fixRun w verbose AppConfig Changed v' /\
     (Changed "prompt" = false ->
      fixChooseTemplate AppConfig v'
      = ([], Next (EnglishFixOnly (Prompts AppConfig), "English")))).
Proof.
  intros He. split; [|split; [reflexivity|]].
  - intros Hl Hf.
    assert (Hcmd : forall cfg, fixCommand w verbose cfg Changed v
      = ([Stderr ("--english flag is incompatible with --language specifying a different language than English" +:+ nl)],
         Exit ExitFailure)).
    { intros cfg. unfold fixCommand.
      now rewrite (english_flag_rejected Changed v He Hl Hf). }
    split; [apply Hcmd|].
    unfold qikFix.
    pose proof (initConfig_internal cfgFile verbose src) as Hi.
    destruct (initConfig cfgFile verbose src) as [t cfg]. rewrite Hcmd.
    split; [reflexivity|]. cbn [fst trace]. apply Forall_app_2; [exact Hi|].
    repeat constructor.
  - intros Hl. eexists. split; [now apply english_flag_accepted|].
    cbn [language promptKey moodKey].
    split; [reflexivity|]. split; [now destruct (Changed "prompt")|].
    split; [reflexivity|]. split.
    + unfold fixCommand. now rewrite (english_flag_accepted Changed v He Hl).
    + intros Hp. rewrite Hp. unfold fixChooseTemplate. reflexivity.
Qed.

End Runs.

(** ** From the editor to the model *)

Section Capture.
Context `{Unicode}.
Variables (w : World) (verbose : bool) (AppConfig : Config) (Changed : string -> bool).

Lemma captureText_ok (inputText : string) :
  GetTextFromEditor w (Editor AppConfig) = Ok inputText ->
  captureText w AppConfig = ([RunEditor (Editor AppConfig)], Next inputText).
Proof. intros Ht. unfold captureText, orFatal. now rewrite Ht. Qed.

(** [fixCmd.Run] with a blank text from the editor. *)
Lemma fixRun_blank (v : FixVars) (t1 t2 : list Event) (apiKey inputText : string)
    (a : Assembled) :
  requireAPIKey w verbose AppConfig = (t1, Next apiKey) ->
  fixAssemble AppConfig Changed v = (t2, Next a) ->
  GetTextFromEditor w (Editor AppConfig) = Ok inputText ->
  TrimSpace inputText = EmptyString ->
  fixRun w verbose AppConfig Changed v
  = ((t1 ++ t2 ++ [Stdout ("Opening editor for input..." +:+ nl)])
     ++ [RunEditor (Editor AppConfig); Stdout ("No input provided. Exiting." +:+ nl)],
     Exit ExitSuccess).
Proof.
  intros Hkey Hasm Htext Hblank. unfold fixRun.
  rewrite (bind_Next _ _ _ _ Hkey), (bind_Next _ _ _ _ Hasm).
  unfold Println at 1. rewrite bind_emit.
  rewrite (bind_Next _ _ _ _ (captureText_ok _ Htext)), Hblank.
  cbn -[String.append]. now rewrite <- !app_assoc.
Qed.

(** [answerCmd.Run] with a blank text from the editor. *)
Lemma answerRun_blank (v : AnswerVars) (t1 t2 : list Event)
    (apiKey inputText : string) (a : Assembled) :
  requireAPIKey w verbose AppConfig = (t1, Next apiKey) ->
  answerAssemble AppConfig Changed v = (t2, Next a) ->
  GetTextFromEditor w (Editor AppConfig) = Ok inputText ->
  TrimSpace inputText = EmptyString ->
  answerRun w verbose AppConfig Changed v
  = ((t1 ++ t2 ++ [Stdout ("Opening editor for your question..." +:+ nl)])
     ++ [RunEditor (Editor AppConfig); Stdout ("No question provided. Exiting." +:+ nl)],
     Exit ExitSuccess).
Proof.
  intros Hkey Hasm Htext Hblank. unfold answerRun.
  rewrite (bind_Next _ _ _ _ Hkey), (bind_Next _ _ _ _ Hasm).
  unfold Println at 1. rewrite bind_emit.
  rewrite (bind_Next _ _ _ _ (captureText_ok _ Htext)), Hblank.
  cbn -[String.append]. now rewrite <- !app_assoc.
Qed.

Lemma no_editor_in_internal (t : list Event) (editorCmd : string) :
  Forall (fun e => externalCall e = false) t -> In (RunEditor editorCmd) t -> False.
Proof. intros Ht Hin. now apply (internal_not_external _ _ Ht) in Hin. Qed.

Lemma fixRun_reaches_editor (v : FixVars) (editorCmd : string) :
  In (RunEditor editorCmd) (trace (fixRun w verbose AppConfig Changed v)) ->
  exists t1 apiKey t2 a,
    requireAPIKey w verbose AppConfig = (t1, Next apiKey) /\
    fixAssemble AppConfig Changed v = (t2, Next a).
Proof.
  unfold fixRun, trace.
  pose proof (requireAPIKey_internal w verbose AppConfig) as Hk.
  pose proof (fixAssemble_internal AppConfig Changed v) as Ha.
  destruct (requireAPIKey w verbose AppConfig) as [t1 [apiKey|code]] eqn:Ekey.
  - destruct (fixAssemble AppConfig Changed v) as [t2 [a|code]] eqn:Easm.
    + intros _. now exists t1, apiKey, t2, a.
    + rewrite (bind_Next _ _ _ _ eq_refl), (bind_Exit _ _ _ _ eq_refl).
      cbn [fst] in Hk, Ha |- *. intros Hin. exfalso.
      apply in_app_or in Hin as [Hin|Hin];
        [exact (no_editor_in_internal _ _ Hk Hin) | exact (no_editor_in_internal _ _ Ha Hin)].
  - rewrite (bind_Exit _ _ _ _ eq_refl). cbn [fst] in Hk |- *. intros Hin. exfalso.
    exact (no_editor_in_internal _ _ Hk Hin).
Qed.

Lemma answerRun_reaches_editor (v : AnswerVars) (editorCmd : string) :
  In (RunEditor editorCmd) (trace (answerRun w verbose AppConfig Changed v)) ->
  exists t1 apiKey t2 a,
    requireAPIKey w verbose AppConfig = (t1, Next apiKey) /\
    answerAssemble AppConfig Changed v = (t2, Next a).
Proof.
  unfold answerRun, trace.
  pose proof (requireAPIKey_internal w verbose AppConfig) as Hk.
  pose proof (answerAssemble_internal AppConfig Changed v) as Ha.
  destruct (requireAPIKey w verbose AppConfig) as [t1 [apiKey|code]] eqn:Ekey.
  - destruct (answerAssemble AppConfig Changed v) as [t2 [a|code]] eqn:Easm.
    + intros _. now exists t1, apiKey, t2, a.
    + rewrite (bind_Next _ _ _ _ eq_refl), (bind_Exit _ _ _ _ eq_refl).
      cbn [fst] in Hk, Ha |- *. intros Hin. exfalso.
      apply in_app_or in Hin as [Hin|Hin];
        [exact (no_editor_in_internal _ _ Hk Hin) | exact (no_editor_in_internal _ _ Ha Hin)].
  - rewrite (bind_Exit _ _ _ _ eq_refl). cbn [fst] in Hk |- *. intros Hin. exfalso.
    exact (no_editor_in_internal _ _ Hk Hin).
Qed.

(** A string of ASCII white space is blank for [TrimSpace]. *)
Lemma TrimSpace_white (s : string) :
  (forall c, In c (list_ascii_of_string s) ->
             geRuneSelf c = false /\ asciiSpace c = true) ->
  TrimSpace s = EmptyString.
Proof.
  induction s as [|c s IH]; intros Hs; [reflexivity|].
  destruct (Hs c (or_introl eq_refl)) as [Hc1 Hc2].
  simpl. rewrite Hc1, Hc2. apply IH. intros d Hd. apply Hs. now right.
Qed.

(** C8. When the text that comes back from the editor is empty or
    white space only, [fix] and [answer] end with status 0; nothing
    follows the editor but the notice that there was no input: no model
    client, no model call, no clipboard write, no result. *)
Theorem blank_input_cancels (vf : FixVars) (va : AnswerVars) (inputText : string) :
  GetTextFromEditor w (Editor AppConfig) = Ok inputText ->
  TrimSpace inputText = EmptyString ->
  (In (RunEditor (Editor AppConfig))
      (trace (fixCommand w verbose AppConfig Changed vf)) ->
   status (fixCommand w verbose AppConfig Changed vf) = ExitSuccess /\
   Forall (fun e => deliveryCall e = false)
          (trace (fixCommand w verbose AppConfig Changed vf)) /\
   exists before,
     Forall (fun e => externalCall e = false) before /\
     trace (fixCommand w verbose AppConfig Changed vf)
     = before ++ [RunEditor (Editor AppConfig);
                  Stdout ("No input provided. Exiting." +:+ nl)]) /\
  (In (RunEditor (Editor AppConfig))
      (trace (answerRun w verbose AppConfig Changed va)) ->
   status (answerRun w verbose AppConfig Changed va) = ExitSuccess /\
   Forall (fun e => deliveryCall e = false)
          (trace (answerRun w verbose AppConfig Changed va)) /\
   exists before,
     Forall (fun e => externalCall e = false) before /\
     trace (answerRun w verbose AppConfig Changed va)
     = before ++ [RunEditor (Editor AppConfig);
                  Stdout ("No question provided. Exiting." +:+ nl)]).
Proof.
  intros Htext Hblank. split.
  - unfold fixCommand. destruct (fixPersistentPreRunE Changed vf) as [v'|err].
    + intros Hin.
      destruct (fixRun_reaches_editor v' _ Hin) as (t1 & apiKey & t2 & a & Hk & Ha).
      pose proof (requireAPIKey_internal w verbose AppConfig) as Hk'.
      pose proof (fixAssemble_internal AppConfig Changed v') as Ha'.
      rewrite Hk in Hk'. rewrite Ha in Ha'. cbn [fst] in Hk', Ha'.
      rewrite (fixRun_blank v' t1 t2 apiKey inputText a Hk Ha Htext Hblank).
      assert (Hbefore : Forall (fun e => externalCall e = false)
                          (t1 ++ t2 ++ [Stdout ("Opening editor for input..." +:+ nl)])).
      { repeat apply Forall_app_2; try assumption. repeat constructor. }
      split; [reflexivity|]. split.
      * unfold trace; cbn [fst]. apply Forall_app_2.
        -- now apply internal_no_delivery.
        -- repeat constructor.
      * eexists. split; [exact Hbefore | reflexivity].
    + cbn. intros [Hin|[]]. discriminate.
  - intros Hin.
    destruct (answerRun_reaches_editor va _ Hin) as (t1 & apiKey & t2 & a & Hk & Ha).
    pose proof (requireAPIKey_internal w verbose AppConfig) as Hk'.
    pose proof (answerAssemble_internal AppConfig Changed va) as Ha'.
    rewrite Hk in Hk'. rewrite Ha in Ha'. cbn [fst] in Hk', Ha'.
    rewrite (answerRun_blank va t1 t2 apiKey inputText a Hk Ha Htext Hblank).
    assert (Hbefore : Forall (fun e => externalCall e = false)
                        (t1 ++ t2 ++ [Stdout ("Opening editor for your question..." +:+ nl)])).
    { repeat apply Forall_app_2; try assumption. repeat constructor. }
    split; [reflexivity|]. split.
    + unfold trace; cbn [fst]. apply Forall_app_2.
      * now apply internal_no_delivery.
      * repeat constructor.
    + eexists. split; [exact Hbefore | reflexivity].
Qed.

End Capture.

(** ** The three placeholders *)

Section Placeholders.

Lemma mood_token_border_free : lacks "{" "MOOD_INSTRUCTION}" = true.
Proof. reflexivity. Qed.

Lemma text_survives_mood (template mood : string) :
  Contains template "{TEXT}" = true ->
  Contains (ReplaceAll template "{MOOD_INSTRUCTION}" mood) "{TEXT}" = true.
Proof.
  apply ReplaceAll_keeps; [discriminate | |].
  - intros s. rewrite !append_cons, append_nil.
    rewrite !Contains_unfold. cbn [HasPrefix Ascii.eqb Bool.eqb andb orb]. auto.
  - intros s. rewrite !append_cons, append_nil.
    now rewrite !ReplaceAll_skip by reflexivity.
Qed.

Lemma language_survives_mood (template mood : string) :
  Contains template "{LANGUAGE}" = true ->
  Contains (ReplaceAll template "{MOOD_INSTRUCTION}" mood) "{LANGUAGE}" = true.
Proof.
  apply ReplaceAll_keeps; [discriminate | |].
  - intros s. rewrite !append_cons, append_nil.
    rewrite !Contains_unfold. cbn [HasPrefix Ascii.eqb Bool.eqb andb orb]. auto.
  - intros s. rewrite !append_cons, append_nil.
    now rewrite !ReplaceAll_skip by reflexivity.
Qed.

(** With the template that is nothing but [{TEXT}], the final prompt
    is the input text after the language substitution. *)
Lemma finalPrompt_of_text (text language : string) :
  ai.finalPrompt text "{TEXT}" language = ReplaceAll text "{LANGUAGE}" language.
Proof.
  unfold ai.finalPrompt. f_equal.
  change "{TEXT}" with ("{TEXT}" +:+ EmptyString) at 1.
  rewrite ReplaceAll_match by discriminate.
  now rewrite ReplaceAll_empty, append_empty_r.
Qed.

(** C10, as the code has it.  [ProcessText] substitutes [{TEXT}]
    first and [{LANGUAGE}] in the result, the inserted text included.
    For a language without braces that is no fragment of the word
    LANGUAGE, no [{LANGUAGE}] is left in the final prompt, so an input
    text with [{LANGUAGE}] in it does not appear there as it was
    typed. *)
Theorem language_substituted_in_input (text template language : string) :
  lacks "{" language = true -> lacks "}" language = true ->
  Contains "LANGUAGE" language = false ->
  ai.finalPrompt text template language
  = ReplaceAll (ReplaceAll template "{TEXT}" text) "{LANGUAGE}" language /\
  ai.finalPrompt text "{TEXT}" language = ReplaceAll text "{LANGUAGE}" language /\
  Contains (ai.finalPrompt text template language) "{LANGUAGE}" = false /\
  (Contains text "{LANGUAGE}" = true ->
   Contains (ai.finalPrompt text template language) text = false).
Proof.
  intros Hopen Hclose Hfragment.
  assert (Hclear : Contains (ai.finalPrompt text template language) "{LANGUAGE}" = false).
  { unfold ai.finalPrompt.
    exact (ReplaceAll_clears "{" "}" "LANGUAGE" language _ Hopen Hclose Hfragment). }
  split; [reflexivity|]. split; [apply finalPrompt_of_text|]. split; [exact Hclear|].
  intros Htext.
  destruct (Contains (ai.finalPrompt text template language) text) eqn:Hin;
    [|reflexivity].
  rewrite (Contains_trans _ _ _ Hin Htext) in Hclear. discriminate.
Qed.

End Placeholders.

(** C10 as stated fails when the language brings the placeholder
    back: with the language [{LANGUAGE}] itself the input text stays as
    it was typed. *)
Lemma language_placeholder_as_language :
  let text := "Translate {LANGUAGE}" in
  let prompt := ai.finalPrompt text (Default defaultPromptsConfig) "{LANGUAGE}" in
  Contains text "{LANGUAGE}" = true /\ Contains prompt text = true.
Proof. vm_compute. split; reflexivity. Qed.

Section Submission.
Context `{Unicode}.
Variables (w : World) (verbose : bool) (AppConfig : Config) (Changed : string -> bool).

Lemma orFatal_In {A : Type} (prefix : string) (c : Fallible A) (e : Event) :
  In e (fst c) -> In e (fst (orFatal prefix c)).
Proof.
  destruct c as [t [a|err]]; simpl; [auto|]. intros He. apply in_or_app. now left.
Qed.

Lemma ProcessText_calls (c : ai.GeminiClient) (text template language : string) :
  In (GenerateContent (ai.model c) (ai.finalPrompt text template language))
     (fst (ai.ProcessText (genaiGenerateContent w) c text template language)).
Proof.
  unfold ai.ProcessText.
  destruct (genaiGenerateContent w _ _) as [[resp|]|err]; try (now left).
  destruct (ai.readResponse resp). now left.
Qed.

Lemma newClient_ok (apiKey : string) :
  genaiNewClient w apiKey = None ->
  exists t c, newClient w AppConfig apiKey = (t, Next c).
Proof.
  intros Hnew. unfold newClient, ai.NewGeminiClient. rewrite Hnew.
  destruct (isEmpty (GeminiModel AppConfig)); eexists _, _; reflexivity.
Qed.

(** [fixCmd.Run] with a text from the editor: the prompt that goes
    to the model. *)
Lemma fixRun_submits (v : FixVars) (t1 t2 : list Event) (apiKey inputText : string)
    (a : Assembled) :
  requireAPIKey w verbose AppConfig = (t1, Next apiKey) ->
  fixAssemble AppConfig Changed v = (t2, Next a) ->
  GetTextFromEditor w (Editor AppConfig) = Ok inputText ->
  TrimSpace inputText <> EmptyString ->
  genaiNewClient w apiKey = None ->
  exists c,
    In (GenerateContent (ai.model c)
          (ai.finalPrompt inputText (promptWithMood a) (targetLanguage a)))
       (trace (fixRun w verbose AppConfig Changed v)).
Proof.
  intros Hkey Hasm Htext Hblank Hnew.
  destruct (newClient_ok apiKey Hnew) as (tc & c & Hc). exists c.
  unfold fixRun, trace.
  eapply bind_In_r; [exact Hkey|]. eapply bind_In_r; [exact Hasm|].
  eapply bind_In_r; [reflexivity|].
  eapply bind_In_r; [exact (captureText_ok w AppConfig _ Htext)|].
  apply isEmpty_false in Hblank. rewrite Hblank.
  eapply bind_In_r; [reflexivity|]. eapply bind_In_r; [reflexivity|].
  eapply bind_In_r; [exact Hc|].
  apply bind_In_l, orFatal_In, ProcessText_calls.
Qed.

(** C7, as the code has it.  The assembler fills in
    [{MOOD_INSTRUCTION}] and nothing else: [{TEXT}] and [{LANGUAGE}]
    stay, a template without the mood placeholder is unchanged, and the
    leftmost occurrence gives way to the mood text, the rest being
    treated the same way.  [ProcessText] then fills in the input text
    and the language, and that is the prompt of the model call.  For
    the input [helo wrold], the language [English] and the mood
    [professional], in a configuration whose english_fix_only template
    and professional mood are the built-in ones, the prompt of the
    model call contains the input, the word English and the mood's
    instruction, and no [{MOOD_INSTRUCTION}]. *)
Theorem fix_prompt_pipeline :
  (forall template mood,
      (Contains template "{TEXT}" = true ->
       Contains (ReplaceAll template "{MOOD_INSTRUCTION}" mood) "{TEXT}" = true) /\
      (Contains template "{LANGUAGE}" = true ->
       Contains (ReplaceAll template "{MOOD_INSTRUCTION}" mood) "{LANGUAGE}" = true) /\
      (Contains template "{MOOD_INSTRUCTION}" = false ->
       ReplaceAll template "{MOOD_INSTRUCTION}" mood = template) /\
      (forall rest,
          Contains template "{MOOD_INSTRUCTION}" = false ->
          ReplaceAll (template +:+ "{MOOD_INSTRUCTION}" +:+ rest)
            "{MOOD_INSTRUCTION}" mood
          = template +:+ mood +:+ ReplaceAll rest "{MOOD_INSTRUCTION}" mood)) /\
  (forall v t0 t1 t2 apiKey inputText chosenPromptTemplate language
          selectedMoodKey moodInstructionText,
      requireAPIKey w verbose AppConfig = (t0, Next apiKey) ->
      fixChooseTemplate AppConfig v = (t1, Next (chosenPromptTemplate, language)) ->
      chosenPromptTemplate <> EmptyString ->
      fixResolveMood AppConfig Changed v
      = (t2, Next (selectedMoodKey, moodInstructionText)) ->
      GetTextFromEditor w (Editor AppConfig) = Ok inputText ->
      TrimSpace inputText <> EmptyString ->
      genaiNewClient w apiKey = None ->
      exists c,
        In (GenerateContent (ai.model c)
              (ReplaceAll
                 (ReplaceAll
                    (ReplaceAll chosenPromptTemplate "{MOOD_INSTRUCTION}"
                       moodInstructionText)
                    "{TEXT}" inputText)
                 "{LANGUAGE}" language))
           (trace (fixRun w verbose AppConfig Changed v))) /\
  (forall apiKey professional,
      Getenv w "GEMINI_API_KEY" = apiKey ->
      apiKey <> EmptyString ->
      genaiNewClient w apiKey = None ->
      GetTextFromEditor w (Editor AppConfig) = Ok "helo wrold" ->
      Changed "mood" = true ->
      EnglishFixOnly (Prompts AppConfig) = EnglishFixOnly defaultPromptsConfig ->
      getDefaultMoods !! "professional" = Some professional ->
      Moods AppConfig !! "professional" = Some professional ->
      exists c prompt,
        In (GenerateContent (ai.model c) prompt)
           (trace (fixCommand w verbose AppConfig Changed
                     {| language := "English";
                        promptKey := EmptyString;
                        englishShorthand := false;
                        moodKey := "professional" |})) /\
        Contains prompt "helo wrold" = true /\
        Contains prompt "English" = true /\
        Contains prompt (Instruction professional) = true /\
        Contains prompt "{MOOD_INSTRUCTION}" = false).
Proof.
  split; [|split].
  - intros template mood. split; [apply text_survives_mood|].
    split; [apply language_survives_mood|].
    split; [apply ReplaceAll_absent|].
    intros rest. exact (ReplaceAll_leftmost "{" "MOOD_INSTRUCTION}" mood template rest
                          mood_token_border_free).
  - intros v t0 t1 t2 apiKey inputText tpl lang key mood
      Hkey Hsel Htpl Hmood Htext Hblank Hnew.
    exact (fixRun_submits v t0 (t1 ++ t2) apiKey inputText _ Hkey
             (fixAssemble_done AppConfig Changed v t1 t2 tpl lang key mood Hsel Htpl Hmood)
             Htext Hblank Hnew).
  - intros apiKey professional Hkey Hne Hnew Htext Hchanged Htpl Hbuiltin Hmood.
    set (v := {| language := "English"; promptKey := EmptyString;
                 englishShorthand := false; moodKey := "professional" |}).
    assert (Hrun : fixCommand w verbose AppConfig Changed v
                   = fixRun w verbose AppConfig Changed v) by reflexivity.
    pose proof (requireAPIKey_env w verbose AppConfig apiKey Hkey Hne) as Hreq.
    assert (Hsel : fixChooseTemplate AppConfig v
                   = ([], Next (EnglishFixOnly defaultPromptsConfig, "English"))).
    { unfold fixChooseTemplate. cbn [v language promptKey isEmpty negb].
      rewrite Htpl. reflexivity. }
    assert (Hres : fixResolveMood AppConfig Changed v
                   = ([], Next ("professional", Instruction professional))).
    { unfold fixResolveMood. cbn [v moodKey]. now rewrite Hchanged, Hmood. }
    assert (Hblank : TrimSpace "helo wrold" <> EmptyString) by discriminate.
    assert (Hnonempty : EnglishFixOnly defaultPromptsConfig <> EmptyString)
      by apply (builtin_nonempty english_fix_only).
    destruct (fixRun_submits v _ ([] ++ []) apiKey _ _ Hreq
                (fixAssemble_done AppConfig Changed v [] [] _ _ _ _ Hsel Hnonempty Hres)
                Htext Hblank Hnew) as [c Hin].
    exists c. eexists. rewrite Hrun. split; [exact Hin|].
    cbn [promptWithMood targetLanguage].
    vm_compute in Hbuiltin. injection Hbuiltin as <-.
    repeat split; vm_compute; reflexivity.
Qed.

End Submission.

(** ** The properties at sample inputs *)

(** C4 as stated fails for the empty key: [--mood] with an empty
    value is not in the built-in mood table, the default mood [neutral]
    is, and neither command prints a warning. *)
Lemma empty_mood_key_no_warning :
  Moods defaultCfg !! EmptyString = None /\
  DefaultMood defaultCfg = "neutral" /\
  is_Some (Moods defaultCfg !! "neutral") /\
  trace (fixResolveMood defaultCfg (Samples.given ["mood"]) (Samples.fixMood EmptyString))
  = [] /\
  trace (answerResolveMood defaultCfg (Samples.given ["mood"])
           (Samples.answerMood EmptyString))
  = [].
Proof.
  split; [vm_compute; reflexivity|]. split; [reflexivity|].
  split; [eexists; vm_compute; reflexivity|].
  split; vm_compute; reflexivity.
Qed.

(** C7 as stated fails for a configuration file with an
    english_fix_only template of the user's own that has the mood
    placeholder and nothing else: [initConfig] keeps it, and for the
    input [helo wrold], the language [English] and the mood
    [professional] the prompt of the one model call has neither the
    input nor the word English in it. *)
Lemma own_english_prompt_drops_input :
  let resolved :=
    snd (initConfig EmptyString false (Samples.sourceOf Samples.ownEnglishPrompt)) in
  let run :=
    fixCommand (H := Samples.plainTables)
      (Samples.worldTyping "helo wrold" "Hello, world.") false resolved
      (Samples.given ["language"; "mood"])
      {| language := "English"; promptKey := EmptyString;
         englishShorthand := false; moodKey := "professional" |} in
  let prompt :=
    "Polish this. Additionally, adjust the tone of the text to be highly professional, formal, and objective. Avoid colloquialisms and ensure a polished, business-like feel." in
  EnglishFixOnly (Prompts resolved) = "Polish this. {MOOD_INSTRUCTION}" /\
  List.filter externalCall (trace run)
  = [RunEditor "nvim"; NewClient "secret";
     GenerateContent "gemini-1.5-flash-latest" prompt;
     WriteClipboard "Hello, world."] /\
  status run = ExitSuccess /\
  Contains prompt "helo wrold" = false /\
  Contains prompt "English" = false.
Proof.
  cbv zeta. repeat split; vm_compute; reflexivity.
Qed.

(** C2 on the built-in configuration, no flags given. *)
Lemma neutral_asymmetry_witness :
  let cfg := defaultCfg in
  let none := Samples.given [] in
  fixChooseTemplate (H := Samples.plainTables) cfg Samples.noFixFlags
  = ([], Next (Default defaultPromptsConfig, "Norwegian")) /\
  Default defaultPromptsConfig <> EmptyString /\
  AnswerQuestion (Prompts cfg) <> EmptyString /\
  fixResolveMood cfg none Samples.noFixFlags = ([], Next ("neutral", EmptyString)) /\
  answerResolveMood cfg none Samples.noAnswerFlags = ([], Next ("neutral", EmptyString)) /\
  (exists a pieces,
      answerAssemble cfg none Samples.noAnswerFlags = ([], Next a) /\
      promptWithMood a
      = ReplaceAll (AnswerQuestion (Prompts cfg)) "{MOOD_INSTRUCTION}"
          "Answer in a standard, helpful, and informative tone." /\
      Forall (fun piece => Contains piece "{MOOD_INSTRUCTION}" = false) pieces /\
      AnswerQuestion (Prompts cfg) = joinWith "{MOOD_INSTRUCTION}" pieces /\
      promptWithMood a
      = joinWith "Answer in a standard, helpful, and informative tone." pieces) /\
  (exists a pieces,
      fixAssemble (H := Samples.plainTables) cfg none Samples.noFixFlags
      = ([] ++ [], Next a) /\
      promptWithMood a
      = ReplaceAll (Default defaultPromptsConfig) "{MOOD_INSTRUCTION}" EmptyString /\
      Forall (fun piece => Contains piece "{MOOD_INSTRUCTION}" = false) pieces /\
      Default defaultPromptsConfig = joinWith "{MOOD_INSTRUCTION}" pieces /\
      promptWithMood a = joinWith EmptyString pieces).
Proof.
  cbv zeta.
  assert (h1 : fixChooseTemplate (H := Samples.plainTables) defaultCfg Samples.noFixFlags
               = ([], Next (Default defaultPromptsConfig, "Norwegian")))
    by (vm_compute; reflexivity).
  assert (h2 : Default defaultPromptsConfig <> EmptyString) by discriminate.
  assert (h3 : AnswerQuestion (Prompts defaultCfg) <> EmptyString)
    by (intros E; vm_compute in E; discriminate E).
  assert (h4 : fixResolveMood defaultCfg (Samples.given []) Samples.noFixFlags
               = ([], Next ("neutral", EmptyString))) by (vm_compute; reflexivity).
  assert (h5 : answerResolveMood defaultCfg (Samples.given []) Samples.noAnswerFlags
               = ([], Next ("neutral", EmptyString))) by (vm_compute; reflexivity).
  pose proof (neutral_asymmetry (H := Samples.plainTables) defaultCfg (Samples.given [])
                Samples.noFixFlags Samples.noAnswerFlags [] [] []
                (Default defaultPromptsConfig) "Norwegian" h1 h2 h3 h4 h5) as [Wa Wf].
  exact (conj h1 (conj h2 (conj h3 (conj h4 (conj h5 (conj Wa Wf)))))).
Defined.

(** C4 for [--mood bogus] on the built-in configuration. *)
Lemma unknown_mood_falls_back_witness :
  let cfg := defaultCfg in
  let flags := Samples.given ["mood"] in
  Moods cfg !! "bogus" = None /\
  (if flags "mood" then moodKey (Samples.fixMood "bogus") else DefaultMood cfg)
  = "bogus" /\
  (if flags "mood" then answerMoodKey (Samples.answerMood "bogus") else DefaultMood cfg)
  = "bogus" /\
  "bogus" <> EmptyString /\
  (exists warning,
      HasPrefix warning "Warning: Mood key '" = true /\
      fixResolveMood cfg flags (Samples.fixMood "bogus")
      = ([Stdout warning], Next ("bogus", EmptyString))) /\
  fixResolveMood cfg flags (Samples.fixMood "neutral")
  = ([], Next ("neutral", EmptyString)).
Proof.
  cbv zeta.
  assert (h1 : Moods defaultCfg !! "bogus" = None) by (vm_compute; reflexivity).
  assert (h2 : (if Samples.given ["mood"] "mood"
                then moodKey (Samples.fixMood "bogus") else DefaultMood defaultCfg)
               = "bogus") by reflexivity.
  assert (h3 : (if Samples.given ["mood"] "mood"
                then answerMoodKey (Samples.answerMood "bogus")
                else DefaultMood defaultCfg)
               = "bogus") by reflexivity.
  assert (h4 : "bogus" <> EmptyString) by discriminate.
  assert (h5 : Moods defaultCfg !! DefaultMood defaultCfg
               = Some {| Description := "Standard correction without specific tone alteration. Relies on base prompt's natural styling.";
                         Instruction := EmptyString |})
    by (vm_compute; reflexivity).
  destruct (unknown_mood_falls_back defaultCfg (Samples.given ["mood"]) "bogus"
              (Samples.fixMood "bogus") (Samples.answerMood "bogus") h1 h2 h3)
    as [W _].
  destruct (W _ h4 h5) as (Wf & _ & Wd & _).
  exact (conj h1 (conj h2 (conj h3 (conj h4 (conj Wf (Wd (Samples.fixMood "neutral") eq_refl)))))).
Defined.

(** C5 for [--prompt Bogus] on the built-in configuration. *)
Lemma fix_template_selection_witness :
  let v := {| language := EmptyString; promptKey := "Bogus";
              englishShorthand := false; moodKey := EmptyString |} in
  promptKey v <> EmptyString /\
  ToLower (H := Samples.plainTables) (promptKey v) <> "default" /\
  ToLower (H := Samples.plainTables) (promptKey v) <> "english_fix_only" /\
  exists warning,
    HasPrefix warning "Warning: Unknown prompt key '" = true /\
    fixChooseTemplate (H := Samples.plainTables) defaultCfg v
    = ([Stdout warning], Next (Default defaultPromptsConfig, "Norwegian")).
Proof.
  cbv zeta.
  set (v := {| language := EmptyString; promptKey := "Bogus";
               englishShorthand := false; moodKey := EmptyString |}).
  assert (h1 : promptKey v <> EmptyString) by discriminate.
  assert (h2 : ToLower (H := Samples.plainTables) (promptKey v) <> "default")
    by (vm_compute; discriminate).
  assert (h3 : ToLower (H := Samples.plainTables) (promptKey v) <> "english_fix_only")
    by (vm_compute; discriminate).
  destruct (fix_template_selection (H := Samples.plainTables) defaultCfg v) as [W _].
  destruct (W h1) as (_ & _ & Wu).
  exact (conj h1 (conj h2 (conj h3 (Wu h2 h3)))).
Defined.

(** C6 for [--english --language German]. *)
Lemma english_flag_witness :
  let v := {| language := "German"; promptKey := EmptyString;
              englishShorthand := true; moodKey := EmptyString |} in
  let w := Samples.worldTyping "helo wrold" "hello world" in
  englishShorthand v = true /\
  language v <> EmptyString /\
  EqualFold (H := Samples.plainTables) (language v) "English" = false /\
  fixCommand (H := Samples.plainTables) w false defaultCfg (Samples.given ["english"; "language"]) v
  = ([Stderr ("--english flag is incompatible with --language specifying a different language than English" +:+ nl)],
     Exit ExitFailure).
Proof.
  cbv zeta.
  set (v := {| language := "German"; promptKey := EmptyString;
               englishShorthand := true; moodKey := EmptyString |}).
  assert (h1 : englishShorthand v = true) by reflexivity.
  assert (h2 : language v <> EmptyString) by discriminate.
  assert (h3 : EqualFold (H := Samples.plainTables) (language v) "English" = false)
    by reflexivity.
  destruct (english_flag (H := Samples.plainTables)
              (Samples.worldTyping "helo wrold" "hello world") false defaultCfg
              (Samples.given ["english"; "language"]) EmptyString
              (Samples.sourceOf Samples.zeroConfig) v h1) as [W _].
  destruct (W h2 h3) as [Wc _].
  exact (conj h1 (conj h2 (conj h3 Wc))).
Defined.

(** C7 for [qik fix --language English --mood professional] on the
    built-in configuration, with [helo wrold] typed into the editor. *)
Lemma fix_prompt_pipeline_witness :
  let w := Samples.worldTyping "helo wrold" "Hello, world." in
  let flags := Samples.given ["language"; "mood"] in
  Getenv w "GEMINI_API_KEY" = "secret" /\
  "secret" <> EmptyString /\
  genaiNewClient w "secret" = None /\
  GetTextFromEditor w (Editor defaultCfg) = Ok "helo wrold" /\
  flags "mood" = true /\
  exists c prompt,
    In (GenerateContent (ai.model c) prompt)
       (trace (fixCommand (H := Samples.plainTables) w false defaultCfg flags
                 {| language := "English"; promptKey := EmptyString;
                    englishShorthand := false; moodKey := "professional" |})) /\
    Contains prompt "helo wrold" = true /\
    Contains prompt "English" = true /\
    Contains prompt "Additionally, adjust the tone of the text to be highly professional, formal, and objective. Avoid colloquialisms and ensure a polished, business-like feel." = true /\
    Contains prompt "{MOOD_INSTRUCTION}" = false.
Proof.
  cbv zeta.
  assert (h4 : "secret" <> EmptyString) by discriminate.
  assert (h5 : getDefaultMoods !! "professional"
               = Some {| Description := "Refine text to be formal, objective, and suitable for business or academic contexts.";
                         Instruction := "Additionally, adjust the tone of the text to be highly professional, formal, and objective. Avoid colloquialisms and ensure a polished, business-like feel." |})
    by (vm_compute; reflexivity).
  destruct (fix_prompt_pipeline (H := Samples.plainTables)
              (Samples.worldTyping "helo wrold" "Hello, world.") false defaultCfg
              (Samples.given ["language"; "mood"])) as (_ & _ & W).
  pose proof (W "secret" _ eq_refl h4 eq_refl eq_refl eq_refl eq_refl h5 h5) as Wp.
  exact (conj eq_refl (conj h4 (conj eq_refl (conj eq_refl (conj eq_refl Wp))))).
Defined.

(** C8 for an editor session that leaves two spaces and a newline. *)
Lemma blank_input_cancels_witness :
  let blank := String " " (String " " nl) in
  let w := Samples.worldTyping blank "unused" in
  let none := Samples.given [] in
  GetTextFromEditor w (Editor defaultCfg) = Ok blank /\
  TrimSpace (H := Samples.plainTables) blank = EmptyString /\
  In (RunEditor (Editor defaultCfg))
     (trace (fixCommand (H := Samples.plainTables) w false defaultCfg none
               Samples.noFixFlags)) /\
  status (fixCommand (H := Samples.plainTables) w false defaultCfg none Samples.noFixFlags)
  = ExitSuccess /\
  In (RunEditor (Editor defaultCfg))
     (trace (answerRun (H := Samples.plainTables) w false defaultCfg none
               Samples.noAnswerFlags)) /\
  status (answerRun (H := Samples.plainTables) w false defaultCfg none
            Samples.noAnswerFlags)
  = ExitSuccess.
Proof.
  cbv zeta.
  set (blank := String " " (String " " nl)).
  set (w := Samples.worldTyping blank "unused").
  assert (h1 : GetTextFromEditor w (Editor defaultCfg) = Ok blank) by reflexivity.
  assert (h2 : TrimSpace (H := Samples.plainTables) blank = EmptyString) by reflexivity.
  assert (h3 : In (RunEditor (Editor defaultCfg))
                  (trace (fixCommand (H := Samples.plainTables) w false defaultCfg
                            (Samples.given []) Samples.noFixFlags)))
    by (vm_compute; auto).
  assert (h4 : In (RunEditor (Editor defaultCfg))
                  (trace (answerRun (H := Samples.plainTables) w false defaultCfg
                            (Samples.given []) Samples.noAnswerFlags)))
    by (vm_compute; auto).
  destruct (blank_input_cancels (H := Samples.plainTables) w false defaultCfg
              (Samples.given []) Samples.noFixFlags Samples.noAnswerFlags blank h1 h2)
    as [Wf Wa].
  destruct (Wf h3) as [Wfs _]. destruct (Wa h4) as [Was _].
  exact (conj h1 (conj h2 (conj h3 (conj Wfs (conj h4 Was))))).
Defined.

(** C9 for [--mood bogus] on the built-in configuration. *)
Lemma fallback_mood_key_witness :
  let cfg := defaultCfg in
  let flags := Samples.given ["mood"] in
  flags "mood" = true /\
  Moods cfg !! "bogus" = None /\
  is_Some (Moods cfg !! DefaultMood cfg) /\
  snd (answerResolveMood cfg flags (Samples.answerMood "bogus"))
  = Next ("neutral", EmptyString) /\
  snd (fixResolveMood cfg flags (Samples.fixMood "bogus"))
  = Next ("bogus", EmptyString) /\
  exists t a,
    answerAssemble cfg flags (Samples.answerMood "bogus") = (t, Next a) /\
    selectedMoodKey a = "neutral" /\
    promptWithMood a
    = ReplaceAll (AnswerQuestion (Prompts cfg)) "{MOOD_INSTRUCTION}" neutralFallback.
Proof.
  cbv zeta.
  assert (h1 : Samples.given ["mood"] "mood" = true) by reflexivity.
  assert (h2 : Moods defaultCfg !! "bogus" = None) by (vm_compute; reflexivity).
  assert (h3 : Moods defaultCfg !! DefaultMood defaultCfg
               = Some {| Description := "Standard correction without specific tone alteration. Relies on base prompt's natural styling.";
                         Instruction := EmptyString |})
    by (vm_compute; reflexivity).
  assert (h4 : AnswerQuestion (Prompts defaultCfg) <> EmptyString)
    by (intros E; vm_compute in E; discriminate E).
  destruct (fallback_mood_key defaultCfg (Samples.given ["mood"]) "bogus"
              (Samples.fixMood "bogus") (Samples.answerMood "bogus") _
              h1 eq_refl eq_refl h2 h3) as (Wa & Wf & Wn).
  exact (conj h1 (conj h2 (conj (ex_intro _ _ h3)
           (conj Wa (conj Wf (Wn eq_refl eq_refl h4)))))).
Defined.

(** C10 for a question that mentions the placeholder, asked in
    English. *)
Lemma language_substituted_in_input_witness :
  let text := "What does {LANGUAGE} stand for?" in
  let template := AnswerQuestion defaultPromptsConfig in
  lacks "{" "English" = true /\
  lacks "}" "English" = true /\
  Contains "LANGUAGE" "English" = false /\
  Contains text "{LANGUAGE}" = true /\
  Contains (ai.finalPrompt text template "English") "{LANGUAGE}" = false /\
  Contains (ai.finalPrompt text template "English") text = false.
Proof.
  cbv zeta.
  destruct (language_substituted_in_input "What does {LANGUAGE} stand for?"
              (AnswerQuestion defaultPromptsConfig) "English" eq_refl eq_refl eq_refl)
    as (_ & _ & Wc & Wt).
  exact (conj eq_refl (conj eq_refl (conj eq_refl (conj eq_refl (conj Wc (Wt eq_refl)))))).
Defined.

(** * Further properties *)

(** ** What reaches the model *)

Section Delivery.

Lemma HasPrefix_refl (s : string) : HasPrefix s s = true.
Proof. rewrite <- (append_empty_r s) at 1. apply HasPrefix_append. Qed.

(** Where [old] occurred, [new] stands afterwards. *)
Lemma ReplaceAll_inserts (old new s : string) :
  old <> EmptyString ->
  Contains s old = true -> Contains (ReplaceAll s old new) new = true.
Proof.
  intros Hold. pattern s. apply (replace_ind old); [exact Hold | | |]; clear s.
  - intros Hc. simpl in Hc. rewrite orb_false_r in Hc.
    destruct old; [congruence | discriminate].
  - intros s _ _. rewrite ReplaceAll_match by exact Hold.
    apply Contains_append_l, Contains_here, HasPrefix_refl.
  - intros c s Hs IH Hc. rewrite Contains_unfold, Hs in Hc.
    rewrite ReplaceAll_skip by exact Hs. apply Contains_later, IH, Hc.
Qed.

(** Nothing that is apart from [w] begins inside [w]. *)
Lemma Contains_past_apart (u w s : string) :
  apart u w = true -> Contains (w +:+ s) u = Contains s u.
Proof.
  induction w as [|x w IH]; intros Ha; [reflexivity|].
  rewrite apart_cons in Ha. apply andb_true_iff in Ha as [Ha Hw].
  apply andb_true_iff in Ha as [Ha1 Ha2]. apply negb_true_iff in Ha1, Ha2.
  rewrite append_cons, Contains_unfold, (IH Hw).
  destruct (HasPrefix (String x (w +:+ s)) u) eqn:Hp; [|reflexivity].
  rewrite <- append_cons in Hp.
  apply HasPrefix_comparable in Hp as [Hp|Hp]; congruence.
Qed.

(** A text without the first byte of [old] is copied as it is. *)
Lemma ReplaceAll_copies (o : ascii) (w u new s : string) :
  lacks o u = true ->
  ReplaceAll (u +:+ s) (String o w) new = u +:+ ReplaceAll s (String o w) new.
Proof.
  induction u as [|c u IH]; intros Hl; [reflexivity|].
  apply lacks_cons in Hl as [Hc Hl].
  rewrite !append_cons, ReplaceAll_skip, (IH Hl); [reflexivity|].
  rewrite HasPrefix_cons. apply Ascii.eqb_neq in Hc. now rewrite Hc.
Qed.

Lemma apart_token (o e : ascii) (body u : string) :
  lacks o u = true -> lacks e u = true -> Contains body u = false ->
  apart u (String o (body +:+ String e EmptyString)) = true.
Proof.
  intros Ho He Hb.
  rewrite apart_cons, (apart_body e body u He Hb), andb_true_r.
  destruct u as [|c u]; [now destruct body|].
  apply lacks_cons in Ho as [Hc _]. apply Ascii.eqb_neq in Hc.
  rewrite !HasPrefix_cons, Hc.
  rewrite Ascii.eqb_sym, Hc. reflexivity.
Qed.

(** A text without the braces that is no fragment of the token's
    body survives the replacement of the token. *)
Lemma ReplaceAll_keeps_plain (o e : ascii) (body u new s : string) :
  lacks o u = true -> lacks e u = true -> Contains body u = false ->
  Contains s u = true ->
  Contains (ReplaceAll s (String o (body +:+ String e EmptyString)) new) u = true.
Proof.
  intros Ho He Hb. apply ReplaceAll_keeps; [discriminate | |].
  - intros r. now rewrite Contains_past_apart by (apply apart_token; assumption).
  - intros r. now apply ReplaceAll_copies.
Qed.

Lemma language_survives_text (template text : string) :
  Contains template "{LANGUAGE}" = true ->
  Contains (ReplaceAll template "{TEXT}" text) "{LANGUAGE}" = true.
Proof.
  apply ReplaceAll_keeps; [discriminate | |].
  - intros s. rewrite !append_cons, append_nil.
    rewrite !Contains_unfold. cbn [HasPrefix Ascii.eqb Bool.eqb andb orb]. auto.
  - intros s. rewrite !append_cons, append_nil.
    now rewrite !ReplaceAll_skip by reflexivity.
Qed.

(** X1.  The input text in the final prompt of [ProcessText]. A template
    without [{TEXT}] gives the same prompt for every input; with
    [{TEXT}], an input without braces that is no fragment of the word
    LANGUAGE stands in the prompt as it was typed, whatever the
    language. *)
Theorem input_reaches_prompt (text template language : string) :
  (Contains template "{TEXT}" = false ->
   forall other, ai.finalPrompt text template language
                 = ai.finalPrompt other template language) /\
  (Contains template "{TEXT}" = true ->
   lacks "{" text = true -> lacks "}" text = true ->
   Contains "LANGUAGE" text = false ->
   Contains (ai.finalPrompt text template language) text = true).
Proof.
  split.
  - intros Hno other. unfold ai.finalPrompt.
    now rewrite (ReplaceAll_absent "{TEXT}" text template Hno),
      (ReplaceAll_absent "{TEXT}" other template Hno).
  - intros Htpl Ho Hc Hf. unfold ai.finalPrompt.
    apply (ReplaceAll_keeps_plain "{" "}" "LANGUAGE"); try assumption.
    apply ReplaceAll_inserts; [discriminate | exact Htpl].
Qed.

(** X2.  The language in the final prompt of [ProcessText]: with
    [{LANGUAGE}] in the template it is there, whatever the input. *)
Theorem language_reaches_prompt (text template language : string) :
  Contains template "{LANGUAGE}" = true ->
  Contains (ai.finalPrompt text template language) language = true.
Proof.
  intros Htpl. unfold ai.finalPrompt.
  apply ReplaceAll_inserts; [discriminate|]. now apply language_survives_text.
Qed.

End Delivery.

(** ** The resolved configuration *)

Section Resolved.
Variable verbose : bool.

Lemma staleFixPrompt_repaired (s d : string) :
  staleFixPrompt d = false -> staleFixPrompt (if staleFixPrompt s then d else s) = false.
Proof. intros Hd. now destruct (staleFixPrompt s) eqn:Hs. Qed.

Lemma isEmpty_repaired (s d : string) :
  isEmpty d = false -> isEmpty (if isEmpty s then d else s) = false.
Proof. intros Hd. now destruct (isEmpty s) eqn:Hs. Qed.

Lemma moods_repaired (m : gmap string MoodInstruction) :
  bool_decide (size (if bool_decide (size m = 0) then getDefaultMoods else m) = 0)
  = false.
Proof.
  apply bool_decide_eq_false. case_bool_decide as Hm; [|exact Hm].
  now rewrite getDefaultMoods_size.
Qed.

Lemma applyDefaults_wellFormed (loaded : Config) :
  wellFormed (snd (applyDefaults verbose loaded)) = true.
Proof.
  unfold wellFormed, applyDefaults.
  cbn [snd DefaultLanguage Editor GeminiModel DefaultMood Prompts Default
       EnglishFixOnly ExplainText AnswerQuestion Moods].
  rewrite !isEmpty_repaired, !staleFixPrompt_repaired, moods_repaired;
    solve [reflexivity | vm_compute; reflexivity].
Qed.

Lemma wellFormed_fields (cfg : Config) :
  wellFormed cfg = true ->
  isEmpty (DefaultLanguage cfg) = false /\ isEmpty (Editor cfg) = false /\
  isEmpty (GeminiModel cfg) = false /\ isEmpty (DefaultMood cfg) = false /\
  staleFixPrompt (Default (Prompts cfg)) = false /\
  staleFixPrompt (EnglishFixOnly (Prompts cfg)) = false /\
  isEmpty (ExplainText (Prompts cfg)) = false /\
  isEmpty (AnswerQuestion (Prompts cfg)) = false /\
  bool_decide (size (Moods cfg) = 0) = false.
Proof.
  unfold wellFormed. rewrite !andb_true_iff, !negb_true_iff. tauto.
Qed.

Lemma applyDefaults_fixes (cfg : Config) :
  wellFormed cfg = true -> applyDefaults verbose cfg = ([], cfg).
Proof.
  intros Hw.
  destruct (wellFormed_fields cfg Hw) as (H1 & H2 & H3 & H4 & H5 & H6 & H7 & H8 & H9).
  unfold applyDefaults. rewrite H1, H2, H3, H4, H5, H6, H7, H8, H9.
  destruct cfg as [? ? ? ? ? ? []]. reflexivity.
Qed.

(** X3.  The defaults of [initConfig] make every configuration
    well-formed, and leave a well-formed one as it is, without a
    diagnostic; so applying them a second time changes nothing and
    prints nothing. *)
Theorem applyDefaults_settles (loaded : Config) :
  wellFormed (snd (applyDefaults verbose loaded)) = true /\
  (wellFormed loaded = true -> applyDefaults verbose loaded = ([], loaded)) /\
  applyDefaults verbose (snd (applyDefaults verbose loaded))
  = ([], snd (applyDefaults verbose loaded)).
Proof.
  split; [apply applyDefaults_wellFormed|]. split; [apply applyDefaults_fixes|].
  apply applyDefaults_fixes, applyDefaults_wellFormed.
Qed.


End Resolved.

Section ResolvedRuns.
Context `{Unicode}.
Variables (AppConfig : Config) (Changed : string -> bool).

(** [fix] always finds a template: the default or the
    english_fix_only one. *)
Lemma fixChooseTemplate_chooses (v : FixVars) :
  exists t template language,
    fixChooseTemplate AppConfig v = (t, Next (template, language)) /\
    (template = Default (Prompts AppConfig)
     \/ template = EnglishFixOnly (Prompts AppConfig)).
Proof.
  unfold fixChooseTemplate.
  repeat match goal with
         | |- context [if ?b then _ else _] => destruct b
         end; eexists _, _, _; (split; [reflexivity|]); auto.
Qed.

(** Mood resolution never ends the command. *)
Lemma fixResolveMood_goes_on (v : FixVars) :
  exists t key instruction,
    fixResolveMood AppConfig Changed v = (t, Next (key, instruction)).
Proof.
  unfold fixResolveMood.
  destruct (Moods AppConfig !! _); [eexists _, _, _; reflexivity|].
  destruct (negb _ && negb _); destruct (Moods AppConfig !! _);
    eexists _, _, _; reflexivity.
Qed.

Lemma answerResolveMood_goes_on (v : AnswerVars) :
  exists t key instruction,
    answerResolveMood AppConfig Changed v = (t, Next (key, instruction)).
Proof.
  unfold answerResolveMood.
  destruct (Moods AppConfig !! _); [eexists _, _, _; reflexivity|].
  destruct (negb _ && negb _); destruct (Moods AppConfig !! _);
    eexists _, _, _; reflexivity.
Qed.

Lemma staleFixPrompt_false (s : string) :
  staleFixPrompt s = false ->
  s <> EmptyString /\ Contains s "{MOOD_INSTRUCTION}" = true.
Proof.
  unfold staleFixPrompt. intros Hs. apply orb_false_iff in Hs as [He Hc].
  apply negb_false_iff in Hc. now apply isEmpty_false in He.
Qed.

Lemma wellFormed_runs (vf : FixVars) (va : AnswerVars) :
  wellFormed AppConfig = true ->
  (exists t a template,
      fixAssemble AppConfig Changed vf = (t, Next a) /\
      Contains template "{MOOD_INSTRUCTION}" = true /\
      exists t0 language,
        fixChooseTemplate AppConfig vf = (t0, Next (template, language))) /\
  (exists t a, answerAssemble AppConfig Changed va = (t, Next a)) /\
  requireExplainTemplate AppConfig = ([], Next (ExplainText (Prompts AppConfig))) /\
  (forall w apiKey,
      genaiNewClient w apiKey = None ->
      newClient w AppConfig apiKey
      = ([NewClient apiKey], Next {| ai.model := GeminiModel AppConfig |})).
Proof.
  intros Hw.
  destruct (wellFormed_fields _ Hw) as (_ & _ & Hmodel & _ & Hd & He & Hx & Ha & _).
  apply staleFixPrompt_false in Hd as [Hd1 Hd2], He as [He1 He2].
  repeat split.
  - destruct (fixChooseTemplate_chooses vf) as (t0 & tpl & lang & Hsel & Htpl).
    destruct (fixResolveMood_goes_on vf) as (t1 & key & mood & Hmood).
    assert (Hne : tpl <> EmptyString) by (destruct Htpl; subst; assumption).
    eexists _, _, tpl.
    split; [exact (fixAssemble_done AppConfig Changed vf _ _ _ _ _ _ Hsel Hne Hmood)|].
    split; [destruct Htpl; subst; assumption|]. eauto.
  - destruct (answerResolveMood_goes_on va) as (t1 & key & mood & Hmood).
    eexists _, _. apply (answerAssemble_done AppConfig Changed va _ _ _ Hmood).
    now apply isEmpty_false.
  - unfold requireExplainTemplate. now rewrite Hx.
  - intros w apiKey Hnew. unfold newClient, ai.NewGeminiClient.
    now rewrite Hnew, Hmodel.
Qed.

End ResolvedRuns.

(** What [initConfig] leaves behind is well-formed. *)
Lemma initConfig_wellFormed (cfgFile : string) (verbose : bool) (src : ConfigSource) :
  wellFormed (snd (initConfig cfgFile verbose src)) = true.
Proof. rewrite initConfig_resolved. apply applyDefaults_wellFormed. Qed.

(** X5.  After [initConfig] none of the checks for a missing template
    ends a command: [fix] and [answer] assemble a prompt, [explain] has
    its template, the template [fix] chooses mentions the mood
    placeholder, and the model client is made for the configured model,
    without the warning about an empty model name. *)
Theorem resolved_never_fatal `{Unicode} (cfgFile : string) (verbose : bool)
    (src : ConfigSource) (Changed : string -> bool) (vf : FixVars) (va : AnswerVars) :
  let AppConfig := snd (initConfig cfgFile verbose src) in
  (exists t a template,
      fixAssemble AppConfig Changed vf = (t, Next a) /\
      Contains template "{MOOD_INSTRUCTION}" = true /\
      exists t0 language,
        fixChooseTemplate AppConfig vf = (t0, Next (template, language))) /\
  (exists t a, answerAssemble AppConfig Changed va = (t, Next a)) /\
  requireExplainTemplate AppConfig = ([], Next (ExplainText (Prompts AppConfig))) /\
  (forall w apiKey,
      genaiNewClient w apiKey = None ->
      newClient w AppConfig apiKey
      = ([NewClient apiKey], Next {| ai.model := GeminiModel AppConfig |})).
Proof.
  cbv zeta. apply wellFormed_runs, initConfig_wellFormed.
Qed.

(** ** The default configuration file *)

Section DefaultFile.
Variables (cfgFile : string) (verbose : bool) (src : ConfigSource).

Lemma printVerbose_no_file (text : string) :
  Forall (fun e => fileOp e = false) (printVerbose verbose text).
Proof. unfold printVerbose. destruct verbose; repeat constructor. Qed.

Ltac no_file :=
  repeat first
    [ apply Forall_nil_2
    | apply Forall_cons_2; [reflexivity|]
    | apply Forall_app_2
    | apply printVerbose_no_file
    | match goal with
      | |- Forall _ (if ?b then _ else _) => destruct b
      end ].

Lemma applyDefaults_no_file (loaded : Config) :
  Forall (fun e => fileOp e = false) (fst (applyDefaults verbose loaded)).
Proof. unfold applyDefaults. cbn [fst]. no_file. Qed.

Lemma no_file_In (t : list Event) (e : Event) :
  Forall (fun e => fileOp e = false) t -> In e t -> fileOp e = false.
Proof. intros Ht He. rewrite Forall_forall in Ht. apply Ht. now apply list_elem_of_In. Qed.

(** The file operations of [createDefaultConfig]: the directory of
    the path is made only when it does not exist, and the one file
    written is the path given, with the built-in configuration as YAML. *)
Lemma createDefaultConfig_file_ops (configPath : string) (e : Event) :
  In e (fst (createDefaultConfig verbose src configPath)) -> fileOp e = true ->
  (e = MkdirAll (pathDir src configPath)
   /\ statIsNotExist src (pathDir src configPath) = true)
  \/ (exists yamlData,
         e = WriteFile configPath yamlData /\ yamlMarshal src defaultCfg = Ok yamlData).
Proof.
  unfold createDefaultConfig, bindF.
  destruct (statIsNotExist src _) eqn:Hstat; [destruct (osMkdirAll src _)|];
    destruct (yamlMarshal src defaultCfg) as [yamlData|] eqn:Hyaml;
    try destruct (osWriteFile src configPath yamlData);
    cbn [fst]; intros Hin Hop;
    repeat match goal with
           | H : In _ (_ ++ _) |- _ => apply in_app_or in H as [H|H]
           | H : In _ (_ :: _) |- _ => destruct H as [H|H]
           | H : In _ [] |- _ => destruct H
           | H : In _ (printVerbose _ _) |- _ =>
               apply (no_file_In _ _ (printVerbose_no_file _)) in H; congruence
           end;
    subst; try discriminate; eauto.
Qed.

Lemma initConfig_file_ops (e : Event) :
  In e (fst (initConfig cfgFile verbose src)) -> fileOp e = true ->
  exists err defaultPath,
    ReadInConfig src = ConfigFileNotFoundError err /\
    getDefaultConfigPath src = Ok defaultPath /\
    ((e = MkdirAll (pathDir src defaultPath)
      /\ statIsNotExist src (pathDir src defaultPath) = true)
     \/ (exists yamlData,
            e = WriteFile defaultPath yamlData
            /\ yamlMarshal src defaultCfg = Ok yamlData)).
Proof.
  unfold initConfig, loadConfig.
  pose proof (applyDefaults_no_file (fst (Unmarshal src))) as Hd.
  destruct (applyDefaults verbose (fst (Unmarshal src))) as [t' resolved].
  cbn [fst] in Hd |- *. intros Hin Hop.
  apply in_app_or in Hin as [Hin|Hin];
    [|apply (no_file_In _ _ Hd) in Hin; congruence].
  apply in_app_or in Hin as [Hin|Hin].
  { destruct (isEmpty cfgFile); [destruct (UserHomeDir src)|];
      repeat (destruct Hin as [Hin|Hin]; [subst; discriminate|]); destruct Hin. }
  apply in_app_or in Hin as [Hin|Hin].
  2:{ destruct (snd (Unmarshal src));
        repeat (destruct Hin as [Hin|Hin]; [subst; discriminate|]); destruct Hin. }
  destruct (ReadInConfig src) as [|err|err] eqn:Hread.
  - apply (no_file_In _ _ (printVerbose_no_file _)) in Hin. congruence.
  - destruct Hin as [Hin|Hin]; [subst; discriminate|].
    destruct (getDefaultConfigPath src) as [defaultPath|] eqn:Hpath.
    + exists err, defaultPath. split; [reflexivity|]. split; [reflexivity|].
      pose proof (createDefaultConfig_file_ops defaultPath e) as Hc.
      destruct (createDefaultConfig verbose src defaultPath) as [t [u|createErr]];
        cbn [fst] in Hc; apply in_app_or in Hin as [Hin|Hin]; auto.
      * destruct (ReadInConfigAgain src).
        -- repeat (destruct Hin as [Hin|Hin]; [subst; discriminate|]); destruct Hin.
        -- apply (no_file_In _ _ (printVerbose_no_file _)) in Hin. congruence.
      * repeat (destruct Hin as [Hin|Hin]; [subst; discriminate|]); destruct Hin.
    + repeat (destruct Hin as [Hin|Hin]; [subst; discriminate|]); destruct Hin.
  - repeat (destruct Hin as [Hin|Hin]; [subst; discriminate|]); destruct Hin.
Qed.

Lemma createDefaultConfig_writes (configPath yamlData : string) :
  (statIsNotExist src (pathDir src configPath) = true ->
   osMkdirAll src (pathDir src configPath) = None) ->
  yamlMarshal src defaultCfg = Ok yamlData ->
  In (WriteFile configPath yamlData) (fst (createDefaultConfig verbose src configPath)).
Proof.
  intros Hdir Hyaml. unfold createDefaultConfig, bindF. rewrite Hyaml.
  destruct (statIsNotExist src (pathDir src configPath));
    [rewrite (Hdir eq_refl)|];
    destruct (osWriteFile src configPath yamlData); cbn [fst];
    repeat first [ left; reflexivity | apply in_or_app; right | right ].
Qed.

(** X6.  [initConfig] touches the file system only when no configuration
    file was found: any directory it makes is the directory of the
    default path, and any file it writes is the default path, with the
    built-in configuration as YAML. A file that was found, or that could
    not be read, is never written over. And when none was found, the
    default path is known, its directory is there or can be made and the
    built-in configuration can be encoded, the file is written. *)
Theorem default_file_only_when_missing :
  (forall e,
      In e (fst (initConfig cfgFile verbose src)) -> fileOp e = true ->
      exists err defaultPath,
        ReadInConfig src = ConfigFileNotFoundError err /\
        getDefaultConfigPath src = Ok defaultPath /\
        ((e = MkdirAll (pathDir src defaultPath)
          /\ statIsNotExist src (pathDir src defaultPath) = true)
         \/ (exists yamlData,
                e = WriteFile defaultPath yamlData
                /\ yamlMarshal src defaultCfg = Ok yamlData))) /\
  (forall err defaultPath yamlData,
      ReadInConfig src = ConfigFileNotFoundError err ->
      getDefaultConfigPath src = Ok defaultPath ->
      (statIsNotExist src (pathDir src defaultPath) = true ->
       osMkdirAll src (pathDir src defaultPath) = None) ->
      yamlMarshal src defaultCfg = Ok yamlData ->
      In (WriteFile defaultPath yamlData) (fst (initConfig cfgFile verbose src))).
Proof.
  split; [exact initConfig_file_ops|].
  intros err defaultPath yamlData Hread Hpath Hdir Hyaml.
  pose proof (createDefaultConfig_writes defaultPath yamlData Hdir Hyaml) as Hw.
  unfold initConfig, loadConfig. rewrite Hread, Hpath.
  destruct (applyDefaults verbose (fst (Unmarshal src))) as [t' resolved].
  cbn [fst]. apply in_or_app. left. apply in_or_app. right. apply in_or_app. left.
  right.
  destruct (createDefaultConfig verbose src defaultPath) as [t [u|createErr]];
    cbn [fst] in Hw; apply in_or_app; now left.
Qed.

End DefaultFile.

(** ** How a command ends *)

Section Endings.
Context {A B : Type}.

Lemma fst_bind_Next (c : Proc A) (k : A -> Proc B) (t : list Event) (a : A) :
  c = (t, Next a) -> fst (bind c k) = t ++ fst (k a).
Proof. intros ->. simpl. now destruct (k a). Qed.

Lemma snd_bind_Next (c : Proc A) (k : A -> Proc B) (t : list Event) (a : A) :
  c = (t, Next a) -> snd (bind c k) = snd (k a).
Proof. intros ->. simpl. now destruct (k a). Qed.

Lemma fatalLast_bind (c : Proc A) (k : A -> Proc B) :
  fatalLast c -> (forall a, fatalLast (k a)) -> fatalLast (bind c k).
Proof.
  unfold fatalLast. intros Hc Hk. destruct c as [t [a|code]]; [|exact Hc].
  rewrite (fst_bind_Next _ k t a eq_refl), (snd_bind_Next _ k t a eq_refl).
  specialize (Hk a). cbn [fst snd] in Hc.
  destruct (snd (k a)) as [b|[|]].
  - now apply Forall_app_2.
  - now apply Forall_app_2.
  - destruct Hk as (t' & msg & -> & Ht'). exists (t ++ t'), msg.
    split; [now rewrite app_assoc | now apply Forall_app_2].
Qed.

Lemma fatalLast_orFatal (prefix : string) (c : Fallible A) :
  Forall (fun e => isFatal e = false) (fst c) -> fatalLast (orFatal prefix c).
Proof.
  unfold fatalLast. destruct c as [t [a|err]]; intros Ht; [exact Ht|].
  cbn. now exists t, (prefix +:+ err).
Qed.

Lemma fatalLast_logFatal (text : string) : fatalLast (@logFatal A text).
Proof. cbn. exists [], text. now split. Qed.
End Endings.

Section FatalLast.
Context `{Unicode}.
Variables (w : World) (verbose : bool) (AppConfig : Config) (Changed : string -> bool).

Lemma printVerbose_quiet (text : string) :
  Forall (fun e => isFatal e = false) (printVerbose verbose text).
Proof. unfold printVerbose. destruct verbose; repeat constructor. Qed.

Lemma utils_printV_quiet (text : string) :
  Forall (fun e => isFatal e = false) (utils.printV verbose text).
Proof. unfold utils.printV. destruct verbose; repeat constructor. Qed.

Ltac quiet :=
  repeat first
    [ apply Forall_nil_2
    | apply Forall_cons_2; [reflexivity|]
    | apply Forall_app_2
    | apply printVerbose_quiet
    | apply utils_printV_quiet ].

Lemma GetGeminiAPIKey_quiet (configKey : string) :
  Forall (fun e => isFatal e = false)
         (fst (utils.GetGeminiAPIKey w configKey verbose)).
Proof.
  unfold utils.GetGeminiAPIKey, utils.keyFromPass.
  destruct (negb (isEmpty (Getenv w _))); [apply utils_printV_quiet|].
  destruct (LookPath w _);
    [destruct (commandOutput w _ _) as [output|]; [destruct (negb (isEmpty _))|]|];
    destruct (negb (isEmpty configKey)); cbn [fst]; quiet.
Qed.

Lemma readResponse_quiet (resp : ai.GenerateContentResponse) :
  Forall (fun e => isFatal e = false) (fst (ai.readResponse resp)).
Proof.
  unfold ai.readResponse.
  destruct (ai.PromptFeedback resp) as [fb|];
    [destruct (ai.BlockReason fb); [quiet|];
     destruct (ai.firstBlocked (ai.SafetyRatings fb)); [quiet|]|];
    (destruct (ai.Candidates resp) as [|[[[|[]]|]]]; cbn [fst]; quiet).
Qed.

Lemma ProcessText_quiet (c : ai.GeminiClient) (text template language : string) :
  Forall (fun e => isFatal e = false)
         (fst (ai.ProcessText (genaiGenerateContent w) c text template language)).
Proof.
  unfold ai.ProcessText.
  destruct (genaiGenerateContent w _ _) as [[resp|]|err]; [|quiet..].
  pose proof (readResponse_quiet resp) as Hr.
  destruct (ai.readResponse resp) as [t r]. cbn [fst] in *.
  apply Forall_cons_2; [reflexivity | exact Hr].
Qed.

Lemma NewGeminiClient_quiet (apiKey modelName : string) :
  Forall (fun e => isFatal e = false)
         (fst (ai.NewGeminiClient (genaiNewClient w) apiKey modelName)).
Proof.
  unfold ai.NewGeminiClient.
  destruct (genaiNewClient w apiKey); [|destruct (isEmpty modelName)]; cbn [fst]; quiet.
Qed.

Lemma fatalLast_quiet {A : Type} (t : list Event) (a : A) :
  Forall (fun e => isFatal e = false) t -> fatalLast (t, Next a).
Proof. intros Ht. exact Ht. Qed.

Lemma fatalLast_return {A : Type} (t : list Event) :
  Forall (fun e => isFatal e = false) t -> fatalLast (t, @Exit A ExitSuccess).
Proof. intros Ht. exact Ht. Qed.

Ltac ending :=
  repeat first
    [ apply fatalLast_bind; [|intros ?]
    | apply fatalLast_orFatal
    | apply fatalLast_logFatal
    | apply GetGeminiAPIKey_quiet
    | apply ProcessText_quiet
    | apply NewGeminiClient_quiet
    | progress cbn [fst]; solve [quiet]
    | apply fatalLast_quiet; solve [quiet]
    | apply fatalLast_return; solve [quiet]
    | match goal with
      | |- fatalLast (if ?b then _ else _) => destruct b
      | |- fatalLast (match ?x with _ => _ end) => destruct x
      end ].

Lemma requireAPIKey_fatalLast : fatalLast (requireAPIKey w verbose AppConfig).
Proof. unfold requireAPIKey, ret. ending. Qed.

Lemma fixAssemble_fatalLast (v : FixVars) : fatalLast (fixAssemble AppConfig Changed v).
Proof.
  unfold fixAssemble, fixChooseTemplate, requireTemplate, fixResolveMood, ret, emit.
  ending.
Qed.

Lemma answerAssemble_fatalLast (v : AnswerVars) :
  fatalLast (answerAssemble AppConfig Changed v).
Proof.
  unfold answerAssemble, answerResolveMood, requireAnswerTemplate, ret, emit.
  ending.
Qed.

Lemma fixRun_fatalLast (v : FixVars) : fatalLast (fixRun w verbose AppConfig Changed v).
Proof.
  unfold fixRun.
  apply fatalLast_bind; [apply requireAPIKey_fatalLast | intros apiKey].
  apply fatalLast_bind; [apply fixAssemble_fatalLast | intros a].
  unfold captureText, newClient, Println, printV, emit, ret, returnFromRun.
  ending.
Qed.

Lemma answerRun_fatalLast (v : AnswerVars) :
  fatalLast (answerRun w verbose AppConfig Changed v).
Proof.
  unfold answerRun.
  apply fatalLast_bind; [apply requireAPIKey_fatalLast | intros apiKey].
  apply fatalLast_bind; [apply answerAssemble_fatalLast | intros a].
  unfold captureText, newClient, Println, printV, emit, ret, returnFromRun.
  ending.
Qed.

Lemma explainRun_fatalLast (v : ExplainVars) :
  fatalLast (explainRun w verbose AppConfig Changed v).
Proof.
  unfold explainRun.
  apply fatalLast_bind; [apply requireAPIKey_fatalLast | intros apiKey].
  unfold requireExplainTemplate, captureText, newClient, Println, printV, emit, ret,
    returnFromRun.
  ending.
Qed.

Lemma listMoodsRun_fatalLast : fatalLast (listMoodsRun AppConfig).
Proof.
  unfold listMoodsRun, Println, emit, returnFromRun.
  case_bool_decide; [ending|].
  apply fatalLast_quiet. repeat (apply Forall_cons_2; [reflexivity|]).
  apply Forall_app_2; [|quiet].
  induction (sortedMoodKeys AppConfig) as [|key keys IH]; [constructor|].
  cbn [map concat]. apply Forall_app_2; [|exact IH]. unfold moodEntry. quiet.
Qed.

(** X7.  Every command ends in one of two ways. With status 1 it has
    logged exactly one fatal message, and that was the last thing it
    did; otherwise it has logged none. So no command fails silently, and
    none goes on after a fatal message. The one failure that is not
    logged is the flag conflict [fix] finds before it runs: it ends with
    status 1 as well. *)
Theorem fatal_message_is_last (vf : FixVars) (va : AnswerVars) (ve : ExplainVars) :
  fatalLast (fixRun w verbose AppConfig Changed vf) /\
  fatalLast (answerRun w verbose AppConfig Changed va) /\
  fatalLast (explainRun w verbose AppConfig Changed ve) /\
  fatalLast (listMoodsRun AppConfig) /\
  (fatalLast (fixCommand w verbose AppConfig Changed vf) \/
   exists err,
     fixPersistentPreRunE Changed vf = Err err /\
     status (fixCommand w verbose AppConfig Changed vf) = ExitFailure /\
     Forall (fun e => isFatal e = false)
            (trace (fixCommand w verbose AppConfig Changed vf))).
Proof.
  split; [apply fixRun_fatalLast|]. split; [apply answerRun_fatalLast|].
  split; [apply explainRun_fatalLast|]. split; [apply listMoodsRun_fatalLast|].
  unfold fixCommand. destruct (fixPersistentPreRunE Changed vf) as [v'|err].
  - left. apply fixRun_fatalLast.
  - right. exists err. split; [reflexivity|]. split; [reflexivity|].
    repeat constructor.
Qed.

End FatalLast.

(** ** The calls to the outside *)

Section Calls.
Context `{Unicode}.
Variables (w : World) (verbose : bool) (AppConfig : Config) (Changed : string -> bool).

Lemma filter_internal (t : list Event) :
  Forall (fun e => externalCall e = false) t -> List.filter externalCall t = [].
Proof.
  induction t as [|e t IH]; intros Ht; [reflexivity|].
  apply Forall_cons_1 in Ht as [He Ht]. cbn [List.filter]. rewrite He. now apply IH.
Qed.

Lemma calls_bind {A B : Type} (c : Proc A) (k : A -> Proc B) :
  List.filter externalCall (fst (bind c k))
  = List.filter externalCall (fst c)
    ++ match snd c with
       | Next a => List.filter externalCall (fst (k a))
       | Exit _ => []
       end.
Proof.
  destruct c as [t [a|code]]; cbn [fst snd bind]; [|now rewrite app_nil_r].
  destruct (k a) as [t' r]. cbn [fst]. apply List.filter_app.
Qed.

Lemma captureText_calls :
  List.filter externalCall (fst (captureText w AppConfig))
  = [RunEditor (Editor AppConfig)].
Proof.
  unfold captureText, orFatal. now destruct (GetTextFromEditor w (Editor AppConfig)).
Qed.

Lemma newClient_calls (apiKey : string) :
  List.filter externalCall (fst (newClient w AppConfig apiKey)) = [NewClient apiKey].
Proof.
  unfold newClient, orFatal, ai.NewGeminiClient.
  destruct (genaiNewClient w apiKey); [reflexivity|].
  now destruct (isEmpty (GeminiModel AppConfig)).
Qed.

Lemma readResponse_internal (resp : ai.GenerateContentResponse) :
  Forall (fun e => externalCall e = false) (fst (ai.readResponse resp)).
Proof.
  unfold ai.readResponse.
  destruct (ai.PromptFeedback resp) as [fb|];
    [destruct (ai.BlockReason fb); [constructor|];
     destruct (ai.firstBlocked (ai.SafetyRatings fb)); [constructor|]|];
    (destruct (ai.Candidates resp) as [|[[[|[]]|]]]; cbn [fst]; repeat constructor).
Qed.

Lemma process_calls (prefix : string) (c : ai.GeminiClient)
    (text template language : string) :
  List.filter externalCall
    (fst (orFatal prefix
            (ai.ProcessText (genaiGenerateContent w) c text template language)))
  = [GenerateContent (ai.model c) (ai.finalPrompt text template language)].
Proof.
  unfold ai.ProcessText.
  destruct (genaiGenerateContent w _ _) as [[resp|]|err]; try reflexivity.
  pose proof (filter_internal _ (readResponse_internal resp)) as Hr.
  destruct (ai.readResponse resp) as [t [out|err]]; cbn [fst] in Hr;
    cbn [orFatal fst List.filter externalCall]; [now rewrite Hr|].
  rewrite List.filter_app. cbn [List.filter externalCall]. now rewrite Hr.
Qed.

Lemma callsInOrder_prefix (editorCmd : string) (calls rest : list Event)
    (apiKey modelName prompt text : string) :
  [RunEditor editorCmd; NewClient apiKey; GenerateContent modelName prompt;
   WriteClipboard text] = calls ++ rest ->
  callsInOrder editorCmd calls.
Proof. intros Heq. now exists apiKey, modelName, prompt, text, rest. Qed.

Ltac in_order :=
  repeat first
    [ rewrite calls_bind
    | rewrite (filter_internal _ (requireAPIKey_internal w verbose AppConfig))
    | rewrite (filter_internal _ (fixAssemble_internal AppConfig Changed _))
    | rewrite (filter_internal _ (answerAssemble_internal AppConfig Changed _))
    | rewrite (filter_internal _ (printVerbose_internal verbose _))
    | rewrite captureText_calls
    | rewrite newClient_calls
    | rewrite process_calls
    | progress cbn [fst snd emit ret Println printV logFatal returnFromRun
                    List.filter externalCall app]
    | match goal with
      | |- context [match snd ?c with _ => _ end] => destruct (snd c)
      | |- context [if ?b then _ else _] => destruct b
      | |- context [match CopyToClipboard w ?s with _ => _ end] =>
          destruct (CopyToClipboard w s)
      end ];
  first
    [ eapply (callsInOrder_prefix _ _ _ EmptyString EmptyString EmptyString EmptyString);
      reflexivity
    | eapply (callsInOrder_prefix _ _ _ _ EmptyString EmptyString EmptyString);
      reflexivity
    | eapply (callsInOrder_prefix _ _ _ _ _ _ EmptyString); reflexivity
    | eapply callsInOrder_prefix; reflexivity ].

(** X8.  Each of [fix], [answer] and [explain] calls the editor, the
    model client, the model and the clipboard in this order, each at
    most once, and none of them without those before it: what a command
    did to the outside is always a beginning of that list. *)
Theorem external_calls_in_order (vf : FixVars) (va : AnswerVars) (ve : ExplainVars) :
  callsInOrder (Editor AppConfig)
    (List.filter externalCall (trace (fixRun w verbose AppConfig Changed vf))) /\
  callsInOrder (Editor AppConfig)
    (List.filter externalCall (trace (answerRun w verbose AppConfig Changed va))) /\
  callsInOrder (Editor AppConfig)
    (List.filter externalCall (trace (explainRun w verbose AppConfig Changed ve))).
Proof.
  unfold trace. split; [|split].
  - unfold fixRun. in_order.
  - unfold answerRun. in_order.
  - unfold explainRun, requireExplainTemplate. in_order.
Qed.

End Calls.

(** ** The API key *)

Section TrimFacts.
Context `{Unicode}.

Lemma reverse_snoc (acc s : string) (c : ascii) :
  reverse acc (s +:+ String c EmptyString) = String c (reverse acc s).
Proof.
  revert acc. induction s as [|x s IH]; intros acc; [reflexivity|].
  rewrite append_cons. cbn [reverse]. apply IH.
Qed.

Lemma reverse_acc (acc s : string) :
  reverse acc s = reverse EmptyString s +:+ acc.
Proof.
  revert acc. induction s as [|x s IH]; intros acc; [reflexivity|].
  cbn [reverse]. rewrite (IH (String x acc)), (IH (String x EmptyString)).
  now rewrite append_assoc, append_cons, append_nil.
Qed.

Lemma allASCII_reverse (acc s : string) :
  allASCII acc = true -> allASCII s = true -> allASCII (reverse acc s) = true.
Proof.
  revert acc. induction s as [|x s IH]; intros acc Hacc Hs; [exact Hacc|].
  cbn [allASCII] in Hs. apply andb_true_iff in Hs as [Hx Hs].
  cbn [reverse]. apply IH; [|exact Hs]. cbn [allASCII]. now rewrite Hx.
Qed.

(** The scan from the right stops at a byte that is no white
    space. *)
Lemma trimRightScan_snoc (r : string) (c : ascii) :
  allASCII r = true -> geRuneSelf c = false -> asciiSpace c = false ->
  exists rest, trimRightScan (r +:+ String c EmptyString) = String c rest.
Proof.
  intros Hr Hc Hs. induction r as [|x r IH].
  - rewrite append_nil. cbn [trimRightScan]. rewrite Hc, Hs. now eexists.
  - cbn [allASCII] in Hr. apply andb_true_iff in Hr as [Hx Hr].
    apply negb_true_iff in Hx.
    rewrite append_cons. cbn [trimRightScan]. rewrite Hx.
    destruct (asciiSpace x); [exact (IH Hr)|].
    rewrite <- append_cons, reverse_snoc. now eexists.
Qed.

(** Of an ASCII text [TrimSpace] leaves nothing, or a text that
    begins with a byte that is no white space. *)
Lemma TrimSpace_head (s : string) :
  allASCII s = true ->
  TrimSpace s = EmptyString
  \/ exists c rest, TrimSpace s = String c rest /\ asciiSpace c = false.
Proof.
  induction s as [|c s IH]; intros Hs; [now left|].
  cbn [allASCII] in Hs. apply andb_true_iff in Hs as [Hc Hs].
  apply negb_true_iff in Hc. cbn [TrimSpace]. rewrite Hc.
  destruct (asciiSpace c) eqn:Hsp; [exact (IH Hs)|]. right.
  cbn [reverse]. rewrite reverse_acc.
  destruct (trimRightScan_snoc (reverse EmptyString s) c) as [rest Hrest];
    [now apply allASCII_reverse | exact Hc | exact Hsp |].
  exists c, rest. now split.
Qed.

Lemma firstLine_nonempty (c : ascii) (rest : string) :
  asciiSpace c = false -> utils.firstLine (String c rest) <> EmptyString.
Proof.
  intros Hc. cbn [utils.firstLine].
  destruct (Ascii.eqb c "010") eqn:Heq; [|discriminate].
  apply Ascii.eqb_eq in Heq. subst c. discriminate.
Qed.

Lemma firstLine_one_line (s : string) : lacks "010" (utils.firstLine s) = true.
Proof.
  induction s as [|c s IH]; [reflexivity|]. cbn [utils.firstLine].
  destruct (Ascii.eqb c "010") eqn:Heq; [reflexivity|].
  cbn [lacks]. now rewrite Heq, IH.
Qed.
End TrimFacts.

Section KeyFacts.
Context `{Unicode}.
Variables (w : World) (verbose : bool) (AppConfig : Config) (Changed : string -> bool).

Lemma keyFromPass_line (key : string) :
  (forall output,
      commandOutput w "pass" ["gemini_api_key"] = Ok output ->
      allASCII output = true) ->
  snd (utils.keyFromPass w verbose) = Some key ->
  key <> EmptyString /\ lacks "010" key = true.
Proof.
  intros Hascii. unfold utils.keyFromPass.
  change utils.PassEntryName with "gemini_api_key".
  destruct (LookPath w "pass"); [|discriminate].
  destruct (commandOutput w "pass" ["gemini_api_key"]) as [output|err] eqn:Hout;
    [|discriminate].
  destruct (TrimSpace_head output (Hascii output eq_refl))
    as [Hblank|(c & rest & Htrim & Hc)]; rewrite ?Hblank, ?Htrim; cbn [isEmpty negb snd];
    [discriminate|].
  intros Hkey. assert (Heq : key = utils.firstLine (String c rest)) by congruence.
  rewrite Heq. split; [now apply firstLine_nonempty | apply firstLine_one_line].
Qed.

(** X9.  When what [pass] prints is ASCII, the key taken from it is one
    line and not empty, and so the key [GetGeminiAPIKey] returns is
    never empty. The check for an empty key that follows the call in the
    commands therefore never fails: a command that stops for want of a
    key stops with the error of [GetGeminiAPIKey]. *)
Theorem returned_key_is_not_empty :
  (forall output,
      commandOutput w "pass" ["gemini_api_key"] = Ok output ->
      allASCII output = true) ->
  (forall key,
      snd (utils.keyFromPass w verbose) = Some key ->
      key <> EmptyString /\ lacks "010" key = true) /\
  (forall t apiKey,
      utils.GetGeminiAPIKey w (GeminiAPIKey AppConfig) verbose = (t, Ok apiKey) ->
      apiKey <> EmptyString) /\
  requireAPIKey w verbose AppConfig
  = orFatal "Error getting API key: "
      (utils.GetGeminiAPIKey w (GeminiAPIKey AppConfig) verbose).
Proof.
  intros Hascii.
  assert (Hkey : forall t apiKey,
             utils.GetGeminiAPIKey w (GeminiAPIKey AppConfig) verbose = (t, Ok apiKey) ->
             apiKey <> EmptyString).
  { intros t apiKey. unfold utils.GetGeminiAPIKey.
    destruct (isEmpty (Getenv w utils.EnvVarName)) eqn:Henv; cbn [negb].
    2:{ intros Heq. apply isEmpty_false in Henv. congruence. }
    pose proof (fun key => keyFromPass_line key Hascii) as Hpass.
    destruct (utils.keyFromPass w verbose) as [t' [key|]]; cbn [snd] in Hpass.
    - intros Heq. destruct (Hpass key eq_refl) as [Hne _]. congruence.
    - destruct (isEmpty (GeminiAPIKey AppConfig)) eqn:Hc; cbn [negb]; [discriminate|].
      intros Heq. apply isEmpty_false in Hc. congruence. }
  split; [intros key; now apply keyFromPass_line|]. split; [exact Hkey|].
  unfold requireAPIKey.
  destruct (utils.GetGeminiAPIKey w (GeminiAPIKey AppConfig) verbose)
    as [t [apiKey|err]] eqn:Hget; [|reflexivity].
  pose proof (Hkey t apiKey eq_refl) as Hne. apply isEmpty_false in Hne.
  cbn [orFatal]. rewrite (bind_Next _ _ _ _ eq_refl), Hne.
  cbn [fst snd ret]. now rewrite app_nil_r.
Qed.



Lemma orFatal_Forall {A : Type} (P : Event -> Prop) (prefix : string) (c : Fallible A) :
  Forall P (fst c) -> (forall msg, P (LogFatal msg)) -> Forall P (fst (orFatal prefix c)).
Proof.
  destruct c as [t [a|err]]; cbn [orFatal fst]; intros Ht Hf; [exact Ht|].
  apply Forall_app_2; [exact Ht|]. repeat constructor. apply Hf.
Qed.

Ltac keyed :=
  repeat first
    [ apply Forall_nil_2
    | apply Forall_cons_2; [first [reflexivity | apply String.eqb_refl]|]
    | apply Forall_app_2
    | apply bind_Forall; [|intros ?]
    | apply orFatal_Forall; [|reflexivity]
    | progress cbn [fst]
    | match goal with
      | |- Forall _ (fst (if ?b then _ else _)) => destruct b
      | |- Forall _ (if ?b then _ else _) => destruct b
      | |- Forall _ (fst (match ?x with _ => _ end)) => destruct x
      | |- Forall _ (match ?x with _ => _ end) => destruct x
      | |- Forall _ (fst (let (_, _) := ?x in _)) => destruct x
      end ].

Lemma readResponse_keyed (apiKey : string) (resp : ai.GenerateContentResponse) :
  Forall (fun e => keyUse apiKey e = true) (fst (ai.readResponse resp)).
Proof.
  unfold ai.readResponse.
  destruct (ai.PromptFeedback resp) as [fb|];
    [destruct (ai.BlockReason fb); [constructor|];
     destruct (ai.firstBlocked (ai.SafetyRatings fb)); [constructor|]|];
    (destruct (ai.Candidates resp) as [|[[[|[]]|]]]; cbn [fst]; repeat constructor).
Qed.

Lemma ProcessText_keyed (apiKey : string) (c : ai.GeminiClient)
    (text template language : string) :
  Forall (fun e => keyUse apiKey e = true)
         (fst (ai.ProcessText (genaiGenerateContent w) c text template language)).
Proof.
  unfold ai.ProcessText.
  destruct (genaiGenerateContent w _ _) as [[resp|]|err]; [|keyed..].
  pose proof (readResponse_keyed apiKey resp) as Hr.
  destruct (ai.readResponse resp) as [t r]. cbn [fst] in *.
  apply Forall_cons_2; [reflexivity | exact Hr].
Qed.

Lemma fixAssemble_keyed (apiKey : string) (v : FixVars) :
  Forall (fun e => keyUse apiKey e = true) (fst (fixAssemble AppConfig Changed v)).
Proof.
  unfold fixAssemble, fixChooseTemplate, requireTemplate, fixResolveMood, ret, emit,
    logFatal.
  keyed.
Qed.

Lemma answerAssemble_keyed (apiKey : string) (v : AnswerVars) :
  Forall (fun e => keyUse apiKey e = true) (fst (answerAssemble AppConfig Changed v)).
Proof.
  unfold answerAssemble, answerResolveMood, requireAnswerTemplate, ret, emit, logFatal.
  keyed.
Qed.

(** X11.  With [GEMINI_API_KEY] set, its value is the key of every
    command: [pass] is never run, the key of the configuration is not
    used, and a model client is made with the value of the variable
    only. *)
Theorem environment_key_wins (vf : FixVars) (va : AnswerVars) (ve : ExplainVars)
    (apiKey : string) :
  Getenv w "GEMINI_API_KEY" = apiKey -> apiKey <> EmptyString ->
  requireAPIKey w verbose AppConfig
  = (utils.printV verbose
       "Using Gemini API key from environment variable GEMINI_API_KEY.",
     Next apiKey) /\
  Forall (fun e => keyUse apiKey e = true)
         (trace (fixRun w verbose AppConfig Changed vf)) /\
  Forall (fun e => keyUse apiKey e = true)
         (trace (answerRun w verbose AppConfig Changed va)) /\
  Forall (fun e => keyUse apiKey e = true)
         (trace (explainRun w verbose AppConfig Changed ve)).
Proof.
  intros Henv Hne.
  pose proof (requireAPIKey_env w verbose AppConfig apiKey Henv Hne) as Hreq.
  assert (Hp : forall text,
             Forall (fun e => keyUse apiKey e = true) (utils.printV verbose text)).
  { intros text. unfold utils.printV. destruct verbose; repeat constructor. }
  assert (Hv : forall text,
             Forall (fun e => keyUse apiKey e = true) (printVerbose verbose text)).
  { intros text. unfold printVerbose. destruct verbose; repeat constructor. }
  split; [exact Hreq|].
  unfold trace, fixRun, answerRun, explainRun.
  rewrite !(fst_bind_Next _ _ _ _ Hreq).
  repeat split; (apply Forall_app_2; [apply Hp|]).
  - apply bind_Forall; [apply fixAssemble_keyed | intros a].
    unfold captureText, newClient, ai.NewGeminiClient, Println, printV, emit, ret,
      returnFromRun, logFatal.
    repeat first [ apply ProcessText_keyed | apply Hv | keyed ].
  - apply bind_Forall; [apply answerAssemble_keyed | intros a].
    unfold captureText, newClient, ai.NewGeminiClient, Println, printV, emit, ret,
      returnFromRun, logFatal.
    repeat first [ apply ProcessText_keyed | apply Hv | keyed ].
  - unfold requireExplainTemplate, captureText, newClient, ai.NewGeminiClient, Println,
      printV, emit, ret, returnFromRun, logFatal.
    repeat first [ apply ProcessText_keyed | apply Hv | keyed ].
Qed.

End KeyFacts.

(** ** The model's response *)

Section Response.
Variable genaiGenerateContent :
  string -> string -> Result (option ai.GenerateContentResponse).

Lemma firstBlocked_none (ratings : list ai.SafetyRating) :
  ai.firstBlocked ratings = None <-> existsb ai.Blocked ratings = false.
Proof.
  unfold ai.firstBlocked. induction ratings as [|r ratings IH]; [easy|].
  cbn [List.find existsb]. destruct (ai.Blocked r); [easy | exact IH].
Qed.

Lemma readResponse_text (resp : ai.GenerateContentResponse) (out : string) :
  snd (ai.readResponse resp) = Ok out <->
  blockedResponse resp = false /\
  exists rest others,
    ai.Candidates resp = {| ai.Content := Some (ai.Text out :: rest) |} :: others.
Proof.
  unfold ai.readResponse, blockedResponse.
  destruct (ai.PromptFeedback resp) as [fb|].
  - destruct (ai.BlockReason fb) as [reason|].
    { split; [discriminate | now intros [? _]]. }
    destruct (ai.firstBlocked (ai.SafetyRatings fb)) as [rating|] eqn:Hb.
    { split; [discriminate|]. intros [Hno _].
      apply firstBlocked_none in Hno. congruence. }
    apply firstBlocked_none in Hb. rewrite Hb.
    destruct (ai.Candidates resp) as [|[[[|[text|typeName shown] rest]|]] others];
      cbn [snd]; split;
      try discriminate; try (intros [_ (? & ? & ?)]; congruence).
    intros [= ->]. split; [reflexivity|]. now exists rest, others.
  - destruct (ai.Candidates resp) as [|[[[|[text|typeName shown] rest]|]] others];
      cbn [snd]; split;
      try discriminate; try (intros [_ (? & ? & ?)]; congruence).
    intros [= ->]. split; [reflexivity|]. now exists rest, others.
Qed.

(** X12.  [ProcessText] returns a text exactly when the model call gave
    a response that is not blocked, by a block reason or by any one
    blocked safety rating, and whose first candidate begins with a text
    part; the text returned is that part, as it is. The model is called
    once, with the template in which the text and then the language have
    been filled in. *)
Theorem ProcessText_returns_first_text (c : ai.GeminiClient)
    (textToProcess promptTemplate targetLanguage out : string) :
  (snd (ai.ProcessText genaiGenerateContent c textToProcess promptTemplate targetLanguage)
   = Ok out <->
   exists resp rest others,
     genaiGenerateContent (ai.model c)
       (ReplaceAll (ReplaceAll promptTemplate "{TEXT}" textToProcess)
          "{LANGUAGE}" targetLanguage)
     = Ok (Some resp) /\
     blockedResponse resp = false /\
     ai.Candidates resp = {| ai.Content := Some (ai.Text out :: rest) |} :: others) /\
  List.filter externalCall
    (fst (ai.ProcessText genaiGenerateContent c textToProcess promptTemplate
            targetLanguage))
  = [GenerateContent (ai.model c)
       (ReplaceAll (ReplaceAll promptTemplate "{TEXT}" textToProcess)
          "{LANGUAGE}" targetLanguage)].
Proof.
  unfold ai.ProcessText, ai.finalPrompt. cbv zeta.
  destruct (genaiGenerateContent _ _) as [[resp|]|err] eqn:Hgen.
  - pose proof (readResponse_text resp out) as Hr.
    pose proof (filter_internal _ (readResponse_internal resp)) as Hq.
    destruct (ai.readResponse resp) as [t r]. cbn [fst snd] in *. split.
    + rewrite Hr. split.
      * intros [Hb (rest & others & Hc)]. now exists resp, rest, others.
      * intros (resp' & rest & others & [= <-] & Hb & Hc). split; [exact Hb|].
        now exists rest, others.
    + cbn [List.filter externalCall]. now rewrite Hq.
  - split; [|reflexivity]. split; [discriminate|].
    intros (resp' & rest & others & [=] & _).
  - split; [|reflexivity]. split; [discriminate|].
    intros (resp' & rest & others & [=] & _).
Qed.

End Response.

(** ** Listing the moods *)

Section Listing.
Variable AppConfig : Config.



End Listing.

(** ** The temporary file of the editor *)

Section TempFile.
Variables (fs : editor.Files) (editorCmd : string).

(** X14.  Once the temporary file exists, [GetTextFromEditor] removes it
    on every way out, as the last thing it does and only once; this
    includes the way out after a failed [Close], which comes before the
    deferred removal is set up. The editor is run on that file, and a
    text is returned only when the editor ended without error and the
    file could be read: it is the content of the file. *)
Theorem temporary_file_is_removed (tempFilePath : string) :
  editor.ioutilTempFile fs = Ok tempFilePath ->
  (exists before,
      fst (editor.GetTextFromEditor fs editorCmd)
      = editor.TempFile EmptyString "qik-*.txt" :: editor.Close tempFilePath
          :: before ++ [editor.Remove tempFilePath] /\
      (before = []
       \/ before = [editor.Run editorCmd tempFilePath]
       \/ before = [editor.Run editorCmd tempFilePath; editor.ReadFile tempFilePath])) /\
  (forall content,
      snd (editor.GetTextFromEditor fs editorCmd) = Ok content <->
      editor.tempFileClose fs = None /\
      editor.cmdRun fs editorCmd tempFilePath = None /\
      editor.ioutilReadFile fs tempFilePath = Ok content).
Proof.
  intros Htemp. unfold editor.GetTextFromEditor. rewrite Htemp.
  destruct (editor.tempFileClose fs) as [closeErr|].
  { split; [exists []; split; [reflexivity | now left]|].
    intros content. split; [discriminate | now intros [? _]]. }
  destruct (editor.cmdRun fs editorCmd tempFilePath) as [runErr|].
  { split; [exists [editor.Run editorCmd tempFilePath]; split; [reflexivity | auto]|].
    intros content. split; [discriminate | now intros (_ & ? & _)]. }
  destruct (editor.ioutilReadFile fs tempFilePath) as [content'|readErr].
  - split.
    + exists [editor.Run editorCmd tempFilePath; editor.ReadFile tempFilePath].
      split; [reflexivity | auto].
    + intros content. cbn [snd]. split; [intros [= ->]; auto|].
      now intros (_ & _ & [= ->]).
  - split.
    + exists [editor.Run editorCmd tempFilePath; editor.ReadFile tempFilePath].
      split; [reflexivity | auto].
    + intros content. split; [discriminate | now intros (_ & _ & ?)].
Qed.

(** When the temporary file cannot be created nothing else is
    attempted. *)
Lemma no_temporary_file (err : string) :
  editor.ioutilTempFile fs = Err err ->
  editor.GetTextFromEditor fs editorCmd
  = ([editor.TempFile EmptyString "qik-*.txt"],
     Err ("failed to create temporary file for editor input: " +:+ err)).
Proof. intros Htemp. unfold editor.GetTextFromEditor. now rewrite Htemp. Qed.

End TempFile.

(** ** What a run sends and delivers *)

Section Inversion.
Context {A B : Type}.

Lemma In_bind_inv (c : Proc A) (k : A -> Proc B) (e : Event) :
  In e (fst (bind c k)) ->
  In e (fst c) \/ exists t a, c = (t, Next a) /\ In e (fst (k a)).
Proof.
  destruct c as [t [a|code]]; [|now left].
  rewrite (fst_bind_Next _ k t a eq_refl). intros Hin.
  apply in_app_or in Hin as [Hin|Hin]; [now left|]. right. now exists t, a.
Qed.

Lemma orFatal_Next (prefix : string) (c : Fallible A) (t : list Event) (a : A) :
  orFatal prefix c = (t, Next a) -> c = (t, Ok a).
Proof. destruct c as [t' [a'|err]]; cbn [orFatal]; [now intros [= -> ->] | discriminate]. Qed.
End Inversion.

Section Sent.
Context `{Unicode}.
Variables (w : World) (verbose : bool) (AppConfig : Config) (Changed : string -> bool).

(** The model the client is made for. *)
Lemma newClient_Next (apiKey : string) (t : list Event) (c : ai.GeminiClient) :
  newClient w AppConfig apiKey = (t, Next c) ->
  ai.model c = (if isEmpty (GeminiModel AppConfig) then "gemini-1.5-flash-latest"
                else GeminiModel AppConfig).
Proof.
  unfold newClient, ai.NewGeminiClient.
  destruct (genaiNewClient w apiKey); [discriminate|].
  destruct (isEmpty (GeminiModel AppConfig)); now intros [= _ <-].
Qed.

Lemma captureText_Next (t : list Event) (inputText : string) :
  captureText w AppConfig = (t, Next inputText) ->
  GetTextFromEditor w (Editor AppConfig) = Ok inputText.
Proof.
  unfold captureText. destruct (GetTextFromEditor w (Editor AppConfig)); cbn [orFatal];
    [now intros [= _ ->] | discriminate].
Qed.

Lemma external_In_calls (e : Event) (t : list Event) :
  externalCall e = true -> In e t -> In e (List.filter externalCall t).
Proof. intros He Hin. apply List.filter_In. now split. Qed.

Lemma captureText_sends (e : Event) :
  In e (fst (captureText w AppConfig)) -> deliveryCall e = true -> False.
Proof.
  intros Hin He.
  assert (Hext : externalCall e = true) by (now destruct e).
  apply (external_In_calls e _ Hext) in Hin. rewrite captureText_calls in Hin.
  destruct Hin as [<-|[]]. discriminate.
Qed.

Lemma internal_sends (e : Event) (t : list Event) :
  Forall (fun e => externalCall e = false) t -> In e t -> deliveryCall e = true -> False.
Proof.
  intros Ht Hin He. apply (internal_not_external _ _ Ht) in Hin.
  destruct e; discriminate.
Qed.

Lemma newClient_sends (apiKey : string) (e : Event) :
  externalCall e = true -> In e (fst (newClient w AppConfig apiKey)) ->
  e = NewClient apiKey.
Proof.
  intros He Hin. apply (external_In_calls e _ He) in Hin.
  rewrite newClient_calls in Hin. now destruct Hin as [<-|[]].
Qed.

Lemma process_sends (prefix : string) (c : ai.GeminiClient)
    (text template language : string) (e : Event) :
  externalCall e = true ->
  In e (fst (orFatal prefix
               (ai.ProcessText (genaiGenerateContent w) c text template language))) ->
  e = GenerateContent (ai.model c) (ai.finalPrompt text template language).
Proof.
  intros He Hin. apply (external_In_calls e _ He) in Hin.
  rewrite process_calls in Hin. now destruct Hin as [<-|[]].
Qed.

Ltac inv_bind H :=
  let t := fresh "t" in
  let a := fresh "a" in
  let E := fresh "E" in
  apply In_bind_inv in H as [H|(t & a & E & H)].

Ltac no_send H :=
  exfalso;
  first
    [ exact (internal_sends _ _ (requireAPIKey_internal w verbose AppConfig) H eq_refl)
    | exact (internal_sends _ _ (fixAssemble_internal AppConfig Changed _) H eq_refl)
    | exact (internal_sends _ _ (answerAssemble_internal AppConfig Changed _) H eq_refl)
    | exact (internal_sends _ _ (printVerbose_internal verbose _) H eq_refl)
    | exact (captureText_sends _ H eq_refl)
    | repeat (destruct H as [H|H]; [discriminate H|]); destruct H ].

(** The stages a run of [fix] has passed when it reaches the
    model. *)
Lemma fixRun_sent (v : FixVars) (modelName prompt : string) :
  In (GenerateContent modelName prompt) (trace (fixRun w verbose AppConfig Changed v)) ->
  exists t1 apiKey t2 a inputText tc c,
    requireAPIKey w verbose AppConfig = (t1, Next apiKey) /\
    fixAssemble AppConfig Changed v = (t2, Next a) /\
    GetTextFromEditor w (Editor AppConfig) = Ok inputText /\
    isEmpty (TrimSpace inputText) = false /\
    newClient w AppConfig apiKey = (tc, Next c) /\
    modelName = ai.model c /\
    prompt = ai.finalPrompt inputText (promptWithMood a) (targetLanguage a).
Proof.
  unfold trace, fixRun. intros Hin.
  inv_bind Hin; [no_send Hin|]. rename t into t1, a into apiKey, E into Hkey.
  inv_bind Hin; [no_send Hin|]. rename t into t2, E into Hasm.
  inv_bind Hin; [no_send Hin|]. clear E.
  inv_bind Hin; [no_send Hin|]. rename a1 into inputText. apply captureText_Next in E.
  destruct (isEmpty (TrimSpace inputText)) eqn:Hblank.
  { inv_bind Hin; [no_send Hin|]. no_send Hin. }
  inv_bind Hin; [no_send Hin|]. clear E0.
  inv_bind Hin; [no_send Hin|]. clear E0.
  inv_bind Hin.
  { apply newClient_sends in Hin; [discriminate | reflexivity]. }
  rename a3 into c, E0 into Hc.
  inv_bind Hin.
  - apply process_sends in Hin; [|reflexivity]. injection Hin as -> ->.
    exists t1, apiKey, t2, a, inputText. eexists _, c.
    repeat split; first [eassumption | reflexivity].
  - exfalso. inv_bind Hin; [no_send Hin|].
    destruct (CopyToClipboard w a3); unfold Println in Hin.
    + repeat (inv_bind Hin; [no_send Hin|]). no_send Hin.
    + no_send Hin.
Qed.

Lemma answerRun_sent (v : AnswerVars) (modelName prompt : string) :
  In (GenerateContent modelName prompt)
     (trace (answerRun w verbose AppConfig Changed v)) ->
  exists t1 apiKey t2 a inputText tc c,
    requireAPIKey w verbose AppConfig = (t1, Next apiKey) /\
    answerAssemble AppConfig Changed v = (t2, Next a) /\
    GetTextFromEditor w (Editor AppConfig) = Ok inputText /\
    isEmpty (TrimSpace inputText) = false /\
    newClient w AppConfig apiKey = (tc, Next c) /\
    modelName = ai.model c /\
    prompt = ai.finalPrompt inputText (promptWithMood a) (targetLanguage a).
Proof.
  unfold trace, answerRun. intros Hin.
  inv_bind Hin; [no_send Hin|]. rename t into t1, a into apiKey, E into Hkey.
  inv_bind Hin; [no_send Hin|]. rename t into t2, E into Hasm.
  inv_bind Hin; [no_send Hin|]. clear E.
  inv_bind Hin; [no_send Hin|]. rename a1 into inputText. apply captureText_Next in E.
  destruct (isEmpty (TrimSpace inputText)) eqn:Hblank.
  { inv_bind Hin; [no_send Hin|]. no_send Hin. }
  inv_bind Hin; [no_send Hin|]. clear E0.
  inv_bind Hin; [no_send Hin|]. clear E0.
  inv_bind Hin.
  { apply newClient_sends in Hin; [discriminate | reflexivity]. }
  rename a3 into c, E0 into Hc.
  inv_bind Hin.
  - apply process_sends in Hin; [|reflexivity]. injection Hin as -> ->.
    exists t1, apiKey, t2, a, inputText. eexists _, c.
    repeat split; first [eassumption | reflexivity].
  - exfalso. unfold Println in Hin.
    repeat (inv_bind Hin; [no_send Hin|]).
    destruct (answerCopyToClipboard v); [|no_send Hin].
    inv_bind Hin; [no_send Hin|].
    destruct (CopyToClipboard w a3); no_send Hin.
Qed.

Lemma explainRun_sent (v : ExplainVars) (modelName prompt : string) :
  In (GenerateContent modelName prompt)
     (trace (explainRun w verbose AppConfig Changed v)) ->
  exists t1 apiKey inputText tc c,
    requireAPIKey w verbose AppConfig = (t1, Next apiKey) /\
    GetTextFromEditor w (Editor AppConfig) = Ok inputText /\
    isEmpty (TrimSpace inputText) = false /\
    newClient w AppConfig apiKey = (tc, Next c) /\
    modelName = ai.model c /\
    prompt = ai.finalPrompt inputText (ExplainText (Prompts AppConfig))
               (if Changed "language" then explainLanguage v
                else DefaultLanguage AppConfig).
Proof.
  unfold trace, explainRun. intros Hin.
  inv_bind Hin; [no_send Hin|]. rename t into t1, a into apiKey, E into Hkey.
  inv_bind Hin; [destruct (Changed "language"); no_send Hin|]. clear E.
  unfold requireExplainTemplate in Hin.
  destruct (isEmpty (ExplainText (Prompts AppConfig))).
  { inv_bind Hin; [no_send Hin | discriminate E]. }
  rewrite bind_ret in Hin.
  inv_bind Hin; [no_send Hin|]. clear E.
  inv_bind Hin; [no_send Hin|]. rename a1 into inputText. apply captureText_Next in E.
  destruct (isEmpty (TrimSpace inputText)) eqn:Hblank.
  { inv_bind Hin; [no_send Hin|]. no_send Hin. }
  inv_bind Hin; [no_send Hin|]. clear E0.
  inv_bind Hin.
  { apply newClient_sends in Hin; [discriminate | reflexivity]. }
  rename a2 into c, E0 into Hc.
  inv_bind Hin.
  - apply process_sends in Hin; [|reflexivity]. injection Hin as -> ->.
    exists t1, apiKey, inputText. eexists _, c.
    repeat split; first [eassumption | reflexivity].
  - exfalso. unfold Println in Hin.
    repeat (inv_bind Hin; [no_send Hin|]).
    destruct (explainCopyToClipboard v); [|no_send Hin].
    inv_bind Hin; [no_send Hin|].
    destruct (CopyToClipboard w a2); no_send Hin.
Qed.

(** X15.  Nothing but the assembled prompt is ever sent to the model.
    Whenever [fix], [answer] or [explain] calls the model, the text from
    the editor was not blank, the model is the configured one (or the
    fallback [gemini-1.5-flash-latest] for an empty name) and the prompt
    is the command's template with the mood (not for [explain]), then
    the text, then the language filled in. *)
Theorem only_the_assembled_prompt_is_sent (vf : FixVars) (va : AnswerVars)
    (ve : ExplainVars) (modelName prompt : string) :
  let effectiveModelName :=
    if isEmpty (GeminiModel AppConfig) then "gemini-1.5-flash-latest"
    else GeminiModel AppConfig in
  (In (GenerateContent modelName prompt)
      (trace (fixRun w verbose AppConfig Changed vf)) ->
   modelName = effectiveModelName /\
   exists t a inputText,
     fixAssemble AppConfig Changed vf = (t, Next a) /\
     GetTextFromEditor w (Editor AppConfig) = Ok inputText /\
     TrimSpace inputText <> EmptyString /\
     prompt = ReplaceAll (ReplaceAll (promptWithMood a) "{TEXT}" inputText)
                "{LANGUAGE}" (targetLanguage a)) /\
  (In (GenerateContent modelName prompt)
      (trace (answerRun w verbose AppConfig Changed va)) ->
   modelName = effectiveModelName /\
   exists t a inputText,
     answerAssemble AppConfig Changed va = (t, Next a) /\
     GetTextFromEditor w (Editor AppConfig) = Ok inputText /\
     TrimSpace inputText <> EmptyString /\
     prompt = ReplaceAll (ReplaceAll (promptWithMood a) "{TEXT}" inputText)
                "{LANGUAGE}" (targetLanguage a)) /\
  (In (GenerateContent modelName prompt)
      (trace (explainRun w verbose AppConfig Changed ve)) ->
   modelName = effectiveModelName /\
   exists inputText,
     GetTextFromEditor w (Editor AppConfig) = Ok inputText /\
     TrimSpace inputText <> EmptyString /\
     prompt = ReplaceAll (ReplaceAll (ExplainText (Prompts AppConfig)) "{TEXT}" inputText)
                "{LANGUAGE}" (if Changed "language" then explainLanguage ve
                              else DefaultLanguage AppConfig)).
Proof.
  cbv zeta. split; [|split].
  - intros Hin.
    destruct (fixRun_sent vf _ _ Hin)
      as (t1 & apiKey & t2 & a & inputText & tc & c & _ & Ha & Ht & Hb & Hc & -> & ->).
    split; [exact (newClient_Next _ _ _ Hc)|]. exists t2, a, inputText.
    repeat split; try assumption. now apply isEmpty_false.
  - intros Hin.
    destruct (answerRun_sent va _ _ Hin)
      as (t1 & apiKey & t2 & a & inputText & tc & c & _ & Ha & Ht & Hb & Hc & -> & ->).
    split; [exact (newClient_Next _ _ _ Hc)|]. exists t2, a, inputText.
    repeat split; try assumption. now apply isEmpty_false.
  - intros Hin.
    destruct (explainRun_sent ve _ _ Hin)
      as (t1 & apiKey & inputText & tc & c & _ & Ht & Hb & Hc & -> & ->).
    split; [exact (newClient_Next _ _ _ Hc)|]. exists inputText.
    repeat split; try assumption. now apply isEmpty_false.
Qed.

End Sent.

Section Delivered.
Context `{Unicode}.
Variables (w : World) (verbose : bool) (AppConfig : Config) (Changed : string -> bool).

Ltac inv_bind H :=
  let t := fresh "t" in
  let a := fresh "a" in
  let E := fresh "E" in
  apply In_bind_inv in H as [H|(t & a & E & H)].







End Delivered.

(** ** The mood in the prompt *)

Section MoodDelivery.
Context `{Unicode}.
Variables (AppConfig : Config) (Changed : string -> bool).

Lemma Contains_empty (s : string) : Contains s EmptyString = true.
Proof. destruct s; reflexivity. Qed.

Lemma plainFor_parts (body text : string) :
  plainFor body text = true ->
  text = EmptyString
  \/ (lacks "{" text = true /\ lacks "}" text = true /\ Contains body text = false).
Proof.
  unfold plainFor. destruct (isEmpty text) eqn:He.
  - left. now apply isEmpty_true.
  - cbn [orb]. rewrite !andb_true_iff, negb_true_iff. tauto.
Qed.

(** What was put in the place of the mood placeholder stays through
    the two substitutions of [ProcessText]. *)
Lemma mood_survives (template mood inputText language : string) :
  Contains template "{MOOD_INSTRUCTION}" = true ->
  plainFor "TEXT" mood = true -> plainFor "LANGUAGE" mood = true ->
  Contains (ai.finalPrompt inputText
              (ReplaceAll template "{MOOD_INSTRUCTION}" mood) language) mood
  = true.
Proof.
  intros Htpl Ht Hl.
  apply plainFor_parts in Ht as [->|(Ho & Hc & Ht)]; [apply Contains_empty|].
  apply plainFor_parts in Hl as [->|(_ & _ & Hl)]; [apply Contains_empty|].
  unfold ai.finalPrompt.
  apply (ReplaceAll_keeps_plain "{" "}" "LANGUAGE"); try assumption.
  apply (ReplaceAll_keeps_plain "{" "}" "TEXT"); try assumption.
  apply ReplaceAll_inserts; [discriminate | exact Htpl].
Qed.

(** The instructions of the built-in moods have no brace and are no
    fragment of a placeholder's name. *)
Lemma builtin_moods_plain (key : string) (mood : MoodInstruction) :
  getDefaultMoods !! key = Some mood ->
  plainFor "TEXT" (Instruction mood) = true /\
  plainFor "LANGUAGE" (Instruction mood) = true.
Proof.
  intros Hm. unfold getDefaultMoods in Hm. apply elem_of_list_to_map_2 in Hm.
  repeat (apply elem_of_cons in Hm as [Hm|Hm];
          [injection Hm as -> ->; split; vm_compute; reflexivity|]).
  now apply elem_of_nil in Hm.
Qed.

(** X17.  With a well-formed configuration the instruction of the
    selected mood is part of every prompt [fix] sends, whatever the text
    and the language, when the instruction is empty or has no brace and
    is no fragment of the words TEXT and LANGUAGE; the instructions of
    the built-in moods are of that kind. The same holds for [answer]
    when its template mentions the mood placeholder, which [initConfig]
    does not see to. *)
Theorem mood_reaches_prompt (vf : FixVars) (va : AnswerVars)
    (key : string) (mood : MoodInstruction) :
  wellFormed AppConfig = true ->
  Moods AppConfig !! key = Some mood ->
  plainFor "TEXT" (Instruction mood) = true ->
  plainFor "LANGUAGE" (Instruction mood) = true ->
  ((if Changed "mood" then moodKey vf else DefaultMood AppConfig) = key ->
   exists t a,
     fixAssemble AppConfig Changed vf = (t, Next a) /\
     selectedMoodKey a = key /\
     forall inputText,
       Contains (ai.finalPrompt inputText (promptWithMood a) (targetLanguage a))
         (Instruction mood) = true) /\
  ((if Changed "mood" then answerMoodKey va else DefaultMood AppConfig) = key ->
   Contains (AnswerQuestion (Prompts AppConfig)) "{MOOD_INSTRUCTION}" = true ->
   exists t a,
     answerAssemble AppConfig Changed va = (t, Next a) /\
     selectedMoodKey a = key /\
     forall inputText,
       Contains (ai.finalPrompt inputText (promptWithMood a) (targetLanguage a))
         (Instruction mood) = true) /\
  (forall builtinKey builtinMood,
      getDefaultMoods !! builtinKey = Some builtinMood ->
      plainFor "TEXT" (Instruction builtinMood) = true /\
      plainFor "LANGUAGE" (Instruction builtinMood) = true).
Proof.
  intros Hw Hm Ht Hl.
  destruct (wellFormed_fields _ Hw) as (_ & _ & _ & _ & Hd & He & _ & Ha & _).
  apply staleFixPrompt_false in Hd as [Hd1 Hd2], He as [He1 He2].
  split; [|split; [|exact builtin_moods_plain]].
  - intros Hkey. rewrite <- Hkey in Hm.
    pose proof (fixResolveMood_found AppConfig Changed vf mood Hm) as Hres.
    rewrite Hkey in Hres.
    destruct (fixChooseTemplate_chooses AppConfig vf) as (t0 & tpl & lang & Hsel & Htpl).
    assert (Hne : tpl <> EmptyString) by (destruct Htpl; subst; assumption).
    assert (Htok : Contains tpl "{MOOD_INSTRUCTION}" = true)
      by (destruct Htpl; subst; assumption).
    eexists _, _.
    split; [exact (fixAssemble_done AppConfig Changed vf _ _ _ _ _ _ Hsel Hne Hres)|].
    split; [reflexivity|]. intros inputText. cbn [promptWithMood targetLanguage].
    now apply mood_survives.
  - intros Hkey Htok. rewrite <- Hkey in Hm.
    pose proof (answerResolveMood_found AppConfig Changed va mood Hm) as Hres.
    rewrite Hkey in Hres. apply isEmpty_false in Ha.
    eexists _, _.
    split; [exact (answerAssemble_done AppConfig Changed va _ _ _ Hres Ha)|].
    split; [reflexivity|]. intros inputText. cbn [promptWithMood targetLanguage].
    unfold answerNeutralDefault.
    destruct (isEmpty (Instruction mood)) eqn:Hempty.
    + apply isEmpty_true in Hempty. rewrite Hempty. apply Contains_empty.
    + cbn [andb]. now apply mood_survives.
Qed.

End MoodDelivery.

(** ** The explain command *)

Section ExplainFacts.
Context `{Unicode}.
Variables (w : World) (verbose : bool) (AppConfig : Config) (Changed : string -> bool).

Lemma explainRun_blank (v : ExplainVars) (t1 : list Event) (apiKey inputText : string) :
  requireAPIKey w verbose AppConfig = (t1, Next apiKey) ->
  isEmpty (ExplainText (Prompts AppConfig)) = false ->
  GetTextFromEditor w (Editor AppConfig) = Ok inputText ->
  TrimSpace inputText = EmptyString ->
  exists t2,
    Forall (fun e => externalCall e = false) t2 /\
    explainRun w verbose AppConfig Changed v
    = ((t1 ++ t2 ++ [Stdout ("Opening editor for text to explain..." +:+ nl)])
       ++ [RunEditor (Editor AppConfig); Stdout ("No input provided. Exiting." +:+ nl)],
       Exit ExitSuccess).
Proof.
  intros Hkey Htpl Htext Hblank. unfold explainRun.
  rewrite (bind_Next _ _ _ _ Hkey).
  exists (if Changed "language"
          then printVerbose verbose
                 ("INFO: Explanation language explicitly set to: " +:+ explainLanguage v)
          else printVerbose verbose
                 ("INFO: Explanation language not specified. AI will attempt to match input or use default ("
                  +:+ DefaultLanguage AppConfig +:+ ").")).
  split; [destruct (Changed "language"); apply printVerbose_internal|].
  unfold requireExplainTemplate. rewrite Htpl, bind_ret.
  unfold Println at 1. rewrite bind_emit.
  rewrite (bind_Next _ _ _ _ (captureText_ok w AppConfig _ Htext)), Hblank.
  destruct (Changed "language"); unfold printV;
    rewrite (bind_Next _ _ _ _ eq_refl); cbn -[String.append];
    now rewrite <- !app_assoc.
Qed.

(** X18.  When the text that comes back from the editor is empty or
    white space only, [explain] ends with status 0 and nothing follows
    the editor but the notice: no model client, no model call, no
    clipboard write, no explanation. *)
Theorem explain_blank_input_cancels (v : ExplainVars) (inputText : string) :
  GetTextFromEditor w (Editor AppConfig) = Ok inputText ->
  TrimSpace inputText = EmptyString ->
  In (RunEditor (Editor AppConfig)) (trace (explainRun w verbose AppConfig Changed v)) ->
  status (explainRun w verbose AppConfig Changed v) = ExitSuccess /\
  exists before,
    Forall (fun e => externalCall e = false) before /\
    trace (explainRun w verbose AppConfig Changed v)
    = before ++ [RunEditor (Editor AppConfig);
                 Stdout ("No input provided. Exiting." +:+ nl)].
Proof.
  intros Htext Hblank Hin.
  pose proof (requireAPIKey_internal w verbose AppConfig) as Hk.
  destruct (requireAPIKey w verbose AppConfig) as [t1 [apiKey|code]] eqn:Hkey.
  2:{ exfalso. unfold trace, explainRun in Hin.
      rewrite (bind_Exit _ _ _ _ Hkey) in Hin.
      exact (no_editor_in_internal _ _ Hk Hin). }
  destruct (isEmpty (ExplainText (Prompts AppConfig))) eqn:Htpl.
  { exfalso. unfold trace, explainRun in Hin.
    rewrite (fst_bind_Next _ _ _ _ Hkey) in Hin.
    unfold requireExplainTemplate, printV in Hin. rewrite Htpl in Hin.
    apply in_app_or in Hin as [Hin|Hin]; [exact (no_editor_in_internal _ _ Hk Hin)|].
    destruct (Changed "language");
      rewrite (fst_bind_Next _ _ _ _ eq_refl) in Hin;
      (apply in_app_or in Hin as [Hin|Hin];
       [exact (no_editor_in_internal _ _ (printVerbose_internal verbose _) Hin)|]);
      destruct Hin as [Hin|[]]; discriminate Hin. }
  destruct (explainRun_blank v t1 apiKey inputText Hkey Htpl Htext Hblank)
    as (t2 & Ht2 & Hrun).
  rewrite Hrun. split; [reflexivity|]. eexists. split; [|reflexivity].
  cbn [fst] in Hk. repeat apply Forall_app_2; try assumption. repeat constructor.
Qed.

End ExplainFacts.

(** ** The English shorthand *)

Section Shorthand.
Context `{Unicode}.
Variables (w : World) (verbose : bool) (AppConfig : Config) (Changed : string -> bool).

(** [fixCmd.Run] asks only whether [--mood] was given. *)
Lemma fixRun_mood_flag (Changed' : string -> bool) (v : FixVars) :
  Changed' "mood" = Changed "mood" ->
  fixRun w verbose AppConfig Changed' v = fixRun w verbose AppConfig Changed v.
Proof.
  intros Hm. unfold fixRun, fixAssemble, fixResolveMood. now rewrite Hm.
Qed.

(** X19.  [qik fix --english] is [qik fix --language English --prompt
    english_fix_only]: with no [--language] and no [--prompt] beside
    [--english], the command does what the long form does, whatever the
    default language of the configuration, and the template is the
    english_fix_only one. *)
Theorem english_is_shorthand (Changed' : string -> bool) (v : FixVars) :
  englishShorthand v = true -> language v = EmptyString -> Changed "prompt" = false ->
  Changed' "mood" = Changed "mood" ->
  fixCommand w verbose AppConfig Changed v
  = fixCommand w verbose AppConfig Changed'
      {| language := "English";
         promptKey := "english_fix_only";
         englishShorthand := false;
         moodKey := moodKey v |} /\
  fixChooseTemplate AppConfig
    {| language := "English";
       promptKey := "english_fix_only";
       englishShorthand := false;
       moodKey := moodKey v |}
  = ([], Next (EnglishFixOnly (Prompts AppConfig), "English")).
Proof.
  intros He Hl Hp Hm. split; [|reflexivity].
  unfold fixCommand.
  rewrite (english_flag_accepted Changed v He (or_introl Hl)), Hp.
  cbn [fixPersistentPreRunE englishShorthand negb].
  now rewrite (fixRun_mood_flag Changed' _ Hm).
Qed.

End Shorthand.

(** ** Without [--verbose] *)

Section Quiet.
Variables (cfgFile : string) (src : ConfigSource).


End Quiet.

(** ** The further properties at sample inputs *)

(** X2 at a sample input.  The language in the prompt, for the built-in
    default template. *)
Lemma language_reaches_prompt_witness :
  Contains (Default defaultPromptsConfig) "{LANGUAGE}" = true /\
  Contains (ai.finalPrompt "helo wrold" (Default defaultPromptsConfig) "English")
    "English" = true.
Proof.
  assert (h : Contains (Default defaultPromptsConfig) "{LANGUAGE}" = true)
    by (vm_compute; reflexivity).
  exact (conj h (language_reaches_prompt "helo wrold" _ "English" h)).
Defined.

(** X3 at a sample input.  The built-in configuration is well-formed and
    goes through the defaults unchanged. *)
Lemma applyDefaults_settles_witness :
  wellFormed defaultCfg = true /\
  applyDefaults true defaultCfg = ([], defaultCfg).
Proof.
  assert (h : wellFormed defaultCfg = true) by (vm_compute; reflexivity).
  destruct (applyDefaults_settles true defaultCfg) as (_ & W & _).
  exact (conj h (W h)).
Defined.


(** X6 at a sample input.  No configuration file: the default one is
    written to the default path. *)
Lemma default_file_only_when_missing_witness :
  let src := Samples.sourceMissing in
  let e := WriteFile "/home/user/.config/qik/config.yaml" "defaultLanguage: Norwegian" in
  ReadInConfig src = ConfigFileNotFoundError "Config File Not Found" /\
  getDefaultConfigPath src = Ok "/home/user/.config/qik/config.yaml" /\
  osMkdirAll src (pathDir src "/home/user/.config/qik/config.yaml") = None /\
  yamlMarshal src defaultCfg = Ok "defaultLanguage: Norwegian" /\
  In e (fst (initConfig EmptyString false src)) /\
  fileOp e = true /\
  exists err defaultPath,
    ReadInConfig src = ConfigFileNotFoundError err /\
    getDefaultConfigPath src = Ok defaultPath /\
    ((e = MkdirAll (pathDir src defaultPath)
      /\ statIsNotExist src (pathDir src defaultPath) = true)
     \/ (exists yamlData,
            e = WriteFile defaultPath yamlData
            /\ yamlMarshal src defaultCfg = Ok yamlData)).
Proof.
  cbv zeta.
  destruct (default_file_only_when_missing EmptyString false Samples.sourceMissing)
    as [Wonly Wwrites].
  pose proof (Wwrites "Config File Not Found" "/home/user/.config/qik/config.yaml"
                "defaultLanguage: Norwegian" eq_refl eq_refl (fun _ => eq_refl) eq_refl)
    as h.
  exact (conj eq_refl (conj eq_refl (conj eq_refl (conj eq_refl
           (conj h (conj eq_refl (Wonly _ h eq_refl))))))).
Defined.

(** X9 at a sample input.  [pass] prints the key on its first line,
    after two spaces. *)
Lemma returned_key_is_not_empty_witness :
  let w := Samples.worldPass ("  sk-123" +:+ nl +:+ "a note" +:+ nl) in
  (forall output,
      commandOutput w "pass" ["gemini_api_key"] = Ok output ->
      allASCII output = true) /\
  utils.GetGeminiAPIKey (H := Samples.plainTables) w EmptyString false
  = ([RunCommand "pass" ["gemini_api_key"]], Ok "sk-123") /\
  (forall key,
      snd (utils.keyFromPass (H := Samples.plainTables) w false) = Some key ->
      key <> EmptyString /\ lacks "010" key = true) /\
  (forall t apiKey,
      utils.GetGeminiAPIKey (H := Samples.plainTables) w (GeminiAPIKey defaultCfg) false
      = (t, Ok apiKey) ->
      apiKey <> EmptyString) /\
  requireAPIKey (H := Samples.plainTables) w false defaultCfg
  = orFatal "Error getting API key: "
      (utils.GetGeminiAPIKey (H := Samples.plainTables) w (GeminiAPIKey defaultCfg) false).
Proof.
  cbv zeta.
  assert (h : forall output,
             commandOutput (Samples.worldPass ("  sk-123" +:+ nl +:+ "a note" +:+ nl))
               "pass" ["gemini_api_key"] = Ok output ->
             allASCII output = true)
    by (intros output [= <-]; reflexivity).
  exact (conj h (conj eq_refl
           (returned_key_is_not_empty (H := Samples.plainTables)
              (Samples.worldPass ("  sk-123" +:+ nl +:+ "a note" +:+ nl))
              false defaultCfg h))).
Defined.


(** X11 at a sample input.  The key in the environment, on the built-in
    configuration. *)
Lemma environment_key_wins_witness :
  let w := Samples.worldTyping "helo wrold" "Hello, world." in
  Getenv w "GEMINI_API_KEY" = "secret" /\
  "secret" <> EmptyString /\
  requireAPIKey (H := Samples.plainTables) w false defaultCfg
  = (utils.printV false
       "Using Gemini API key from environment variable GEMINI_API_KEY.",
     Next "secret") /\
  Forall (fun e => keyUse "secret" e = true)
         (trace (fixRun (H := Samples.plainTables) w false defaultCfg (Samples.given [])
                   Samples.noFixFlags)) /\
  Forall (fun e => keyUse "secret" e = true)
         (trace (answerRun (H := Samples.plainTables) w false defaultCfg
                   (Samples.given []) Samples.noAnswerFlags)) /\
  Forall (fun e => keyUse "secret" e = true)
         (trace (explainRun (H := Samples.plainTables) w false defaultCfg
                   (Samples.given []) Samples.noExplainFlags)).
Proof.
  cbv zeta.
  assert (h : "secret" <> EmptyString) by discriminate.
  exact (conj eq_refl (conj h
           (environment_key_wins (H := Samples.plainTables)
              (Samples.worldTyping "helo wrold" "Hello, world.") false defaultCfg
              (Samples.given []) Samples.noFixFlags Samples.noAnswerFlags
              Samples.noExplainFlags "secret" eq_refl h))).
Defined.

(** X14 at a sample input.  An editor session that leaves [helo wrold]
    in the file. *)
Lemma temporary_file_is_removed_witness :
  let fs := Samples.filesLeaving "helo wrold" in
  editor.ioutilTempFile fs = Ok "/tmp/qik-1.txt" /\
  editor.GetTextFromEditor fs "nvim"
  = ([editor.TempFile EmptyString "qik-*.txt"; editor.Close "/tmp/qik-1.txt";
      editor.Run "nvim" "/tmp/qik-1.txt"; editor.ReadFile "/tmp/qik-1.txt";
      editor.Remove "/tmp/qik-1.txt"],
     Ok "helo wrold") /\
  (exists before,
      fst (editor.GetTextFromEditor fs "nvim")
      = editor.TempFile EmptyString "qik-*.txt" :: editor.Close "/tmp/qik-1.txt"
          :: before ++ [editor.Remove "/tmp/qik-1.txt"] /\
      (before = []
       \/ before = [editor.Run "nvim" "/tmp/qik-1.txt"]
       \/ before = [editor.Run "nvim" "/tmp/qik-1.txt";
                    editor.ReadFile "/tmp/qik-1.txt"])) /\
  (forall content,
      snd (editor.GetTextFromEditor fs "nvim") = Ok content <->
      editor.tempFileClose fs = None /\
      editor.cmdRun fs "nvim" "/tmp/qik-1.txt" = None /\
      editor.ioutilReadFile fs "/tmp/qik-1.txt" = Ok content).
Proof.
  cbv zeta.
  exact (conj eq_refl (conj eq_refl
           (temporary_file_is_removed (Samples.filesLeaving "helo wrold") "nvim"
              "/tmp/qik-1.txt" eq_refl))).
Defined.

(** X17 at a sample input.  The mood [professional] of the built-in
    configuration. *)
Lemma mood_reaches_prompt_witness :
  let professional :=
    {| Description := "Refine text to be formal, objective, and suitable for business or academic contexts.";
       Instruction := "Additionally, adjust the tone of the text to be highly professional, formal, and objective. Avoid colloquialisms and ensure a polished, business-like feel." |} in
  let flags := Samples.given ["mood"] in
  wellFormed defaultCfg = true /\
  Moods defaultCfg !! "professional" = Some professional /\
  plainFor "TEXT" (Instruction professional) = true /\
  plainFor "LANGUAGE" (Instruction professional) = true /\
  exists t a,
    fixAssemble (H := Samples.plainTables) defaultCfg flags
      (Samples.fixMood "professional") = (t, Next a) /\
    selectedMoodKey a = "professional" /\
    forall inputText,
      Contains (ai.finalPrompt inputText (promptWithMood a) (targetLanguage a))
        (Instruction professional) = true.
Proof.
  cbv zeta.
  assert (h1 : wellFormed defaultCfg = true) by (vm_compute; reflexivity).
  assert (h2 : Moods defaultCfg !! "professional"
               = Some {| Description := "Refine text to be formal, objective, and suitable for business or academic contexts.";
                         Instruction := "Additionally, adjust the tone of the text to be highly professional, formal, and objective. Avoid colloquialisms and ensure a polished, business-like feel." |})
    by (vm_compute; reflexivity).
  assert (h3 : plainFor "TEXT" "Additionally, adjust the tone of the text to be highly professional, formal, and objective. Avoid colloquialisms and ensure a polished, business-like feel." = true)
    by (vm_compute; reflexivity).
  assert (h4 : plainFor "LANGUAGE" "Additionally, adjust the tone of the text to be highly professional, formal, and objective. Avoid colloquialisms and ensure a polished, business-like feel." = true)
    by (vm_compute; reflexivity).
  destruct (mood_reaches_prompt (H := Samples.plainTables) defaultCfg
              (Samples.given ["mood"]) (Samples.fixMood "professional")
              Samples.noAnswerFlags "professional" _ h1 h2 h3 h4) as [W _].
  exact (conj h1 (conj h2 (conj h3 (conj h4 (W eq_refl))))).
Defined.

(** X18 at a sample input.  An editor session that leaves two spaces and
    a newline. *)
Lemma explain_blank_input_cancels_witness :
  let blank := String " " (String " " nl) in
  let w := Samples.worldTyping blank EmptyString in
  let run :=
    explainRun (H := Samples.plainTables) w false defaultCfg (Samples.given [])
      Samples.noExplainFlags in
  GetTextFromEditor w (Editor defaultCfg) = Ok blank /\
  TrimSpace (H := Samples.plainTables) blank = EmptyString /\
  In (RunEditor (Editor defaultCfg)) (trace run) /\
  status run = ExitSuccess /\
  exists before,
    Forall (fun e => externalCall e = false) before /\
    trace run
    = before ++ [RunEditor (Editor defaultCfg);
                 Stdout ("No input provided. Exiting." +:+ nl)].
Proof.
  cbv zeta.
  assert (h : In (RunEditor (Editor defaultCfg))
                 (trace (explainRun (H := Samples.plainTables)
                           (Samples.worldTyping (String " " (String " " nl)) EmptyString)
                           false defaultCfg (Samples.given []) Samples.noExplainFlags)))
    by (vm_compute; auto 10).
  exact (conj eq_refl (conj eq_refl (conj h
           (explain_blank_input_cancels (H := Samples.plainTables)
              (Samples.worldTyping (String " " (String " " nl)) EmptyString)
              false defaultCfg (Samples.given []) Samples.noExplainFlags
              _ eq_refl eq_refl h)))).
Defined.

(** X19 at a sample input.  [qik fix --english] and [qik fix --language
    English --prompt english_fix_only] on the built-in configuration. *)
Lemma english_is_shorthand_witness :
  let w := Samples.worldTyping "helo wrold" "Hello, world." in
  let short := Samples.given ["english"] in
  let long := Samples.given ["language"; "prompt"] in
  let v := {| language := EmptyString; promptKey := EmptyString;
              englishShorthand := true; moodKey := EmptyString |} in
  let v' := {| language := "English"; promptKey := "english_fix_only";
               englishShorthand := false; moodKey := EmptyString |} in
  englishShorthand v = true /\
  language v = EmptyString /\
  short "prompt" = false /\
  long "mood" = short "mood" /\
  fixCommand (H := Samples.plainTables) w false defaultCfg short v
  = fixCommand (H := Samples.plainTables) w false defaultCfg long v' /\
  fixChooseTemplate (H := Samples.plainTables) defaultCfg v'
  = ([], Next (EnglishFixOnly (Prompts defaultCfg), "English")).
Proof.
  cbv zeta.
  exact (conj eq_refl (conj eq_refl (conj eq_refl (conj eq_refl
           (english_is_shorthand (H := Samples.plainTables)
              (Samples.worldTyping "helo wrold" "Hello, world.") false defaultCfg
              (Samples.given ["english"]) (Samples.given ["language"; "prompt"])
              {| language := EmptyString; promptKey := EmptyString;
                 englishShorthand := true; moodKey := EmptyString |}
              eq_refl eq_refl eq_refl eq_refl))))).
Defined.



(** X15 at a sample input.  The prompt [fix] sends for [helo wrold] on
    the built-in configuration. *)
Lemma only_the_assembled_prompt_is_sent_witness :
  let w := Samples.worldTyping "helo wrold" "Hello, world." in
  let prompt :=
    ai.finalPrompt "helo wrold"
      (ReplaceAll (Default defaultPromptsConfig) "{MOOD_INSTRUCTION}" EmptyString)
      "Norwegian" in
  In (GenerateContent "gemini-1.5-flash-latest" prompt)
     (trace (fixRun (H := Samples.plainTables) w false defaultCfg (Samples.given [])
               Samples.noFixFlags)) /\
  "gemini-1.5-flash-latest" = GeminiModel defaultCfg /\
  exists t a inputText,
    fixAssemble (H := Samples.plainTables) defaultCfg (Samples.given [])
      Samples.noFixFlags = (t, Next a) /\
    GetTextFromEditor w (Editor defaultCfg) = Ok inputText /\
    TrimSpace (H := Samples.plainTables) inputText <> EmptyString /\
    prompt = ReplaceAll (ReplaceAll (promptWithMood a) "{TEXT}" inputText)
               "{LANGUAGE}" (targetLanguage a).
Proof.
  cbv zeta.
  assert (h : In (GenerateContent "gemini-1.5-flash-latest"
                    (ai.finalPrompt "helo wrold"
                       (ReplaceAll (Default defaultPromptsConfig) "{MOOD_INSTRUCTION}"
                          EmptyString)
                       "Norwegian"))
                 (trace (fixRun (H := Samples.plainTables)
                           (Samples.worldTyping "helo wrold" "Hello, world.")
                           false defaultCfg (Samples.given []) Samples.noFixFlags)))
    by (vm_compute; auto 20).
  destruct (only_the_assembled_prompt_is_sent (H := Samples.plainTables)
              (Samples.worldTyping "helo wrold" "Hello, world.") false defaultCfg
              (Samples.given []) Samples.noFixFlags Samples.noAnswerFlags
              Samples.noExplainFlags "gemini-1.5-flash-latest"
              (ai.finalPrompt "helo wrold"
                 (ReplaceAll (Default defaultPromptsConfig) "{MOOD_INSTRUCTION}"
                    EmptyString)
                 "Norwegian")) as [W _].
  exact (conj h (W h)).
Defined.

(** X1 at a sample input.  The input [helo wrold] in the prompt, for the
    built-in default template. *)
Lemma input_reaches_prompt_witness :
  Contains (Default defaultPromptsConfig) "{TEXT}" = true /\
  lacks "{" "helo wrold" = true /\
  lacks "}" "helo wrold" = true /\
  Contains "LANGUAGE" "helo wrold" = false /\
  Contains (ai.finalPrompt "helo wrold" (Default defaultPromptsConfig) "English")
    "helo wrold" = true.
Proof.
  assert (h : Contains (Default defaultPromptsConfig) "{TEXT}" = true)
    by (vm_compute; reflexivity).
  destruct (input_reaches_prompt "helo wrold" (Default defaultPromptsConfig) "English")
    as [_ W].
  exact (conj h (conj eq_refl (conj eq_refl (conj eq_refl
           (W h eq_refl eq_refl eq_refl))))).
Defined.
